(** * Referendum results by region: a model of [pandas_questions.py]

    The program is a pipeline of four functions over pandas tables:
    [merge_regions_and_departments], [merge_referendum_and_areas],
    [compute_referendum_result_by_regions] and [plot_referendum_map].
    Tables are modelled as labelled columns over a list of rows, the pandas
    operations the program calls are modelled one by one, and the four
    functions are written with them, line for line. *)

From Stdlib Require Import ZArith QArith String Ascii Lia.
From Stdlib Require Import DecimalString DecimalPos DecimalZ.
From Stdlib Require OrdersEx.
From stdpp Require Import base option list sorting gmap.

Local Open Scope Z_scope.
Local Open Scope string_scope.
Local Open Scope list_scope.

(** ** Cell values *)

(** A float64 cell. A finite float is kept as the rational it denotes. *)
Inductive float :=
| Finite (q : Q)
| Inf (negative : bool)
| NaN.

(** The values a cell holds: an integer (of an int64 column, as [read_csv]
    makes them), a string (a byte string in UTF-8, whose byte order is the
    order of code points), a float ([NaN] marks an absent value), a geometry
    of the region file. *)
Inductive value :=
| VInt (n : Z)
| VStr (s : string)
| VFloat (x : float)
| VGeom (g : N).

Definition nan : value := VFloat NaN.

(** The sum of two integers of an int64 column, as numpy computes it: it
    wraps around at 2^63 and raises no exception. *)
Definition wrap64 (z : Z) : Z := (z + 2 ^ 63) mod 2 ^ 64 - 2 ^ 63.

Definition add64 (a b : Z) : Z := wrap64 (a + b).

Abbreviation label := string.

(** ** Exceptions *)

(** [Unsupported] marks the cases that the model leaves out (float or
    geometry keys, key columns of mixed contents, sums of columns that are
    not int64, duplicate labels): a result [Raise Unsupported] says nothing
    of the program. *)
Inductive error :=
| KeyError (l : label)
| ValueError
| Unsupported.

Inductive result (A : Type) :=
| Ok (a : A)
| Raise (e : error).
Arguments Ok {A} a.
Arguments Raise {A} e.

Global Instance result_ret : MRet result := λ A a, Ok a.
Global Instance result_bind : MBind result := λ A B f m,
  match m with Ok a => f a | Raise e => Raise e end.
Global Instance result_fmap : FMap result := λ A B f m,
  match m with Ok a => Ok (f a) | Raise e => Raise e end.

(** [traverse f l] runs [f] on the elements from left to right and stops at
    the first exception. *)
Fixpoint traverse {A B} (f : A → result B) (l : list A) : result (list B) :=
  match l with
  | [] => Ok []
  | a :: l => b ← f a; bs ← traverse f l; Ok (b :: bs)
  end.

(** ** Tables *)

(** A row holds the values of its index levels and of its columns.  The
    default index (row numbers) has no level: no operation of the program
    reads a row number. *)
Record Row := mkRow { ix : list value; cells : list value }.

Record DataFrame := mkDF {
  index_names : list label;
  columns : list label;
  rows : list Row
}.

(** A Series read from a frame: its values, in the order of the rows. *)
Abbreviation Series := (list value).

(** The positions of label [c] among the column labels. *)
Fixpoint positions (c : label) (cols : list label) : list nat :=
  match cols with
  | [] => []
  | d :: cols =>
      (if String.eqb d c then [0%nat] else []) ++ (S <$> positions c cols)
  end.

(** [df[c]] is a Series when [c] labels exactly one column, and raises
    [KeyError] when it labels none.  (With a repeated label pandas returns a
    frame; the model stops there.) *)
Definition col_pos (c : label) (cols : list label) : result nat :=
  match positions c cols with
  | [] => Raise (KeyError c)
  | [p] => Ok p
  | _ => Raise Unsupported
  end.

Definition cell (p : nat) (r : Row) : value := nth p (cells r) nan.

Definition getitem (df : DataFrame) (c : label) : result Series :=
  p ← col_pos c (columns df); Ok (cell p <$> rows df).

(** Every row has one value per column and per index level. *)
Definition wf_row (df : DataFrame) (r : Row) : Prop :=
  length (cells r) = length (columns df) ∧
  length (ix r) = length (index_names df).

Definition wf (df : DataFrame) : Prop := Forall (wf_row df) (rows df).

Global Instance wf_dec df : Decision (wf df).
Proof. unfold wf, wf_row. apply _. Defined.

(** [df.rename(columns=m)]: labels absent from [m] are kept. *)
Fixpoint renamed (m : list (label * label)) (c : label) : label :=
  match m with
  | [] => c
  | (old, new) :: m => if String.eqb old c then new else renamed m c
  end.

Definition rename (m : list (label * label)) (df : DataFrame) : DataFrame :=
  mkDF (index_names df) (renamed m <$> columns df) (rows df).

(** [df[[c1, ..., cn]]] *)
Definition select (cs : list label) (df : DataFrame) : result DataFrame :=
  ps ← traverse (λ c, col_pos c (columns df)) cs;
  Ok (mkDF (index_names df) cs
        ((λ r, mkRow (ix r) ((λ p, cell p r) <$> ps)) <$> rows df)).

(** ** Joins *)

(** The values a join matches on.  pandas matches an absent key with an
    absent key.  Other floats and geometries as keys are outside the model. *)
Inductive key :=
| KInt (n : Z)
| KStr (s : string)
| KNaN.

Global Instance key_eq_dec : EqDecision key.
Proof. solve_decision. Defined.

Definition as_key (v : value) : result key :=
  match v with
  | VInt n => Ok (KInt n)
  | VStr s => Ok (KStr s)
  | VFloat NaN => Ok KNaN
  | _ => Raise Unsupported
  end.

(** The dtype of a key column, as far as a join looks at it.  [read_csv]
    makes a column of integers an int64 column, and a column of strings an
    object column, in which a missing value is absent.  Columns of other
    contents (floats, integers with strings or with absent values, absent
    values only) are outside the model. *)
Inductive dtype := Int64 | Object.

Global Instance dtype_eq_dec : EqDecision dtype.
Proof. solve_decision. Defined.

Definition is_KInt (k : key) : bool :=
  match k with KInt _ => true | _ => false end.

Definition is_KStr (k : key) : bool :=
  match k with KStr _ => true | _ => false end.

Definition dtype_of (ks : list key) : result dtype :=
  if forallb is_KInt ks then Ok Int64
  else if forallb (λ k, negb (is_KInt k)) ks && existsb is_KStr ks
  then Ok Object
  else Raise Unsupported.

(** pandas refuses to join a column of strings with a column of integers
    ([ValueError]: You are trying to merge on object and int64 columns).
    It does not compare the dtypes when one side has no row. *)
Definition check_dtypes (lk rk : list key) : result () :=
  match lk, rk with
  | [], _ | _, [] => Ok ()
  | _, _ =>
      l ← dtype_of lk; r ← dtype_of rk;
      if decide (l = r) then Ok () else Raise ValueError
  end.

Inductive how := Inner | Left.

(** Labels shared by the two sides, the join label apart, get the suffixes
    [_x] and [_y]. *)
Definition suffixed (others : list label) (sfx : string) (c : label) : label :=
  if bool_decide (c ∈ others) then String.append c sfx else c.

Definition merged_columns (lcols rcols : list label) : list label :=
  (suffixed rcols "_x" <$> lcols) ++ (suffixed lcols "_y" <$> rcols).

(** The rows a left row yields: one per right row with the same key, in the
    order of the right rows; a left join keeps an unmatched left row with
    absent right values. *)
Definition joined (h : how) (width : nat) (right : list (key * list value))
    (k : key) (l : Row) : list Row :=
  match filter (λ kr, kr.1 = k) right, h with
  | [], Left => [mkRow (ix l) (cells l ++ replicate width nan)]
  | ms, _ => (λ kr, mkRow (ix l) (cells l ++ kr.2)) <$> ms
  end.

(** The default index of a new table. *)
Definition reset (r : Row) : Row := mkRow [] (cells r).

(** [pd.merge(left, right, on=c, how=h)]: the labels are looked up, then
    the dtypes of the two key columns are compared; the rows follow the
    order of the left rows; the result has the default index. *)
Definition merge (left right : DataFrame) (on : label) (h : how)
    : result DataFrame :=
  pl ← col_pos on (columns left);
  pr ← col_pos on (columns right);
  lk ← traverse (λ r, as_key (cell pl r)) (rows left);
  rk ← traverse (λ r, as_key (cell pr r)) (rows right);
  _ ← check_dtypes lk rk;
  let rcols := delete pr (columns right) in
  let right_rows := zip rk ((λ r, delete pr (cells r)) <$> rows right) in
  Ok (mkDF [] (merged_columns (columns left) rcols)
        (reset <$> mjoin (zip_with (joined h (length rcols) right_rows)
                            lk (rows left)))).

(** [left.merge(right, left_on=c, right_index=True)]: an inner join of the
    column [c] of the left table with the index of the right table, which
    has one level here; the dtypes of the column and of the index are
    compared as in [pd.merge].  The rows keep the index of the left
    table. *)
Definition merge_right_index (left right : DataFrame) (left_on : label)
    : result DataFrame :=
  pl ← col_pos left_on (columns left);
  _ ← (match index_names right with [_] => Ok () | _ => Raise Unsupported end);
  lk ← traverse (λ r, as_key (cell pl r)) (rows left);
  rk ← traverse (λ r, as_key (hd nan (ix r))) (rows right);
  _ ← check_dtypes lk rk;
  let right_rows := zip rk (cells <$> rows right) in
  Ok (mkDF (index_names left) (merged_columns (columns left) (columns right))
        (mjoin (zip_with (joined Inner (length (columns right)) right_rows)
                  lk (rows left)))).

(** ** [merge_regions_and_departments] *)

Definition merge_regions_and_departments (regions departments : DataFrame)
    : result DataFrame :=
  let df_reg := rename [("code", "code_reg"); ("name", "name_reg")] regions in
  let df_dep := rename [("region_code", "code_reg"); ("code", "code_dep");
                        ("name", "name_dep")] departments in
  l ← select ["code_reg"; "code_dep"; "name_dep"] df_dep;
  r ← select ["code_reg"; "name_reg"] df_reg;
  merged ← merge l r "code_reg" Left;
  select ["code_reg"; "name_reg"; "code_dep"; "name_dep"] merged.

(** ** Strings *)

(** [str(n)] for an integer: its decimal numeral. *)
Definition str_of_int (n : Z) : string := NilZero.string_of_int (Z.to_int n).

(** [astype(str)] on one value.  An absent value becomes the text ["nan"],
    as in the releases of pandas before 3.0.  The text of other floats is
    outside the model. *)
Definition astype_str (v : value) : result string :=
  match v with
  | VInt n => Ok (str_of_int n)
  | VStr s => Ok s
  | VFloat NaN => Ok "nan"
  | _ => Raise Unsupported
  end.

Definition series_astype_str (s : Series) : result Series :=
  traverse (λ v, VStr <$> astype_str v) s.

Definition zeros (n : nat) : string :=
  string_of_list_ascii (replicate n "0"%char).

(** Python's [len(s)]: the number of characters of the string.  In UTF-8
    these are the bytes that do not continue a character (the bytes
    [10xxxxxx] do). *)
Definition continues (c : ascii) : bool :=
  match c with
  | Ascii _ _ _ _ _ _ false true => true
  | _ => false
  end.

Fixpoint len (s : string) : nat :=
  match s with
  | EmptyString => 0
  | String c s => ((if continues c then 0 else 1) + len s)%nat
  end.

(** Python's [str.zfill], which [Series.str.zfill] applies to each element:
    zeros on the left up to [width] characters, after a leading sign.
    (Releases of pandas before 2.0 put the zeros before the sign; at width 2
    the two differ on the texts ["+"] and ["-"] only, which are no codes.) *)
Definition zfill (width : nat) (s : string) : string :=
  if bool_decide (width ≤ len s)%nat then s
  else
    let pad := zeros (width - len s) in
    match s with
    | String c rest =>
        if bool_decide (c = "+"%char ∨ c = "-"%char)
        then String c (String.append pad rest)
        else String.append pad s
    | EmptyString => pad
    end.

Definition on_str {A} (f : string → A) (v : value) : result A :=
  match v with
  | VStr s => Ok (f s)
  | _ => Raise Unsupported
  end.

(** [s.str.zfill(width)] on a Series of strings. *)
Definition str_zfill (width : nat) (s : Series) : result Series :=
  traverse (on_str (λ x, VStr (zfill width x))) s.

(** [s.str.contains(pat)] for a pattern without special characters: [pat]
    occurs in the string. *)
Definition contains (pat s : string) : bool :=
  if String.index 0 pat s is Some _ then true else false.

Definition str_contains (pat : string) (s : Series) : result (list bool) :=
  traverse (on_str (contains pat)) s.

(** The elements of [l] at the positions where [mask] is true. *)
Definition keep {A} (mask : list bool) (l : list A) : list A :=
  snd <$> filter (λ br, br.1 = true) (zip mask l).
Global Arguments keep : simpl never.

(** [df[mask]] *)
Definition boolean_filter (df : DataFrame) (mask : list bool) : DataFrame :=
  mkDF (index_names df) (columns df) (keep mask (rows df)).

(** [df[c] = s]: the Series comes from a frame with the same index, so its
    values are set row by row.  A new label is added as the last column. *)
Definition set_cell (ps : list nat) (r : Row) (v : value) : Row :=
  match ps with
  | [] => mkRow (ix r) (cells r ++ [v])
  | p :: _ => mkRow (ix r) (<[p := v]> (cells r))
  end.

Definition setitem (df : DataFrame) (c : label) (s : Series)
    : result DataFrame :=
  if negb (bool_decide (length s = length (rows df))) then Raise ValueError
  else
    match positions c (columns df) with
    | _ :: _ :: _ => Raise Unsupported
    | ps =>
        Ok (mkDF (index_names df)
              (match ps with [] => columns df ++ [c] | _ => columns df end)
              (zip_with (set_cell ps) (rows df) s))
    end.

(** ** The store of tables *)

(** A Python name holds a reference to a table; a function that assigns a
    column changes the table its caller holds.  A statement runs on the
    store and yields a value or an exception, and the store after it. *)
Abbreviation ref := nat.

Definition Py (A : Type) : Type := gmap nat DataFrame → result A * gmap nat DataFrame.

Global Instance Py_ret : MRet Py := λ A a h, (Ok a, h).
Global Instance Py_bind : MBind Py := λ A B f m h,
  match m h with
  | (Ok a, h') => f a h'
  | (Raise e, h') => (Raise e, h')
  end.

Definition lift {A} (m : result A) : Py A := λ h, (m, h).

Definition deref (r : ref) : Py DataFrame := λ h,
  match h !! r with
  | Some df => (Ok df, h)
  | None => (Raise Unsupported, h)
  end.

Definition assign (r : ref) (df : DataFrame) : Py () := λ h,
  (Ok (), <[r := df]> h).

(** [obj[c] = s] on the table that [r] refers to. *)
Definition setitem_at (r : ref) (c : label) (s : Series) : Py () :=
  df ← deref r;
  df' ← lift (setitem df c s);
  assign r df'.

(** ** [merge_referendum_and_areas] *)

Definition merge_referendum_and_areas (referendum regions_and_departments : ref)
    : Py DataFrame :=
  df ← deref referendum;
  dept_code ← lift (s ← getitem df "Department code"; series_astype_str s);
  code_dep ← lift (str_zfill 2 dept_code);
  setitem_at referendum "code_dep" code_dep;;
  df ← deref referendum;
  mask ← lift (s ← getitem df "code_dep"; str_contains "Z" s);
  let referendum := boolean_filter df (negb <$> mask) in
  areas ← deref regions_and_departments;
  merged ← lift (merge referendum areas "code_dep" Inner);
  mret merged.

(** ** Grouping *)

(** One part of a grouping key: a string, or nothing for an absent value
    (pandas drops the rows whose key has an absent part).  Keys of other
    types are outside the model. *)
Definition key_part (v : value) : result (option string) :=
  match v with
  | VStr s => Ok (Some s)
  | VFloat NaN => Ok None
  | _ => Raise Unsupported
  end.

Fixpoint present (parts : list (option string)) : option (list string) :=
  match parts with
  | [] => Some []
  | None :: _ => None
  | Some s :: parts => cons s <$> present parts
  end.

Definition group_key (ps : list nat) (r : Row) : result (option (list string)) :=
  parts ← traverse (λ p, key_part (cell p r)) ps;
  Ok (present parts).

(** Grouping keys are ordered part by part, each part as Python orders
    strings. *)
Fixpoint key_leb (k1 k2 : list string) : bool :=
  match k1, k2 with
  | [], _ => true
  | _ :: _, [] => false
  | a :: k1, b :: k2 =>
      match OrdersEx.String_as_OT.compare a b with
      | Lt => true
      | Eq => key_leb k1 k2
      | Gt => false
      end
  end.

Definition key_le (k1 k2 : list string) : Prop := key_leb k1 k2 = true.

Global Instance key_le_dec k1 k2 : Decision (key_le k1 k2).
Proof. unfold key_le. apply _. Defined.

Definition as_int (v : value) : result Z :=
  match v with
  | VInt n => Ok n
  | _ => Raise Unsupported
  end.

(** The sum of an int64 column. *)
Definition total (ns : list Z) : Z := foldr add64 0 ns.

Inductive aggfun := Sum.

Record GroupBy := mkGroupBy { by_labels : list label; grouped : DataFrame }.

(** [df.groupby(by)] *)
Definition groupby (df : DataFrame) (by_ : list label) : result GroupBy :=
  _ ← traverse (λ c, col_pos c (columns df)) by_;
  Ok (mkGroupBy by_ df).

(** The rows of a group, given the key of every row. *)
Definition members {A} (k : list string)
    (keyed : list (option (list string) * A)) : list A :=
  snd <$> filter (λ kr, kr.1 = Some k) keyed.

(** The keys of the groups: those that occur, once each, in ascending
    order. *)
Definition group_keys {A} (keyed : list (option (list string) * A))
    : list (list string) :=
  merge_sort key_le (remove_dups (omap fst keyed)).

(** The key and the integers to sum of one row. *)
Definition keyed_row (kps vps : list nat) (r : Row)
    : result (option (list string) * list Z) :=
  k ← group_key kps r;
  v ← traverse (λ p, as_int (cell p r)) vps;
  Ok (k, v).

(** [g.agg({c1: 'sum', ..., cn: 'sum'})]: one row per key that occurs, the
    keys in ascending order as the index, and the sum of each column over
    the rows of the key.  The summed columns hold integers. *)
Definition agg (g : GroupBy) (spec : list (label * aggfun)) : result DataFrame :=
  let df := grouped g in
  kps ← traverse (λ c, col_pos c (columns df)) (by_labels g);
  vps ← traverse (λ ca, col_pos ca.1 (columns df)) spec;
  keyed ← traverse (keyed_row kps vps) (rows df);
  Ok (mkDF (by_labels g) (fst <$> spec)
        ((λ k, mkRow (VStr <$> k)
                 ((λ j, VInt (total ((λ v, nth j v 0) <$> members k keyed)))
                    <$> seq 0 (length spec)))
           <$> group_keys keyed)).

(** [df.reset_index()] on a table with a named index: the index levels
    become the first columns. *)
Definition reset_index (df : DataFrame) : result DataFrame :=
  match index_names df with
  | [] => Raise Unsupported
  | names =>
      if bool_decide (Exists (λ n, n ∈ columns df) names) then Raise ValueError
      else Ok (mkDF [] (names ++ columns df)
                 ((λ r, mkRow [] (ix r ++ cells r)) <$> rows df))
  end.

(** [df.set_index(c)] *)
Definition set_index (c : label) (df : DataFrame) : result DataFrame :=
  p ← col_pos c (columns df);
  Ok (mkDF [c] (delete p (columns df))
        ((λ r, mkRow [cell p r] (delete p (cells r))) <$> rows df)).

(** ** [compute_referendum_result_by_regions] *)

Definition compute_referendum_result_by_regions (referendum_and_areas : DataFrame)
    : result DataFrame :=
  g ← groupby referendum_and_areas ["code_reg"; "name_reg"];
  a ← agg g [("Registered", Sum); ("Abstentions", Sum); ("Null", Sum);
             ("Choice A", Sum); ("Choice B", Sum)];
  results ← reset_index a;
  results ← set_index "code_reg" results;
  mret results.

(** ** [plot_referendum_map] *)

Section Plot.

(** Rounding to the nearest float64.  It is monotone and keeps 0, 1 and -1,
    which float64 represents. *)
Variable rnd : Q → Q.

(** The files of the program. *)
Variable read_file : string → result DataFrame.

(** Float division as IEEE 754 has it: no exception on a zero divisor. *)
Definition float_div (x y : Q) : float :=
  if Qeq_bool y 0 then
    match x ?= 0 with
    | Eq => NaN
    | Gt => Inf false
    | Lt => Inf true
    end%Q
  else Finite (rnd (x / y)).

(** [a / b] on integers: both become floats, then are divided. *)
Definition truediv (a b : Z) : float :=
  float_div (rnd (inject_Z a)) (rnd (inject_Z b)).

Definition add_values (v w : value) : result value :=
  a ← as_int v; b ← as_int w; Ok (VInt (add64 a b)).

Definition truediv_values (v w : value) : result value :=
  a ← as_int v; b ← as_int w; Ok (VFloat (truediv a b)).

(** Arithmetic on two Series of one frame, element by element. *)
Definition series_op (f : value → value → result value) (a b : Series)
    : result Series :=
  traverse (λ vw, f vw.1 vw.2) (zip a b).

(** The drawing of the map is outside the model: the function's table is
    built before it and does not depend on it. *)
Definition plot_referendum_map (referendum_result_by_regions : ref)
    : Py DataFrame :=
  regions_geo ← lift (read_file "data/regions.geojson");
  df ← deref referendum_result_by_regions;
  a ← lift (getitem df "Choice A");
  b ← lift (getitem df "Choice B");
  ratio ← lift (s ← series_op add_values a b; series_op truediv_values a s);
  setitem_at referendum_result_by_regions "ratio" ratio;;
  code ← lift (c ← getitem regions_geo "code"; series_astype_str c);
  regions_geo ← lift (setitem regions_geo "code" code);
  df ← deref referendum_result_by_regions;
  gdf ← lift (merge_right_index regions_geo df "code");
  mret gdf.

End Plot.

(** ** The script *)

(** A new table: a reference that the store does not hold yet. *)
Definition new (df : DataFrame) : Py ref := λ h,
  let r := fresh (dom h) in (Ok r, <[r := df]> h).

Section Main.

Variable rnd : Q → Q.
Variable read_file : string → result DataFrame.

(** [pd.read_csv(path, sep=sep)]: the table that the file holds. *)
Variable read_csv : string → string → result DataFrame.

Definition load_data : result (DataFrame * DataFrame * DataFrame) :=
  referendum ← read_csv "data/referendum.csv" ";";
  regions ← read_csv "data/regions.csv" ",";
  departments ← read_csv "data/departments.csv" ",";
  Ok (referendum, regions, departments).

(** The program run as a script.  The tables that a function of the
    program writes to or takes by reference are in the store.  Printing
    the results and showing the figure are outside the model. *)
Definition main : Py DataFrame :=
  '(referendum, df_reg, df_dep) ← lift load_data;
  referendum ← new referendum;
  regions_and_departments ← lift (merge_regions_and_departments df_reg df_dep);
  regions_and_departments ← new regions_and_departments;
  referendum_and_areas ←
    merge_referendum_and_areas referendum regions_and_departments;
  referendum_results ←
    lift (compute_referendum_result_by_regions referendum_and_areas);
  referendum_results ← new referendum_results;
  gdf ← plot_referendum_map rnd read_file referendum_results;
  mret gdf.

End Main.

(** * The vocabulary of the properties *)

(** ** Outcomes *)

Definition is_Ok {A} (m : result A) : Prop :=
  match m with Ok _ => True | Raise _ => False end.

Definition finite (x : float) : Prop :=
  match x with Finite _ => True | _ => False end.

(** ** Department codes *)

(** The code that [merge_referendum_and_areas] joins on, for one value of
    the column [Department code]. *)
Definition normalize (v : value) : result string :=
  zfill 2 <$> astype_str v.

(** The codes of the records of a table, in the order of its rows. *)
Definition dept_codes (df : DataFrame) : result (list string) :=
  s ← getitem df "Department code"; traverse normalize s.

(** The Z-free mask of a list of codes. *)
Definition mainland (code : string) : bool := negb (contains "Z" code).

(** No character of the code is a capital Z. *)
Definition no_Z (code : string) : bool :=
  bool_decide ("Z"%char ∉ list_ascii_of_string code).

(** The codes of the records that pass the filter on ['Z']. *)
Definition surviving (codes : list string) : list string :=
  filter (λ c, mainland c = true) codes.

(** The number that a decimal numeral denotes (Python's [int(s)] on digits
    with an optional minus sign), if the string is one. *)
Definition int_of_str (s : string) : option Z :=
  Z.of_int <$> NilZero.int_of_string s.

(** The numeric value of a department code as it is given. *)
Definition numeric (v : value) : option Z :=
  match v with
  | VInt n => Some n
  | VStr s => int_of_str s
  | _ => None
  end.

(** ** Columns of codes *)

Definition is_str (v : value) : bool :=
  match v with VStr _ => true | _ => false end.

Definition is_int (v : value) : bool :=
  match v with VInt _ => true | _ => false end.

(** A column of strings, as the codes of the regions and of the
    departments are. *)
Definition strings (s : Series) : Prop := Forall (λ v, is_str v = true) s.

(** A column of integers, as [read_csv] makes a column of codes that are
    all numbers. *)
Definition integers (s : Series) : Prop := Forall (λ v, is_int v = true) s.

(** Two columns of codes of one type: a join accepts them as keys. *)
Definition joinable (l r : Series) : Prop :=
  (strings l ∧ strings r) ∨ (integers l ∧ integers r).

(** ** The store *)

(** Between [h] and [h'] nothing changed but, at most, the column [c] of the
    table at [r]. *)
Definition writes_only (c : label) (r : ref) (h h' : gmap nat DataFrame)
    : Prop :=
  (∀ r', r' ≠ r → h' !! r' = h !! r') ∧
  ∀ df, h !! r = Some df →
    ∃ df', h' !! r = Some df' ∧
      index_names df' = index_names df ∧
      ix <$> rows df' = ix <$> rows df ∧
      (columns df' = columns df ∨ columns df' = columns df ++ [c]) ∧
      ∀ c', c' ≠ c → getitem df' c' = getitem df c'.

(** ** The inputs of [merge_regions_and_departments] *)

(** The right row of key [k], if any. *)
Definition assoc {B} (k : key) (R : list (key * B)) : option B :=
  snd <$> head (filter (λ kr, kr.1 = k) R).

(** The input tables of [merge_regions_and_departments]: the columns the
    function reads are there, the labels it introduces are free, and the
    region codes are values a join can match. *)
Record regions_table (regions : DataFrame) (rc rn : Series) : Prop := {
  regions_code : getitem regions "code" = Ok rc;
  regions_name : getitem regions "name" = Ok rn;
  regions_free :
    ("code_reg" ∉ columns regions) ∧ ("name_reg" ∉ columns regions);
  regions_keys : is_Ok (traverse as_key rc)
}.

Record departments_table (departments : DataFrame) (dr dc dn : Series)
    : Prop := {
  departments_region : getitem departments "region_code" = Ok dr;
  departments_code : getitem departments "code" = Ok dc;
  departments_name : getitem departments "name" = Ok dn;
  departments_free :
    ("code_reg" ∉ columns departments) ∧ ("code_dep" ∉ columns departments) ∧
    ("name_dep" ∉ columns departments);
  departments_keys : is_Ok (traverse as_key dr)
}.

(** The name of the region of code [code], absent when there is none. *)
Definition region_name (rc rn : Series) (code : value) : value :=
  match as_key code, traverse as_key rc with
  | Ok k, Ok ks => default nan (assoc k (zip ks rn))
  | _, _ => nan
  end.

(** ** The result of the aggregation *)

Definition numeric_columns : list label :=
  ["Registered"; "Abstentions"; "Null"; "Choice A"; "Choice B"].

(** The sums of the group of key [k]. *)
Definition sums (keyed : list (option (list string) * list Z))
    (k : list string) : list value :=
  (λ j, VInt (total ((λ v, nth j v 0) <$> members k keyed))) <$> seq 0 5.

(** The row of the result for the key [k]: the first part of the key is
    the index, the second the first column. *)
Definition result_row (keyed : list (option (list string) * list Z))
    (k : list string) : Row :=
  mkRow [nth 0 ((VStr <$> k) ++ sums keyed k) nan]
    (delete 0%nat ((VStr <$> k) ++ sums keyed k)).

Global Instance Q_eq_dec : EqDecision Q.
Proof. solve_decision. Defined.
Global Instance float_eq_dec : EqDecision float.
Proof. solve_decision. Defined.
Global Instance value_eq_dec : EqDecision value.
Proof. solve_decision. Defined.

Definition int_of_value (v : value) : option Z :=
  match v with VInt n => Some n | _ => None end.

(** The sum of the integers of a column over the selected rows. *)
Definition sum_over (sel : list bool) (vals : Series) : Z :=
  total (omap int_of_value (keep sel vals)).

(** The rows of region code [R]. *)
Definition in_region (R : string) (codes : Series) : list bool :=
  (λ c, bool_decide (c = VStr R)) <$> codes.

(** The rows of region code [R] and region name [N]. *)
Definition in_region_named (R N : string) (codes names : Series)
    : list bool :=
  zip_with (λ c n, bool_decide (c = VStr R ∧ n = VStr N)) codes names.

(** ** The inputs of [plot_referendum_map] *)

Definition int_column (df : DataFrame) (c : label) : Prop :=
  is_Ok (s ← getitem df c; traverse as_int s).

(** The shape [plot_referendum_map] expects of the table of results: an
    index of one level holding region codes, and integer columns
    [Choice A] and [Choice B]. *)
Definition regional_results (df : DataFrame) : Prop :=
  wf df ∧
  length (index_names df) = 1%nat ∧
  Forall (λ r, is_Ok (as_key (hd nan (ix r)))) (rows df) ∧
  int_column df "Choice A" ∧ int_column df "Choice B" ∧
  (length (positions "ratio" (columns df)) ≤ 1)%nat.

(** The region file has a column [code] of integers or strings. *)
Definition region_file (geo : DataFrame) : Prop :=
  wf geo ∧ is_Ok (c ← getitem geo "code"; series_astype_str c).

(** The ratio of every row of a table of results. *)
Definition ratios (rnd : Q → Q) (df : DataFrame) : result Series :=
  a ← getitem df "Choice A";
  b ← getitem df "Choice B";
  s ← series_op add_values a b;
  series_op (truediv_values rnd) a s.

(** The column [ratio] of the table at [r] after a call of
    [plot_referendum_map] on it. *)
Definition ratio_set (rnd : Q → Q) (read_file : string → result DataFrame)
    (h : gmap nat DataFrame) (r : ref) : result Series :=
  df ← match (plot_referendum_map rnd read_file r h).2 !! r with
       | Some df => Ok df
       | None => Raise Unsupported
       end;
  getitem df "ratio".

(** ** Joined tables and their totals *)

(** The place of a label after the column at [i] is taken out. *)
Definition shifted (i q : nat) : nat :=
  if decide (q < i)%nat then q else pred q.

(** The records that [merge_referendum_and_areas] joins, by their code: it
    passes the filter on ['Z'] and is a department code of the areas. *)
Definition matched (acs : list string) (code : string) : bool :=
  mainland code && bool_decide (code ∈ acs).

(** The rows that carry a region code and a region name; [groupby] leaves
    the others out of every group. *)
Definition with_region (codes names : Series) : list bool :=
  zip_with (λ c n, match c, n with VStr _, VStr _ => true | _, _ => false end)
    codes names.

(** The regions of the file that have a result, by their code. *)
Definition with_result (rcodes gcodes : list string) : list bool :=
  (λ c, bool_decide (c ∈ rcodes)) <$> gcodes.

(** A column of strings and absent values, as the parts of a grouping key
    are. *)
Definition key_column (df : DataFrame) (c : label) : Prop :=
  is_Ok (s ← getitem df c; traverse key_part s).

(** The records that count in the results of the program, by their code:
    the code passes the filter on ['Z'], it is the code of a department,
    and the region code of that department is the code of a region with a
    name. *)
Definition region_known (rc rn dr : Series) (acs : list string)
    (code : string) : bool :=
  match region_name (VStr <$> acs) dr (VStr code) with
  | VStr R =>
      match region_name rc rn (VStr R) with VStr _ => true | _ => false end
  | _ => false
  end.

Definition counted (rc rn dr : Series) (acs : list string) (code : string)
    : bool :=
  matched acs code && region_known rc rn dr acs code.

(** ** Example tables *)

Definition ex_regions : DataFrame :=
  mkDF [] ["id"; "code"; "name"; "slug"]
    [ mkRow [] [VInt 1; VStr "84"; VStr "Auvergne-Rhone-Alpes"; VStr "ara"];
      mkRow [] [VInt 2; VStr "11"; VStr "Ile-de-France"; VStr "idf"] ].

Definition ex_departments : DataFrame :=
  mkDF [] ["id"; "region_code"; "code"; "name"; "slug"]
    [ mkRow [] [VInt 1; VStr "84"; VStr "01"; VStr "Ain"; VStr "ain"];
      mkRow [] [VInt 2; VStr "94"; VStr "2A"; VStr "Corse-du-Sud"; VStr "cds"];
      mkRow [] [VInt 3; VStr "11"; VStr "75"; VStr "Paris"; VStr "paris"] ].

Definition ex_areas : DataFrame :=
  mkDF [] ["code_reg"; "name_reg"; "code_dep"; "name_dep"]
    [ mkRow [] [VStr "84"; VStr "Auvergne-Rhone-Alpes"; VStr "01"; VStr "Ain"];
      mkRow [] [VStr "94"; nan; VStr "2A"; VStr "Corse-du-Sud"];
      mkRow [] [VStr "11"; VStr "Ile-de-France"; VStr "75"; VStr "Paris"] ].

Definition ex_areas_twice : DataFrame :=
  mkDF [] ["code_reg"; "name_reg"; "code_dep"; "name_dep"]
    [ mkRow [] [VStr "84"; VStr "Auvergne-Rhone-Alpes"; VStr "01"; VStr "Ain"];
      mkRow [] [VStr "84"; VStr "Auvergne-Rhone-Alpes"; VStr "01"; VStr "Ain"] ].

Definition ex_referendum : DataFrame :=
  mkDF [] ["Department code"; "Town name"; "Registered"; "Abstentions";
           "Null"; "Choice A"; "Choice B"]
    [ mkRow [] [VInt 1; VStr "a"; VInt 100; VInt 0; VInt 0; VInt 60; VInt 40];
      mkRow [] [VStr "1"; VStr "b"; VInt 50; VInt 20; VInt 0; VInt 10; VInt 20];
      mkRow [] [VStr "ZA"; VStr "c"; VInt 7; VInt 1; VInt 1; VInt 2; VInt 3];
      mkRow [] [VInt 75; VStr "d"; VInt 9; VInt 0; VInt 0; VInt 0; VInt 0];
      mkRow [] [VInt 971; VStr "e"; VInt 5; VInt 1; VInt 0; VInt 3; VInt 1] ].

Definition ex_one_record : DataFrame :=
  mkDF [] ["Department code"; "Town name"; "Registered"; "Abstentions";
           "Null"; "Choice A"; "Choice B"]
    [ mkRow [] [VInt 1; VStr "a"; VInt 100; VInt 0; VInt 0; VInt 60; VInt 40] ].

(** Records whose codes are a letter with an accent (two bytes in UTF-8),
    a negative number, a code with a z in lower case, a number of four
    digits and a code with a capital Z. *)
Definition ex_accents : DataFrame :=
  mkDF [] ["Department code"; "Town name"; "Registered"; "Abstentions";
           "Null"; "Choice A"; "Choice B"]
    [ mkRow [] [VStr "é"; VStr "a"; VInt 1; VInt 0; VInt 0; VInt 1; VInt 0];
      mkRow [] [VInt (-7); VStr "b"; VInt 2; VInt 0; VInt 0; VInt 1; VInt 1];
      mkRow [] [VStr "2z"; VStr "c"; VInt 3; VInt 0; VInt 0; VInt 2; VInt 1];
      mkRow [] [VInt 1234; VStr "d"; VInt 4; VInt 0; VInt 0; VInt 2; VInt 2];
      mkRow [] [VStr "9Z"; VStr "e"; VInt 5; VInt 0; VInt 0; VInt 3; VInt 2] ].

Definition ex_store : gmap nat DataFrame :=
  <[0%nat := ex_referendum]> (<[1%nat := ex_areas]> ∅).

Definition ex_joined : DataFrame :=
  mkDF []
    ["Department code"; "Town name"; "Registered"; "Abstentions"; "Null";
     "Choice A"; "Choice B"; "code_dep"; "code_reg"; "name_reg"; "name_dep"]
    [ mkRow [] [VInt 1; VStr "a"; VInt 100; VInt 0; VInt 0; VInt 60; VInt 40;
                VStr "01"; VStr "84"; VStr "Auvergne-Rhone-Alpes"; VStr "Ain"];
      mkRow [] [VStr "1"; VStr "b"; VInt 50; VInt 20; VInt 0; VInt 10; VInt 20;
                VStr "01"; VStr "84"; VStr "Auvergne-Rhone-Alpes"; VStr "Ain"];
      mkRow [] [VInt 75; VStr "d"; VInt 9; VInt 0; VInt 0; VInt 0; VInt 0;
                VStr "75"; VStr "11"; VStr "Ile-de-France"; VStr "Paris"] ].

Definition ex_joined_reordered : DataFrame :=
  mkDF (index_names ex_joined) (columns ex_joined) (reverse (rows ex_joined)).

Definition ex_two_names : DataFrame :=
  mkDF [] ["code_reg"; "name_reg"; "Registered"; "Abstentions"; "Null";
           "Choice A"; "Choice B"]
    [ mkRow [] [VStr "84"; VStr "Auvergne"; VInt 100; VInt 0; VInt 0;
                VInt 60; VInt 40];
      mkRow [] [VStr "84"; VStr "Rhone-Alpes"; VInt 50; VInt 20; VInt 0;
                VInt 10; VInt 20] ].

Definition ex_two_names_results : DataFrame :=
  mkDF ["code_reg"]
    ["name_reg"; "Registered"; "Abstentions"; "Null"; "Choice A"; "Choice B"]
    [ mkRow [VStr "84"] [VStr "Auvergne"; VInt 100; VInt 0; VInt 0;
                         VInt 60; VInt 40];
      mkRow [VStr "84"] [VStr "Rhone-Alpes"; VInt 50; VInt 20; VInt 0;
                         VInt 10; VInt 20] ].

Definition ex_results : DataFrame :=
  mkDF ["code_reg"]
    ["name_reg"; "Registered"; "Abstentions"; "Null"; "Choice A"; "Choice B"]
    [ mkRow [VStr "11"] [VStr "Ile-de-France"; VInt 9; VInt 0; VInt 0;
                         VInt 0; VInt 0];
      mkRow [VStr "84"] [VStr "Auvergne-Rhone-Alpes"; VInt 150; VInt 20;
                         VInt 0; VInt 70; VInt 60] ].

(** Results with counts whose sum does not fit in an int64. *)
Definition ex_overflow : DataFrame :=
  mkDF ["code_reg"]
    ["name_reg"; "Registered"; "Abstentions"; "Null"; "Choice A"; "Choice B"]
    [ mkRow [VStr "11"] [VStr "Ile-de-France"; VInt 9223372036854775807;
                         VInt 0; VInt 0; VInt 4611686018427387904;
                         VInt 4611686018427387904] ].

Definition ex_geo : DataFrame :=
  mkDF [] ["code"; "nom"; "geometry"]
    [ mkRow [] [VInt 84; VStr "Auvergne-Rhone-Alpes"; VGeom 1];
      mkRow [] [VInt 11; VStr "Ile-de-France"; VGeom 2];
      mkRow [] [VInt 32; VStr "Hauts-de-France"; VGeom 3] ].

(** Reference tables whose codes are all numbers, which [read_csv] reads
    as integers. *)
Definition ex_regions_numbers : DataFrame :=
  mkDF [] ["id"; "code"; "name"; "slug"]
    [ mkRow [] [VInt 1; VInt 84; VStr "Auvergne-Rhone-Alpes"; VStr "ara"];
      mkRow [] [VInt 2; VInt 11; VStr "Ile-de-France"; VStr "idf"] ].

Definition ex_departments_numbers : DataFrame :=
  mkDF [] ["id"; "region_code"; "code"; "name"; "slug"]
    [ mkRow [] [VInt 1; VInt 84; VInt 1; VStr "Ain"; VStr "ain"];
      mkRow [] [VInt 3; VInt 11; VInt 75; VStr "Paris"; VStr "paris"] ].

Definition ex_areas_numbers : DataFrame :=
  mkDF [] ["code_reg"; "name_reg"; "code_dep"; "name_dep"]
    [ mkRow [] [VInt 84; VStr "Auvergne-Rhone-Alpes"; VInt 1; VStr "Ain"];
      mkRow [] [VInt 11; VStr "Ile-de-France"; VInt 75; VStr "Paris"] ].

Definition ex_results_numbers : DataFrame :=
  mkDF ["code_reg"]
    ["name_reg"; "Registered"; "Abstentions"; "Null"; "Choice A"; "Choice B"]
    [ mkRow [VInt 11] [VStr "Ile-de-France"; VInt 9; VInt 0; VInt 0;
                       VInt 0; VInt 0] ].

Definition ex_files (path : string) : result DataFrame :=
  if String.eqb path "data/regions.geojson" then Ok ex_geo
  else Raise Unsupported.

Definition ex_regions_twice : DataFrame :=
  mkDF [] ["id"; "code"; "name"; "slug"]
    [ mkRow [] [VInt 1; VStr "84"; VStr "Auvergne"; VStr "auv"];
      mkRow [] [VInt 2; VStr "84"; VStr "Rhone-Alpes"; VStr "ra"];
      mkRow [] [VInt 3; VStr "11"; VStr "Ile-de-France"; VStr "idf"] ].

Definition ex_regions_reordered : DataFrame :=
  mkDF [] ["name"; "code"]
    [ mkRow [] [VStr "Ile-de-France"; VStr "11"];
      mkRow [] [VStr "Auvergne-Rhone-Alpes"; VStr "84"] ].

Definition ex_joined_corse : DataFrame :=
  mkDF (index_names ex_joined) (columns ex_joined)
    (mkRow [] [VStr "2A"; VStr "f"; VInt 30; VInt 2; VInt 1; VInt 20; VInt 7;
               VStr "2A"; VStr "94"; nan; VStr "Corse-du-Sud"]
     :: rows ex_joined).

Definition ex_files_without_code (path : string) : result DataFrame :=
  if String.eqb path "data/regions.geojson"
  then Ok (mkDF [] ["nom"; "geometry"]
             [mkRow [] [VStr "Ile-de-France"; VGeom 2]])
  else Raise Unsupported.

Definition ex_csv (path sep : string) : result DataFrame :=
  if String.eqb path "data/referendum.csv" && String.eqb sep ";"
  then Ok ex_referendum
  else if String.eqb path "data/regions.csv" && String.eqb sep ","
  then Ok ex_regions
  else if String.eqb path "data/departments.csv" && String.eqb sep ","
  then Ok ex_departments
  else Raise Unsupported.

(** * Properties *)

(** A decidable fact about the example tables, by computation. *)
Ltac by_compute := apply (bool_decide_unpack _); vm_compute; exact I.

Ltac not_in_list :=
  let H := fresh in
  intros H; repeat (apply elem_of_cons in H as [H|H]);
  try discriminate H; by apply elem_of_nil in H.

(** ** Exceptions *)

Lemma bind_Ok {A B} (f : A → result B) (m : result A) b :
  m ≫= f = Ok b ↔ ∃ a, m = Ok a ∧ f a = Ok b.
Proof.
  destruct m as [a|e]; simpl; split.
  - intros H. exists a. done.
  - intros (a' & [= <-] & H). done.
  - intros [=].
  - intros (a' & [=] & _).
Qed.

Ltac inv_bind H :=
  repeat match type of H with
  | _ ≫= _ = Ok _ =>
      let x := fresh "x" in
      let Hx := fresh "Hx" in
      apply bind_Ok in H; destruct H as (x & Hx & H)
  end.

Section traverse.
Context {A B : Type} (f : A → result B).

Lemma traverse_Ok l bs :
  traverse f l = Ok bs ↔ Forall2 (λ a b, f a = Ok b) l bs.
Proof.
  revert bs. induction l as [|a l IH]; intros bs; simpl.
  - split.
    + intros [= <-]. constructor.
    + intros ->%Forall2_nil_inv_l. done.
  - split.
    + intros H. inv_bind H. injection H as <-.
      constructor; [done|]. by apply IH.
    + intros (b & bs' & Hb & Hbs & ->)%Forall2_cons_inv_l.
      rewrite Hb. simpl. apply IH in Hbs. rewrite Hbs. done.
Qed.

Lemma traverse_length l bs : traverse f l = Ok bs → length bs = length l.
Proof. intros H%traverse_Ok. symmetry. by eapply Forall2_length. Qed.

Lemma traverse_lookup l bs i a :
  traverse f l = Ok bs → l !! i = Some a →
  ∃ b, bs !! i = Some b ∧ f a = Ok b.
Proof.
  intros H%traverse_Ok Ha.
  destruct (Forall2_lookup_l _ _ _ _ _ H Ha) as (b & Hb & Hf). eauto.
Qed.

Lemma traverse_lookup_r l bs i b :
  traverse f l = Ok bs → bs !! i = Some b →
  ∃ a, l !! i = Some a ∧ f a = Ok b.
Proof.
  intros H%traverse_Ok Hb.
  destruct (Forall2_lookup_r _ _ _ _ _ H Hb) as (a & Ha & Hf). eauto.
Qed.

Lemma traverse_pure (g : A → B) l :
  (∀ a, a ∈ l → f a = Ok (g a)) → traverse f l = Ok (g <$> l).
Proof.
  intros H. apply traverse_Ok. apply Forall2_fmap_r, Forall_Forall2_diag.
  apply Forall_forall. done.
Qed.

Lemma traverse_total l :
  (∀ a, a ∈ l → ∃ b, f a = Ok b) → ∃ bs, traverse f l = Ok bs.
Proof.
  induction l as [|a l IH]; intros H; simpl; [eauto|].
  destruct (H a) as [b Hb]; [left|]. rewrite Hb. simpl.
  destruct IH as [bs Hbs]; [intros; apply H; by right|].
  rewrite Hbs. simpl. eauto.
Qed.
End traverse.

Lemma traverse_fmap {A B C} (f : B → result C) (g : A → B) l :
  traverse f (g <$> l) = traverse (f ∘ g) l.
Proof. induction l as [|a l IH]; csimpl; [done|]. by rewrite IH. Qed.

Lemma traverse_ext {A B} (f g : A → result B) l :
  (∀ a, a ∈ l → f a = g a) → traverse f l = traverse g l.
Proof.
  induction l as [|a l IH]; intros H; simpl; [done|].
  rewrite H; [|left]. rewrite IH; [done|]. intros; apply H; by right.
Qed.

(** ** Column labels *)

Lemma elem_of_positions c cols p :
  p ∈ positions c cols ↔ cols !! p = Some c.
Proof.
  revert p. induction cols as [|d cols IH]; intros p; simpl.
  - rewrite elem_of_nil. done.
  - rewrite elem_of_app, list_elem_of_fmap.
    destruct p as [|p]; simpl.
    + destruct (String.eqb_spec d c) as [->|Hne].
      * split; [done|]. intros _. left. by left.
      * split; [|by intros [= ->]].
        intros [H|(q & [=] & _)]. by apply elem_of_nil in H.
    + rewrite <- IH. split.
      * intros [H|(q & [= ->] & Hq)]; [|done].
        destruct (String.eqb d c); [|by apply elem_of_nil in H].
        by apply list_elem_of_singleton in H.
      * intros H. right. eauto.
Qed.

Lemma positions_nil c cols : positions c cols = [] ↔ c ∉ cols.
Proof.
  split.
  - intros H (p & Hp)%list_elem_of_lookup_1.
    apply elem_of_positions in Hp. rewrite H in Hp. by apply elem_of_nil in Hp.
  - intros H. destruct (positions c cols) as [|p ps] eqn:E; [done|].
    exfalso. apply H. apply (list_elem_of_lookup_2 _ p).
    apply elem_of_positions. rewrite E. left.
Qed.

Lemma positions_app c l1 l2 :
  positions c (l1 ++ l2) =
  positions c l1 ++ ((λ p, length l1 + p)%nat <$> positions c l2).
Proof.
  induction l1 as [|d l1 IH]; simpl.
  - by rewrite list_fmap_id.
  - rewrite IH, fmap_app, <- list_fmap_compose, <- app_assoc. done.
Qed.

Lemma positions_fmap (f : label → label) c c' cols :
  (∀ d, d ∈ cols → f d = c' ↔ d = c) →
  positions c' (f <$> cols) = positions c cols.
Proof.
  induction cols as [|d cols IH]; intros H; csimpl; [done|].
  rewrite IH by (intros; apply H; by right).
  f_equal. specialize (H d (list_elem_of_here _ _)).
  destruct (String.eqb_spec (f d) c'), (String.eqb_spec d c);
    [done|tauto|tauto|done].
Qed.

Lemma col_pos_Ok c cols p :
  col_pos c cols = Ok p ↔ positions c cols = [p].
Proof.
  unfold col_pos. destruct (positions c cols) as [|q [|??]]; naive_solver.
Qed.

Lemma col_pos_lookup c cols p : col_pos c cols = Ok p → cols !! p = Some c.
Proof.
  intros H%col_pos_Ok. apply elem_of_positions. rewrite H. left.
Qed.

Lemma col_pos_lt c cols p : col_pos c cols = Ok p → (p < length cols)%nat.
Proof. intros H%col_pos_lookup. by eapply lookup_lt_Some. Qed.

Lemma col_pos_fmap (f : label → label) c c' cols :
  (∀ d, d ∈ cols → f d = c' ↔ d = c) →
  col_pos c' (f <$> cols) =
  match col_pos c cols with Raise (KeyError _) => Raise (KeyError c') | r => r end.
Proof.
  intros H. unfold col_pos. rewrite (positions_fmap f c c') by done.
  by destruct (positions c cols) as [|? [|??]].
Qed.

(** ** Reading and writing cells *)

Lemma wf_row_cells df r : wf df → r ∈ rows df →
  length (cells r) = length (columns df).
Proof.
  unfold wf. rewrite Forall_forall. intros H Hr. by destruct (H r Hr).
Qed.

Lemma getitem_length df c s : getitem df c = Ok s → length s = length (rows df).
Proof.
  unfold getitem. intros H. inv_bind H. injection H as <-.
  by rewrite length_fmap.
Qed.

Lemma cell_set_cell_new r v n :
  length (cells r) = n → cell n (set_cell [] r v) = v.
Proof.
  intros <-. unfold cell, set_cell. simpl.
  rewrite app_nth2 by lia. by rewrite Nat.sub_diag.
Qed.

Lemma cell_set_cell_old ps r v p :
  (p < length (cells r))%nat → (∀ q, q ∈ ps → q ≠ p) →
  cell p (set_cell ps r v) = cell p r.
Proof.
  intros Hp Hps. unfold cell, set_cell.
  destruct ps as [|q ps]; simpl.
  - by rewrite app_nth1.
  - assert (q ≠ p) as Hq by (apply Hps; left).
    by rewrite !nth_lookup, list_lookup_insert_ne.
Qed.

Lemma cell_set_cell_at r v p ps :
  (p < length (cells r))%nat → cell p (set_cell (p :: ps) r v) = v.
Proof.
  intros Hp. unfold cell, set_cell. simpl.
  by rewrite nth_lookup, list_lookup_insert_eq.
Qed.

Lemma setitem_Ok df c s df' :
  setitem df c s = Ok df' →
  length s = length (rows df) ∧
  (match positions c (columns df) with _ :: _ :: _ => False | _ => True end) ∧
  df' = mkDF (index_names df)
          (match positions c (columns df) with
           | [] => columns df ++ [c] | _ => columns df end)
          (zip_with (set_cell (positions c (columns df))) (rows df) s).
Proof.
  unfold setitem. case_bool_decide as Hlen; simpl; [|done].
  destruct (positions c (columns df)) as [|p [|q ps]]; naive_solver.
Qed.

Lemma setitem_rows_ix df c s df' :
  setitem df c s = Ok df' →
  index_names df' = index_names df ∧ ix <$> rows df' = ix <$> rows df.
Proof.
  intros (Hlen & _ & ->)%setitem_Ok. simpl. split; [done|].
  apply list_eq. intros i. rewrite !list_lookup_fmap, lookup_zip_with.
  destruct (rows df !! i) as [r|] eqn:Hr; simpl; [|done].
  destruct (s !! i) as [v|] eqn:Hv; simpl.
  - by destruct (positions c (columns df)).
  - apply lookup_ge_None in Hv. apply lookup_lt_Some in Hr. lia.
Qed.

(** After [df[c] = s], [df[c]] is [s]. *)
Lemma getitem_setitem df c s df' :
  wf df → setitem df c s = Ok df' → getitem df' c = Ok s.
Proof.
  intros Hwf (Hlen & Hps & ->)%setitem_Ok. unfold getitem. simpl.
  destruct (positions c (columns df)) as [|p [|q ps]] eqn:Hpos; [| |done].
  - assert (col_pos c (columns df ++ [c]) = Ok (length (columns df))) as ->.
    { apply col_pos_Ok. rewrite positions_app, Hpos. simpl.
      rewrite String.eqb_refl. simpl. by rewrite Nat.add_0_r. }
    simpl. f_equal. apply list_eq. intros i.
    rewrite list_lookup_fmap, lookup_zip_with.
    destruct (rows df !! i) as [r|] eqn:Hr; simpl.
    + destruct (s !! i) as [v|] eqn:Hv; simpl.
      * f_equal. apply cell_set_cell_new. eapply wf_row_cells; [done|].
        by eapply list_elem_of_lookup_2.
      * apply lookup_ge_None in Hv. apply lookup_lt_Some in Hr. lia.
    + apply lookup_ge_None in Hr. symmetry. apply lookup_ge_None. lia.
  - assert (col_pos c (columns df) = Ok p) as Hp by by apply col_pos_Ok.
    rewrite Hp. simpl. f_equal. apply list_eq. intros i.
    rewrite list_lookup_fmap, lookup_zip_with.
    destruct (rows df !! i) as [r|] eqn:Hr; simpl.
    + destruct (s !! i) as [v|] eqn:Hv; simpl.
      * f_equal. apply (cell_set_cell_at _ _ _ []).
        erewrite wf_row_cells; [|done|by eapply list_elem_of_lookup_2].
        by eapply col_pos_lt.
      * apply lookup_ge_None in Hv. apply lookup_lt_Some in Hr. lia.
    + apply lookup_ge_None in Hr. symmetry. apply lookup_ge_None. lia.
Qed.

(** [df[c] = s] leaves the other columns as they are. *)
Lemma getitem_setitem_ne df c s df' c' :
  wf df → setitem df c s = Ok df' → c' ≠ c →
  getitem df' c' = getitem df c'.
Proof.
  intros Hwf (Hlen & Hps & ->)%setitem_Ok Hne. unfold getitem. simpl.
  assert (col_pos c'
            (match positions c (columns df) with
             | [] => columns df ++ [c] | _ => columns df end)
          = col_pos c' (columns df)) as ->.
  { destruct (positions c (columns df)); [|done].
    unfold col_pos. rewrite positions_app. simpl.
    destruct (String.eqb_spec c c'); [done|]. simpl. by rewrite app_nil_r. }
  destruct (col_pos c' (columns df)) as [p'|e] eqn:Hp'; simpl; [|done].
  f_equal. apply list_eq. intros i.
  rewrite !list_lookup_fmap, lookup_zip_with.
  destruct (rows df !! i) as [r|] eqn:Hr; simpl; [|done].
  destruct (s !! i) as [v|] eqn:Hv; simpl.
  - f_equal. apply cell_set_cell_old.
    + erewrite wf_row_cells; [|done|by eapply list_elem_of_lookup_2].
      by eapply col_pos_lt.
    + intros q Hq%elem_of_positions -> .
      apply col_pos_lookup in Hp'. congruence.
  - apply lookup_ge_None in Hv. apply lookup_lt_Some in Hr. lia.
Qed.

Lemma wf_setitem df c s df' :
  wf df → setitem df c s = Ok df' → wf df'.
Proof.
  intros Hwf (Hlen & Hps & ->)%setitem_Ok.
  unfold wf in *. rewrite Forall_forall in *. simpl.
  intros r' (r & v & -> & Hr & Hv)%elem_of_zip_with.
  destruct (Hwf r Hr) as [H1 H2]. unfold wf_row. simpl.
  destruct (positions c (columns df)) as [|p ps]; simpl.
  - rewrite !length_app. simpl. split; [lia|done].
  - by rewrite length_insert.
Qed.

Lemma getitem_Ok df c s :
  getitem df c = Ok s →
  ∃ p, col_pos c (columns df) = Ok p ∧ s = cell p <$> rows df.
Proof. unfold getitem. intros H. inv_bind H. injection H as <-. eauto. Qed.

(** ** Boolean masks *)

Lemma keep_cons {A} (b : bool) m (x : A) l :
  keep (b :: m) (x :: l) = if b then x :: keep m l else keep m l.
Proof.
  unfold keep. simpl. rewrite filter_cons. simpl.
  destruct b; case_decide; done.
Qed.

Lemma keep_nil_r {A} m : keep m (@nil A) = [].
Proof. by destruct m. Qed.

Section keep.
Context {A B : Type}.

Lemma keep_fmap (f : A → B) m l : keep m (f <$> l) = f <$> keep m l.
Proof.
  revert l. induction m as [|b m IH]; intros [|x l]; csimpl; try done.
  rewrite !keep_cons, IH. by destruct b.
Qed.

Lemma keep_all (l : list A) m :
  length m = length l → Forall (λ b, b = true) m → keep m l = l.
Proof.
  revert l. induction m as [|b m IH]; intros [|x l] Hlen Hall;
    try done.
  apply Forall_cons in Hall as [-> Hall]. rewrite keep_cons.
  f_equal. apply IH; [by injection Hlen|done].
Qed.

Lemma keep_filter (g : A → bool) (l : list A) :
  keep (g <$> l) l = filter (λ x, g x = true) l.
Proof.
  induction l as [|y l IH]; csimpl; [done|].
  rewrite keep_cons, filter_cons, IH.
  destruct (g y); case_decide; done.
Qed.

Lemma traverse_keep (f : A → result B) m l bs :
  traverse f l = Ok bs → traverse f (keep m l) = Ok (keep m bs).
Proof.
  rewrite !traverse_Ok. intros H. revert m.
  induction H as [|a b l bs Hab H IH]; intros [|c m]; try constructor.
  rewrite !keep_cons. destruct c; [constructor|]; auto.
Qed.
End keep.

Lemma keep_zip_with {A B C} (f : A → B → C) m l k :
  keep m (zip_with f l k) = zip_with f (keep m l) (keep m k).
Proof.
  revert l k. induction m as [|b m IH]; intros [|x l] [|y k]; try done.
  - simpl. rewrite !keep_cons, !keep_nil_r.
    by destruct b, (keep m l).
  - simpl. rewrite !keep_cons, IH. by destruct b.
Qed.

(** ** The dtypes of two key columns *)

Global Instance KStr_inj : Inj (=) (=) KStr.
Proof. by intros ?? [= ->]. Qed.

Global Instance VStr_inj : Inj (=) (=) VStr.
Proof. by intros ?? [= ->]. Qed.

Lemma strings_fmap s : strings s ↔ ∃ l, s = VStr <$> l.
Proof.
  unfold strings. split.
  - induction 1 as [|v s Hv _ [l ->]]; [by exists []|].
    destruct v as [|t| |]; try done. by exists (t :: l).
  - intros [l ->]. by apply Forall_fmap, Forall_true.
Qed.

Lemma integers_fmap s : integers s ↔ ∃ l, s = VInt <$> l.
Proof.
  unfold integers. split.
  - induction 1 as [|v s Hv _ [l ->]]; [by exists []|].
    destruct v as [n| | |]; try done. by exists (n :: l).
  - intros [l ->]. by apply Forall_fmap, Forall_true.
Qed.

Lemma traverse_as_key_strings (acs : list string) :
  traverse as_key (VStr <$> acs) = Ok (KStr <$> acs).
Proof. rewrite traverse_fmap. by apply traverse_pure. Qed.

Lemma traverse_as_key_integers (ns : list Z) :
  traverse as_key (VInt <$> ns) = Ok (KInt <$> ns).
Proof. rewrite traverse_fmap. by apply traverse_pure. Qed.

Lemma dtype_of_strings (l : list string) :
  l ≠ [] → dtype_of (KStr <$> l) = Ok Object.
Proof.
  destruct l as [|t l]; [done|]. intros _. unfold dtype_of. csimpl.
  assert (forallb (λ k, negb (is_KInt k)) (KStr <$> l) = true) as ->; [|done].
  induction l as [|u l IH]; [done|]. exact IH.
Qed.

Lemma dtype_of_integers (l : list Z) : dtype_of (KInt <$> l) = Ok Int64.
Proof.
  unfold dtype_of.
  assert (forallb is_KInt (KInt <$> l) = true) as ->; [|done].
  induction l as [|u l IH]; [done|]. exact IH.
Qed.

(** Two columns of strings are joined. *)
Lemma check_dtypes_strings (ls rs : list string) :
  check_dtypes (KStr <$> ls) (KStr <$> rs) = Ok ().
Proof.
  destruct ls as [|l ls]; [done|]. destruct rs as [|r rs]; [done|].
  unfold check_dtypes.
  change (KStr <$> l :: ls) with (KStr l :: (KStr <$> ls)).
  change (KStr <$> r :: rs) with (KStr r :: (KStr <$> rs)).
  cbv iota beta.
  change (KStr l :: (KStr <$> ls)) with (KStr <$> l :: ls).
  change (KStr r :: (KStr <$> rs)) with (KStr <$> r :: rs).
  by rewrite !dtype_of_strings.
Qed.

(** Two columns of integers are joined. *)
Lemma check_dtypes_integers (ls rs : list Z) :
  check_dtypes (KInt <$> ls) (KInt <$> rs) = Ok ().
Proof.
  destruct ls as [|l ls]; [done|]. destruct rs as [|r rs]; [done|].
  unfold check_dtypes.
  change (KInt <$> l :: ls) with (KInt l :: (KInt <$> ls)).
  change (KInt <$> r :: rs) with (KInt r :: (KInt <$> rs)).
  cbv iota beta.
  change (KInt l :: (KInt <$> ls)) with (KInt <$> l :: ls).
  change (KInt r :: (KInt <$> rs)) with (KInt <$> r :: rs).
  by rewrite !dtype_of_integers.
Qed.

Lemma check_dtypes_joinable (l r : Series) lk rk :
  joinable l r → traverse as_key l = Ok lk → traverse as_key r = Ok rk →
  check_dtypes lk rk = Ok ().
Proof.
  intros [[[ls ->]%strings_fmap [rs ->]%strings_fmap]|
          [[ls ->]%integers_fmap [rs ->]%integers_fmap]].
  - rewrite !traverse_as_key_strings. intros [= <-] [= <-].
    apply check_dtypes_strings.
  - rewrite !traverse_as_key_integers. intros [= <-] [= <-].
    apply check_dtypes_integers.
Qed.

(** A column of strings and a column of integers are not. *)
Lemma check_dtypes_mismatch (ls : list string) (rs : list Z) :
  ls ≠ [] → rs ≠ [] →
  check_dtypes (KStr <$> ls) (KInt <$> rs) = Raise ValueError ∧
  check_dtypes (KInt <$> rs) (KStr <$> ls) = Raise ValueError.
Proof.
  intros Hl Hr. unfold check_dtypes.
  rewrite dtype_of_strings, dtype_of_integers by done.
  destruct ls as [|l ls]; [done|]. destruct rs as [|r rs]; [done|]. done.
Qed.

Lemma forallb_Permutation {A} (f : A → bool) l l' :
  l ≡ₚ l' → forallb f l = forallb f l'.
Proof.
  induction 1 as [|x l l' _ IH|x y l|l1 l2 l3 _ IH1 _ IH2]; simpl;
    [done|by rewrite IH|by destruct (f x), (f y)|congruence].
Qed.

Lemma existsb_Permutation {A} (f : A → bool) l l' :
  l ≡ₚ l' → existsb f l = existsb f l'.
Proof.
  induction 1 as [|x l l' _ IH|x y l|l1 l2 l3 _ IH1 _ IH2]; simpl;
    [done|by rewrite IH|by destruct (f x), (f y)|congruence].
Qed.

(** The dtypes do not depend on the order of the rows. *)
Lemma check_dtypes_Permutation lk lk' rk rk' :
  lk ≡ₚ lk' → rk ≡ₚ rk' → check_dtypes lk rk = check_dtypes lk' rk'.
Proof.
  intros Hl Hr.
  assert (dtype_of lk = dtype_of lk') as Hdl.
  { unfold dtype_of. by rewrite (forallb_Permutation _ _ _ Hl),
      (forallb_Permutation (λ k, negb _) _ _ Hl), (existsb_Permutation _ _ _ Hl). }
  assert (dtype_of rk = dtype_of rk') as Hdr.
  { unfold dtype_of. by rewrite (forallb_Permutation _ _ _ Hr),
      (forallb_Permutation (λ k, negb _) _ _ Hr), (existsb_Permutation _ _ _ Hr). }
  unfold check_dtypes. rewrite Hdl, Hdr.
  destruct lk as [|k lk], lk' as [|k' lk'];
    try (by apply Permutation_nil_cons in Hl);
    try (by symmetry in Hl; apply Permutation_nil_cons in Hl); [done|].
  destruct rk as [|j rk], rk' as [|j' rk'];
    try (by apply Permutation_nil_cons in Hr);
    try (by symmetry in Hr; apply Permutation_nil_cons in Hr); done.
Qed.

(** ** Statements on the store *)

Lemma Py_bind_unfold {A B} (f : A → Py B) (m : Py A) h :
  (m ≫= f) h =
  match m h with (Ok a, h') => f a h' | (Raise e, h') => (Raise e, h') end.
Proof. done. Qed.

Ltac py_bind :=
  match goal with
  | |- context [ @mbind Py _ _ _ ?f ?m ?h ] => rewrite (Py_bind_unfold f m h)
  end.

Lemma setitem_at_run r c s h df :
  h !! r = Some df →
  setitem_at r c s h =
  match setitem df c s with
  | Ok df' => (Ok (), <[r := df']> h)
  | Raise e => (Raise e, h)
  end.
Proof.
  intros Hr. unfold setitem_at. py_bind.
  unfold deref. rewrite Hr. py_bind. unfold lift.
  by destruct (setitem df c s).
Qed.

(** ** The run of [merge_referendum_and_areas] *)

Lemma normalize_series s :
  (t ← series_astype_str s; str_zfill 2 t) =
  fmap (M:=result) (fmap (M:=list) VStr) (traverse normalize s).
Proof.
  unfold series_astype_str, str_zfill, normalize.
  induction s as [|v s IH]; simpl; [done|].
  destruct (astype_str v) as [t|e]; simpl; [|done].
  destruct (traverse (λ v0, VStr <$> astype_str v0) s) as [ts|e];
    destruct (traverse (λ v0, zfill 2 <$> astype_str v0) s) as [cs|e'];
    simpl in *; try done.
  - by rewrite IH.
  - by rewrite IH.
Qed.

Lemma str_contains_strings pat (cs : list string) :
  str_contains pat (VStr <$> cs) = Ok (contains pat <$> cs).
Proof.
  unfold str_contains. rewrite traverse_fmap. by apply traverse_pure.
Qed.

(** What a call of [merge_referendum_and_areas] does: the column [code_dep]
    is set on the caller's table, and the rows without a Z are joined with
    the areas. *)
Lemma merge_referendum_and_areas_run r a h df :
  h !! r = Some df → wf df →
  merge_referendum_and_areas r a h =
  match dept_codes df with
  | Raise e => (Raise e, h)
  | Ok codes =>
      match setitem df "code_dep" (VStr <$> codes) with
      | Raise e => (Raise e, h)
      | Ok df1 =>
          (match <[r := df1]> h !! a with
           | Some areas =>
               merge (boolean_filter df1 (mainland <$> codes)) areas
                 "code_dep" Inner
           | None => Raise Unsupported
           end, <[r := df1]> h)
      end
  end.
Proof.
  intros Hr Hwf. unfold merge_referendum_and_areas.
  py_bind. unfold deref at 1. rewrite Hr.
  py_bind. unfold lift at 1. unfold dept_codes.
  destruct (getitem df "Department code") as [s|e] eqn:Hs; simpl; [|done].
  pose proof (normalize_series s) as Hn.
  destruct (series_astype_str s) as [t|e] eqn:Ht; simpl in *.
  - py_bind. unfold lift at 1.
    destruct (str_zfill 2 t) as [c|e] eqn:Hc;
      destruct (traverse normalize s) as [codes|e'] eqn:Hcodes;
      simpl in *; simplify_eq; [|done].
    py_bind. rewrite (setitem_at_run _ _ _ _ df) by done.
    destruct (setitem df "code_dep" (VStr <$> codes)) as [df1|e] eqn:Hset;
      [|done].
    py_bind. unfold deref at 1. rewrite lookup_insert_eq.
    py_bind. unfold lift at 1.
    rewrite (getitem_setitem df _ _ df1) by done. simpl.
    rewrite str_contains_strings.
    py_bind. unfold deref.
    rewrite <- list_fmap_compose.
    destruct (<[r:=df1]> h !! a) as [areas|]; [|done].
    py_bind. unfold lift.
    by destruct (merge _ areas "code_dep" Inner).
  - destruct (traverse normalize s) as [codes|e'] eqn:Hcodes;
      simpl in *; by simplify_eq.
Qed.

(** ** The run of [plot_referendum_map] *)

Lemma is_Ok_exists {A} (m : result A) : is_Ok m → ∃ a, m = Ok a.
Proof. destruct m; [eauto|done]. Qed.

Section PlotFacts.
Variable rnd : Q → Q.
Variable read_file : string → result DataFrame.

Lemma series_op_Ok f a b s :
  series_op f a b = Ok s → length a = length b →
  ∀ i v w, a !! i = Some v → b !! i = Some w →
  ∃ x, s !! i = Some x ∧ f v w = Ok x.
Proof.
  unfold series_op. intros H Hlen i v w Hv Hw.
  eapply (traverse_lookup _ _ _ i (v, w)) in H as (x & Hx & Hf); [eauto|].
  by apply lookup_zip_with_Some; eexists _, _.
Qed.

Lemma series_op_length f a b s :
  series_op f a b = Ok s → length a = length b → length s = length a.
Proof.
  unfold series_op. intros H%traverse_length Hlen.
  rewrite H, length_zip_with. lia.
Qed.

(** Row by row, the ratio is the float quotient of Choice A by
    Choice A + Choice B. *)
Lemma ratios_lookup df ratio sa sb i va vb :
  ratios rnd df = Ok ratio →
  getitem df "Choice A" = Ok sa → getitem df "Choice B" = Ok sb →
  sa !! i = Some va → sb !! i = Some vb →
  ∃ a b, va = VInt a ∧ vb = VInt b ∧
         ratio !! i = Some (VFloat (truediv rnd a (add64 a b))).
Proof.
  unfold ratios. intros H Ha Hb Hva Hvb. rewrite Ha, Hb in H. simpl in H.
  inv_bind H.
  assert (length sa = length sb) as Hlen.
  { apply getitem_length in Ha, Hb. congruence. }
  destruct (series_op_Ok _ _ _ _ Hx Hlen i va vb Hva Hvb) as (s & Hs & Hadd).
  assert (length sa = length x) as Hlen'.
  { symmetry. by eapply series_op_length. }
  destruct (series_op_Ok _ _ _ _ H Hlen' i va s Hva Hs) as (q & Hq & Hdiv).
  unfold add_values in Hadd. unfold truediv_values in Hdiv.
  destruct va as [a| | |], vb as [b| | |]; simpl in *; try done.
  injection Hadd as <-. simpl in Hdiv. injection Hdiv as <-.
  eauto.
Qed.

Lemma ratios_length df ratio :
  ratios rnd df = Ok ratio → length ratio = length (rows df).
Proof.
  unfold ratios. intros H. inv_bind H.
  pose proof (getitem_length _ _ _ Hx) as H1.
  pose proof (getitem_length _ _ _ Hx0) as H2.
  apply series_op_length in H.
  - congruence.
  - apply series_op_length in Hx1; congruence.
Qed.

Lemma plot_referendum_map_run r h df :
  h !! r = Some df →
  plot_referendum_map rnd read_file r h =
  match read_file "data/regions.geojson" with
  | Raise e => (Raise e, h)
  | Ok regions_geo =>
      match ratios rnd df with
      | Raise e => (Raise e, h)
      | Ok ratio =>
          match setitem df "ratio" ratio with
          | Raise e => (Raise e, h)
          | Ok df1 =>
              (code ← (c ← getitem regions_geo "code"; series_astype_str c);
               regions_geo ← setitem regions_geo "code" code;
               merge_right_index regions_geo df1 "code",
               <[r := df1]> h)
          end
      end
  end.
Proof.
  intros Hr. unfold plot_referendum_map.
  py_bind. unfold lift at 1.
  destruct (read_file "data/regions.geojson") as [geo|e]; [|done].
  py_bind. unfold deref at 1. rewrite Hr.
  py_bind. unfold lift at 1. unfold ratios.
  destruct (getitem df "Choice A") as [a|e]; simpl; [|done].
  py_bind. unfold lift at 1.
  destruct (getitem df "Choice B") as [b|e]; simpl; [|done].
  py_bind. unfold lift at 1.
  destruct (series_op add_values a b) as [s|e]; simpl; [|done].
  destruct (series_op (truediv_values rnd) a s) as [ratio|e]; simpl; [|done].
  py_bind. rewrite (setitem_at_run _ _ _ _ df) by done.
  destruct (setitem df "ratio" ratio) as [df1|e]; [|done].
  py_bind. unfold lift at 1.
  destruct (getitem geo "code" ≫= _) as [code|e]; simpl; [|done].
  py_bind. unfold lift at 1.
  destruct (setitem geo "code" code) as [geo'|e]; simpl; [|done].
  py_bind. unfold deref. rewrite lookup_insert_eq.
  py_bind. unfold lift.
  by destruct (merge_right_index geo' df1 "code").
Qed.

End PlotFacts.

(** ** The pipeline on the example tables *)

(** The pipeline on the example tables. *)
Example ex_areas_run :
  merge_regions_and_departments ex_regions ex_departments = Ok ex_areas.
Proof. reflexivity. Qed.

Example ex_joined_run :
  (merge_referendum_and_areas 0%nat 1%nat ex_store).1 = Ok ex_joined.
Proof. vm_compute. reflexivity. Qed.

Example ex_results_run :
  compute_referendum_result_by_regions ex_joined = Ok ex_results.
Proof. vm_compute. reflexivity. Qed.

Example ex_ratio_run :
  ratios (λ q, q) ex_results =
  Ok [VFloat NaN; VFloat (Finite (70 # 130))].
Proof. vm_compute. reflexivity. Qed.

(** Codes that are strings in one table and integers in the other are not
    joined: the join raises [ValueError]. *)
Example ex_areas_numbers_run :
  (merge_referendum_and_areas 0%nat 1%nat
     (<[1%nat := ex_areas_numbers]> ex_store)).1 = Raise ValueError.
Proof. vm_compute. reflexivity. Qed.

Example ex_results_numbers_run :
  (plot_referendum_map (λ q, q) ex_files 0%nat
     (<[0%nat := ex_results_numbers]> ∅)).1 = Raise ValueError.
Proof. vm_compute. reflexivity. Qed.

(** Codes that are integers in the two reference tables are joined. *)
Example ex_numbers_run :
  merge_regions_and_departments ex_regions_numbers ex_departments_numbers =
  Ok ex_areas_numbers.
Proof. reflexivity. Qed.

(** ** The normalized department code *)

Lemma len_append s1 s2 :
  len (String.append s1 s2) = (len s1 + len s2)%nat.
Proof. induction s1 as [|c s1 IH]; simpl; [done|]. rewrite IH. lia. Qed.

Lemma len_zeros n : len (zeros n) = n.
Proof. unfold zeros. induction n as [|n IH]; simpl; [done|]. by rewrite IH. Qed.

(** [zfill] pads and never shortens. *)
Lemma len_zfill width s : len (zfill width s) = max width (len s).
Proof.
  unfold zfill. case_bool_decide as Hw; [lia|].
  destruct s as [|c rest].
  - rewrite len_zeros. simpl. lia.
  - case_bool_decide as Hsign.
    + assert (continues c = false) as Hc by (by destruct Hsign as [->| ->]).
      cbn [len] in *. rewrite Hc in *.
      rewrite len_append, len_zeros. lia.
    + rewrite len_append, len_zeros. lia.
Qed.

(** A text of [width] characters or more is kept as it is. *)
Lemma zfill_long w s : (w ≤ len s)%nat → zfill w s = s.
Proof. intros H. unfold zfill. by rewrite bool_decide_true. Qed.

Lemma int_of_str_of_int n : int_of_str (str_of_int n) = Some n.
Proof.
  unfold int_of_str, str_of_int.
  rewrite NilZero.isi.
  - simpl. f_equal. apply DecimalZ.of_to.
  - destruct n as [|p|p]; simpl; [done| |done].
    intros [= H]. by apply DecimalPos.Unsigned.to_uint_nonnil in H.
  - destruct n as [|p|p]; simpl; [done|done|].
    intros [= H]. by apply DecimalPos.Unsigned.to_uint_nonnil in H.
Qed.

Lemma zeros_S n : zeros (S n) = String "0" (zeros n).
Proof. done. Qed.

Lemma uint_of_string_zeros k s :
  NilEmpty.uint_of_string (String.append (zeros k) s) =
  Nat.iter k Decimal.D0 <$> NilEmpty.uint_of_string s.
Proof.
  induction k as [|k IH].
  - change (String.append (zeros 0) s) with s.
    destruct (NilEmpty.uint_of_string s); reflexivity.
  - change (String.append (zeros (S k)) s)
      with (String "0" (String.append (zeros k) s)).
    cbn [NilEmpty.uint_of_string]. rewrite IH.
    destruct (NilEmpty.uint_of_string s); reflexivity.
Qed.

Lemma of_uint_zeros k d :
  Z.of_uint (Nat.iter k Decimal.D0 d) = Z.of_uint d.
Proof. induction k as [|k IH]; [done|]. simpl. exact IH. Qed.

Lemma zeros_append_nonempty k s :
  (0 < k)%nat → ∃ t, String.append (zeros k) s = String "0" t.
Proof.
  destruct k as [|k]; [lia|]. intros _.
  by exists (String.append (zeros k) s).
Qed.

(** [str.zfill] keeps the number of a numeral, whatever the width. *)
Lemma int_of_str_zfill_any w s n :
  int_of_str s = Some n → int_of_str (zfill w s) = Some n.
Proof.
  unfold zfill. case_bool_decide as Hw; [done|].
  set (k := (w - len s)%nat).
  assert (0 < k)%nat as Hk by (unfold k; lia).
  clearbody k. clear Hw.
  destruct s as [|c rest]; [done|].
  unfold int_of_str, NilZero.int_of_string.
  case_bool_decide as Hsign.
  - destruct Hsign as [->| ->].
    + change (Ascii.eqb "+" "-") with false. cbv iota.
      unfold NilZero.uint_of_string. cbn.
      by destruct (NilEmpty.uint_of_string rest).
    + change (Ascii.eqb "-" "-") with true. cbv iota.
      unfold NilZero.uint_of_string.
      destruct rest as [|c' rest']; [done|].
      destruct (zeros_append_nonempty k (String c' rest') Hk) as [t Ht].
      rewrite Ht, <- Ht, uint_of_string_zeros.
      destruct (NilEmpty.uint_of_string (String c' rest')) as [d|]; [|done].
      cbn. intros [= <-]. f_equal. f_equal. apply of_uint_zeros.
  - destruct (Ascii.eqb c "-") eqn:Hc.
    { apply Ascii.eqb_eq in Hc. tauto. }
    destruct (zeros_append_nonempty k (String c rest) Hk) as [t Ht].
    rewrite Ht. change (Ascii.eqb "0" "-") with false. cbv iota.
    unfold NilZero.uint_of_string. rewrite <- Ht, uint_of_string_zeros.
    destruct (NilEmpty.uint_of_string (String c rest)) as [d|]; [|done].
    cbn. intros [= <-]. f_equal. apply of_uint_zeros.
Qed.

(** The number that a code denotes is the number of its text. *)
Lemma numeric_astype_str v t n :
  astype_str v = Ok t → numeric v = Some n → int_of_str t = Some n.
Proof.
  destruct v as [m|s|[]|]; simpl; intros; simplify_eq; try done.
  apply int_of_str_of_int.
Qed.

Example normalize_5 : normalize (VInt 5) = Ok "05".
Proof. reflexivity. Qed.

Example normalize_12 : normalize (VStr "12") = Ok "12".
Proof. reflexivity. Qed.

Example normalize_minus_5 : normalize (VInt (-5)) = Ok "-5".
Proof. reflexivity. Qed.

Example normalize_2A : normalize (VStr "2A") = Ok "2A".
Proof. reflexivity. Qed.

(** The filter is on the capital letter only. *)
Example contains_Z : contains "Z" "ZA" = true ∧ contains "Z" "2z" = false.
Proof. split; reflexivity. Qed.

Lemma dept_codes_lookup df s codes i v :
  getitem df "Department code" = Ok s → dept_codes df = Ok codes →
  s !! i = Some v → ∃ c, codes !! i = Some c ∧ normalize v = Ok c.
Proof.
  unfold dept_codes. intros -> H Hv. simpl in H. by eapply traverse_lookup.
Qed.

Lemma setitem_total df c s :
  length s = length (rows df) → (length (positions c (columns df)) ≤ 1)%nat →
  ∃ df', setitem df c s = Ok df'.
Proof.
  intros Hlen Hpos. unfold setitem. rewrite bool_decide_true by done. simpl.
  destruct (positions c (columns df)) as [|p [|q ps]]; simpl in *;
    [eauto|eauto|lia].
Qed.

Lemma dept_codes_length df codes :
  dept_codes df = Ok codes → length codes = length (rows df).
Proof.
  unfold dept_codes. intros H. inv_bind H.
  apply traverse_length in H. apply getitem_length in Hx. congruence.
Qed.

(** C4, as the code has it.  When the column [Department code] holds
    integers and strings, none of them absent, and [code_dep] labels at
    most one column, the call sets [code_dep] on the caller's table.  A
    code whose text has at most two characters (an integer from -9 to 99,
    a string of at most two characters) gets a [code_dep] of exactly two
    characters, with the same numeric value when the code is a numeral; a
    code whose text has three characters or more, such as the integer 971,
    keeps its text. *)
Theorem normalized_code_has_width_2 (r a : ref) (h : gmap nat DataFrame)
    (df : DataFrame) (s : Series) (codes : list string) :
  h !! r = Some df → wf df →
  getitem df "Department code" = Ok s → dept_codes df = Ok codes →
  nan ∉ s →
  (length (positions "code_dep" (columns df)) ≤ 1)%nat →
  ∃ df', (merge_referendum_and_areas r a h).2 !! r = Some df' ∧
    getitem df' "code_dep" = Ok (VStr <$> codes) ∧
    ∀ i v t, s !! i = Some v → astype_str v = Ok t →
      ∃ c, codes !! i = Some c ∧
        ((len t ≤ 2)%nat →
           len c = 2%nat ∧
           ∀ n, numeric v = Some n → int_of_str c = Some n) ∧
        ((3 ≤ len t)%nat → c = t).
Proof.
  intros Hr Hwf Hs Hcodes _ Hpos.
  rewrite (merge_referendum_and_areas_run r a h df) by done.
  rewrite Hcodes.
  destruct (setitem_total df "code_dep" (VStr <$> codes)) as [df1 Hset];
    [|done|].
  { rewrite length_fmap. by apply dept_codes_length. }
  rewrite Hset. simpl. exists df1. rewrite lookup_insert_eq.
  split; [done|]. split; [by eapply getitem_setitem|].
  intros i v t Hv Ht.
  destruct (dept_codes_lookup df s codes i v) as (c & Hc & Hn); try done.
  exists c. split; [done|].
  unfold normalize in Hn. rewrite Ht in Hn. simpl in Hn. injection Hn as <-.
  split.
  - intros Hlen. split.
    + rewrite len_zfill. lia.
    + intros n Hnum. apply int_of_str_zfill_any.
      by eapply numeric_astype_str.
  - intros Hlen. apply zfill_long. lia.
Qed.

Lemma normalized_code_has_width_2_witness :
  ∃ df', (merge_referendum_and_areas 0%nat 1%nat ex_store).2 !! 0%nat
           = Some df' ∧
    getitem df' "code_dep" =
      Ok (VStr <$> ["01"; "01"; "ZA"; "75"; "971"]) ∧
    ∀ i v t,
      [VInt 1; VStr "1"; VStr "ZA"; VInt 75; VInt 971] !! i = Some v →
      astype_str v = Ok t →
      ∃ c, ["01"; "01"; "ZA"; "75"; "971"] !! i = Some c ∧
        ((len t ≤ 2)%nat →
           len c = 2%nat ∧
           ∀ n, numeric v = Some n → int_of_str c = Some n) ∧
        ((3 ≤ len t)%nat → c = t).
Proof.
  apply (normalized_code_has_width_2 0%nat 1%nat ex_store ex_referendum).
  - reflexivity.
  - vm_compute. repeat constructor.
  - reflexivity.
  - reflexivity.
  - by_compute.
  - vm_compute. lia.
Defined.

(** C4 as stated fails on integers whose text has three characters: [971]
    is given the code ["971"], and [-12] the code ["-12"], of length 3. *)
Lemma normalized_code_longer_than_2 :
  (s ← getitem ex_referendum "Department code"; Ok (s !! 4%nat))
    = Ok (Some (VInt 971)) ∧
  (df ← match (merge_referendum_and_areas 0%nat 1%nat ex_store).2 !! 0%nat
        with Some df => Ok df | None => Raise Unsupported end;
   s ← getitem df "code_dep"; Ok (s !! 4%nat)) = Ok (Some (VStr "971")) ∧
  normalize (VInt 971) = Ok "971" ∧
  normalize (VInt (-12)) = Ok "-12" ∧
  len "971" ≠ 2%nat ∧ len "-12" ≠ 2%nat.
Proof.
  split_and!; [reflexivity|by vm_compute|reflexivity|reflexivity|
               by simpl|by simpl].
Qed.

(** ** Sums of int64 values *)

Lemma wrap64_small z : - 2 ^ 63 ≤ z < 2 ^ 63 → wrap64 z = z.
Proof.
  intros Hz. unfold wrap64. rewrite Z.mod_small; lia.
Qed.

Lemma wrap64_add_r x y : wrap64 (x + wrap64 y) = wrap64 (x + y).
Proof.
  unfold wrap64.
  replace (x + ((y + 2 ^ 63) mod 2 ^ 64 - 2 ^ 63) + 2 ^ 63)
    with (x + (y + 2 ^ 63) mod 2 ^ 64) by lia.
  rewrite Zplus_mod_idemp_r. f_equal. f_equal. lia.
Qed.

(** Without overflow the sum is the sum of the integers. *)
Lemma add64_small a b : - 2 ^ 63 ≤ a + b < 2 ^ 63 → add64 a b = a + b.
Proof. apply wrap64_small. Qed.

(** A positive int64 sum of two counts has not overflowed. *)
Lemma add64_positive a b :
  0 ≤ a < 2 ^ 63 → 0 ≤ b < 2 ^ 63 → 0 < add64 a b → add64 a b = a + b.
Proof.
  intros Ha Hb. unfold add64, wrap64.
  destruct (Z_lt_le_dec (a + b) (2 ^ 63)) as [Hlt|Hge].
  - rewrite Z.mod_small; lia.
  - replace (a + b + 2 ^ 63) with (a + b - 2 ^ 63 + 1 * 2 ^ 64) by lia.
    rewrite Z_mod_plus_full, Z.mod_small; lia.
Qed.

Lemma add64_swap x y t : add64 x (add64 y t) = add64 y (add64 x t).
Proof.
  unfold add64. rewrite !wrap64_add_r. f_equal. lia.
Qed.

(** The sum of a column is the wrapped sum of its integers. *)
Lemma total_wrap ns : total ns = wrap64 (foldr Z.add 0 ns).
Proof.
  unfold total. induction ns as [|n ns IH]; simpl; [done|].
  rewrite IH. unfold add64. apply wrap64_add_r.
Qed.

(** ** The ratio *)

Lemma int_column_lookup df c s i v :
  int_column df c → getitem df c = Ok s → s !! i = Some v → ∃ n, v = VInt n.
Proof.
  unfold int_column. intros H Hs Hv. rewrite Hs in H. simpl in H.
  apply is_Ok_exists in H as [ns H].
  destruct (traverse_lookup _ _ _ _ _ H Hv) as (n & _ & Hn).
  exists n. destruct v; simpl in Hn; by simplify_eq.
Qed.

Section Ratio.
Variable rnd : Q → Q.
Variable read_file : string → result DataFrame.

Lemma ratios_total df :
  int_column df "Choice A" → int_column df "Choice B" →
  ∃ ratio, ratios rnd df = Ok ratio.
Proof.
  intros HA HB. unfold ratios.
  pose proof HA as HA'. pose proof HB as HB'.
  unfold int_column in HA', HB'.
  destruct (getitem df "Choice A") as [sa|] eqn:Ha; [|done].
  destruct (getitem df "Choice B") as [sb|] eqn:Hb; [|done].
  simpl.
  assert (length sa = length sb) as Hlen.
  { apply getitem_length in Ha, Hb. congruence. }
  destruct (traverse_total (λ vw, add_values vw.1 vw.2) (zip sa sb))
    as [s Hs].
  { intros [v w] (i & Hi)%list_elem_of_lookup_1.
    apply lookup_zip_with_Some in Hi as (v' & w' & [= <- <-] & Hv & Hw).
    destruct (int_column_lookup df _ sa i v HA Ha Hv) as [a ->].
    destruct (int_column_lookup df _ sb i w HB Hb Hw) as [b ->].
    simpl. eauto. }
  unfold series_op. rewrite Hs. simpl.
  apply traverse_total.
  intros [v w] (i & Hi)%list_elem_of_lookup_1.
  apply lookup_zip_with_Some in Hi as (v' & w' & [= <- <-] & Hv & Hw).
  destruct (int_column_lookup df _ sa i v HA Ha Hv) as [a ->].
  destruct (traverse_lookup_r _ _ _ _ _ Hs Hw) as ([v1 w1] & Hvw & Hadd).
  apply lookup_zip_with_Some in Hvw as (v' & w' & [= <- <-] & Hv' & Hw').
  simpl in Hadd. unfold add_values in Hadd.
  destruct v1, w1; simpl in Hadd; try done. injection Hadd as <-.
  simpl. eauto.
Qed.

Lemma series_astype_str_Ok s ts :
  traverse astype_str s = Ok ts → series_astype_str s = Ok (VStr <$> ts).
Proof.
  unfold series_astype_str. rewrite !traverse_Ok. intros H.
  apply Forall2_fmap_r. eapply Forall2_impl; [done|].
  simpl. by intros v t ->.
Qed.

Lemma series_astype_str_inv s :
  is_Ok (series_astype_str s) → ∃ ts, traverse astype_str s = Ok ts.
Proof.
  unfold series_astype_str. induction s as [|v s IH]; simpl; [eauto|].
  destruct (astype_str v) as [t|]; simpl; [|done].
  destruct (traverse (λ v0, VStr <$> astype_str v0) s); simpl; [|done].
  intros _. destruct IH as [ts ->]; [done|]. simpl. eauto.
Qed.

(** The join of [plot_referendum_map], on a table of results whose index
    holds strings: the ratio is set on the caller's table, the codes of the
    region file become strings, and the regions are joined with the
    results. *)
Lemma plot_referendum_map_join r h df geo gc gcodes rcodes :
  h !! r = Some df → regional_results df →
  read_file "data/regions.geojson" = Ok geo → wf geo →
  getitem geo "code" = Ok gc → traverse astype_str gc = Ok gcodes →
  ix <$> rows df = (λ R, [VStr R]) <$> rcodes →
  ∃ df1 geo1 ratio,
    ratios rnd df = Ok ratio ∧ setitem df "ratio" ratio = Ok df1 ∧
    setitem geo "code" (VStr <$> gcodes) = Ok geo1 ∧
    plot_referendum_map rnd read_file r h =
    (Ok (mkDF (index_names geo)
           (merged_columns (columns geo) (columns df1))
           (mjoin (zip_with
                     (joined Inner (length (columns df1))
                        (zip (KStr <$> rcodes) (cells <$> rows df1)))
                     (KStr <$> gcodes) (rows geo1)))),
     <[r := df1]> h).
Proof.
  intros Hr (Hwf & Hix & Hkeys & HA & HB & Hpos) Hfile Hwfg Hgc Hgcodes Hrc.
  rewrite (plot_referendum_map_run rnd read_file r h df) by done.
  rewrite Hfile.
  destruct (ratios_total df HA HB) as [ratio Hratio]. rewrite Hratio.
  destruct (setitem_total df "ratio" ratio) as [df1 Hset]; [|done|].
  { by apply ratios_length in Hratio. }
  rewrite Hset, Hgc. cbn [mbind result_bind].
  rewrite (series_astype_str_Ok _ _ Hgcodes). cbn [mbind result_bind].
  pose proof Hgc as (pl & Hpl & Hgcells)%getitem_Ok.
  destruct (setitem_total geo "code" (VStr <$> gcodes)) as [geo1 Hset1].
  { rewrite length_fmap. apply traverse_length in Hgcodes.
    apply getitem_length in Hgc. lia. }
  { apply col_pos_Ok in Hpl. rewrite Hpl. simpl. lia. }
  rewrite Hset1. cbn [mbind result_bind].
  exists df1, geo1, ratio.
  split; [done|]. split; [done|]. split; [done|].
  pose proof (getitem_setitem _ _ _ _ Hwfg Hset1) as Hget1.
  apply getitem_Ok in Hget1 as (pl1 & Hpl1 & Hcol1).
  pose proof Hset1 as (_ & _ & Hgeo1)%setitem_Ok.
  assert (columns geo1 = columns geo ∧ index_names geo1 = index_names geo)
    as [Hcols1 Hixn1].
  { rewrite Hgeo1. simpl. apply col_pos_Ok in Hpl. by rewrite Hpl. }
  unfold merge_right_index. rewrite Hpl1. cbn [mbind result_bind].
  pose proof Hset as [Hixn Hixs]%setitem_rows_ix.
  rewrite Hixn. destruct (index_names df) as [|n [|n2 ns]]; try done.
  cbn [mbind result_bind].
  assert (traverse (λ r0, as_key (cell pl1 r0)) (rows geo1)
          = Ok (KStr <$> gcodes)) as ->.
  { change (λ r0, as_key (cell pl1 r0)) with (as_key ∘ cell pl1).
    rewrite <- traverse_fmap, <- Hcol1. apply traverse_as_key_strings. }
  cbn [mbind result_bind].
  assert (traverse (λ r0, as_key (hd nan (ix r0))) (rows df1)
          = Ok (KStr <$> rcodes)) as ->.
  { change (λ r0, as_key (hd nan (ix r0))) with ((as_key ∘ hd nan) ∘ ix).
    rewrite <- traverse_fmap, Hixs, Hrc, traverse_fmap.
    by apply traverse_pure. }
  cbn [mbind result_bind]. rewrite check_dtypes_strings.
  cbn [mbind result_bind]. by rewrite Hcols1, Hixn1.
Qed.

(** On a table of results whose index holds strings and a region file of
    the expected shape the function returns, and the caller's table has got
    the column of ratios. *)
Lemma plot_referendum_map_returns r h df geo rcodes :
  h !! r = Some df → regional_results df →
  ix <$> rows df = (λ R, [VStr R]) <$> rcodes →
  read_file "data/regions.geojson" = Ok geo → region_file geo →
  ∃ gdf df' ratio,
    plot_referendum_map rnd read_file r h = (Ok gdf, <[r := df']> h) ∧
    ratios rnd df = Ok ratio ∧ setitem df "ratio" ratio = Ok df' ∧
    getitem df' "ratio" = Ok ratio.
Proof.
  intros Hr Hres Hrc Hfile (Hwfg & Hcode).
  destruct (getitem geo "code") as [gc|] eqn:Hgc; [|done]. simpl in Hcode.
  apply series_astype_str_inv in Hcode as [gcodes Hgcodes].
  destruct (plot_referendum_map_join r h df geo gc gcodes rcodes)
    as (df1 & geo1 & ratio & Hratio & Hset & Hset1 & Hrun); try done.
  eexists _, df1, ratio. split; [exact Hrun|].
  split; [done|]. split; [done|].
  destruct Hres as (Hwf & _). by apply (getitem_setitem df _ _ df1).
Qed.

(** The float quotient is not finite exactly on a zero divisor. *)
Lemma truediv_zero a : (rnd 0 == 0)%Q → ¬ finite (truediv rnd a 0).
Proof.
  intros H0. unfold truediv, float_div.
  change (inject_Z 0) with 0%Q.
  assert (Qeq_bool (rnd 0) 0 = true) as -> by by apply Qeq_bool_iff.
  destruct (rnd (inject_Z a) ?= 0)%Q; simpl; tauto.
Qed.

Hypothesis rnd_mono : ∀ x y : Q, (x <= y)%Q → (rnd x <= rnd y)%Q.
Hypothesis rnd_0 : (rnd 0 == 0)%Q.
Hypothesis rnd_1 : (rnd 1 == 1)%Q.

Lemma truediv_bounds a b :
  0 ≤ a → 0 ≤ b → 0 < a + b < 2 ^ 63 →
  ∃ q, truediv rnd a (add64 a b) = Finite q ∧ (0 <= q <= 1)%Q.
Proof.
  intros Ha Hb Hab. rewrite add64_small by lia.
  unfold truediv, float_div.
  set (x := rnd (inject_Z a)). set (y := rnd (inject_Z (a + b))).
  assert (0 <= x)%Q as Hx.
  { rewrite <- rnd_0. apply rnd_mono.
    change 0%Q with (inject_Z 0). rewrite <- Zle_Qle. lia. }
  assert (1 <= y)%Q as Hy.
  { rewrite <- rnd_1. apply rnd_mono.
    change 1%Q with (inject_Z 1). rewrite <- Zle_Qle. lia. }
  assert (x <= y)%Q as Hxy.
  { apply rnd_mono. rewrite <- Zle_Qle. lia. }
  assert (0 < y)%Q as Hy0.
  { eapply Qlt_le_trans; [|exact Hy]. done. }
  assert (Qeq_bool y 0 = false) as ->.
  { apply not_true_iff_false. intros H%Qeq_bool_iff.
    rewrite H in Hy0. by apply Qlt_irrefl in Hy0. }
  eexists. split; [done|]. split.
  - rewrite <- rnd_0. apply rnd_mono.
    apply Qle_shift_div_l; [done|]. by rewrite Qmult_0_l.
  - rewrite <- rnd_1. apply rnd_mono.
    apply Qle_shift_div_r; [done|]. by rewrite Qmult_1_l.
Qed.

End Ratio.

Lemma truediv_finite (rnd : Q → Q) a b :
  (∀ x y : Q, (x <= y)%Q → (rnd x <= rnd y)%Q) →
  (rnd 1 == 1)%Q → (rnd (-1) == -1)%Q → b ≠ 0 →
  truediv rnd a b = Finite (rnd (rnd (inject_Z a) / rnd (inject_Z b))%Q).
Proof.
  intros Hmono H1 Hm1 Hb. unfold truediv, float_div.
  assert (Qeq_bool (rnd (inject_Z b)) 0 = false) as ->; [|done].
  apply not_true_iff_false. intros H%Qeq_bool_iff.
  destruct (Z_lt_le_dec b 0) as [Hneg|Hpos].
  - assert (rnd (inject_Z b) <= rnd (-1))%Q as Hle.
    { apply Hmono. change (-1)%Q with (inject_Z (-1)).
      rewrite <- Zle_Qle. lia. }
    rewrite H, Hm1 in Hle. by apply Qle_not_lt in Hle.
  - assert (rnd 1 <= rnd (inject_Z b))%Q as Hle.
    { apply Hmono. change 1%Q with (inject_Z 1).
      rewrite <- Zle_Qle. lia. }
    rewrite H, H1 in Hle. by apply Qle_not_lt in Hle.
Qed.

(** C7, as the code has it.  On a table of results whose index holds
    strings and a region file of the expected shape, [plot_referendum_map]
    returns and has set the column [ratio] of the caller's table.  Row by
    row, with [s] the int64 sum of Choice A and Choice B, which is
    Choice A + Choice B unless that sum leaves the range of int64, the
    ratio is the float quotient of Choice A by [s] when [s] is not 0, and a
    value that is not finite (NaN or an infinity) when it is 0: no
    exception is raised. *)
Theorem ratio_is_quotient_or_not_finite (rnd : Q → Q)
    (read_file : string → result DataFrame) (r : ref)
    (h : gmap nat DataFrame) (df geo : DataFrame) (sa sb : Series)
    (rcodes : list string) :
  (∀ x y : Q, (x <= y)%Q → (rnd x <= rnd y)%Q) →
  (rnd 0 == 0)%Q → (rnd 1 == 1)%Q → (rnd (-1) == -1)%Q →
  h !! r = Some df → regional_results df →
  ix <$> rows df = (λ R, [VStr R]) <$> rcodes →
  read_file "data/regions.geojson" = Ok geo → region_file geo →
  getitem df "Choice A" = Ok sa → getitem df "Choice B" = Ok sb →
  ∃ gdf df' ratio,
    plot_referendum_map rnd read_file r h = (Ok gdf, <[r := df']> h) ∧
    getitem df' "ratio" = Ok ratio ∧
    ∀ i va vb, sa !! i = Some va → sb !! i = Some vb →
      ∃ a b s x, va = VInt a ∧ vb = VInt b ∧
        ratio !! i = Some (VFloat x) ∧
        s = (a + b + 2 ^ 63) mod 2 ^ 64 - 2 ^ 63 ∧
        (- 2 ^ 63 ≤ a + b < 2 ^ 63 → s = a + b) ∧
        (s ≠ 0 →
           x = Finite (rnd (rnd (inject_Z a) / rnd (inject_Z s)))%Q) ∧
        (s = 0 → ¬ finite x).
Proof.
  intros Hmono H0 H1 Hm1 Hr Hres Hrc Hfile Hgeo Ha Hb.
  destruct (plot_referendum_map_returns rnd read_file r h df geo rcodes)
    as (gdf & df' & ratio & Hrun & Hratio & Hset & Hget); try done.
  exists gdf, df', ratio. split; [done|]. split; [done|].
  intros i va vb Hva Hvb.
  destruct (ratios_lookup rnd df ratio sa sb i va vb) as (a & b & -> & -> & Hi);
    try done.
  exists a, b, (add64 a b), (truediv rnd a (add64 a b)).
  split_and!; try done.
  - intros Hab. unfold add64, wrap64. rewrite Z.mod_small; lia.
  - intros Hne. by apply truediv_finite.
  - intros ->. by apply truediv_zero.
Qed.

Lemma ex_results_shape : regional_results ex_results.
Proof.
  unfold regional_results, int_column.
  split_and!; try (vm_compute; repeat constructor).
Defined.

Lemma ex_geo_shape : region_file ex_geo.
Proof. split; vm_compute; repeat constructor. Defined.

Lemma ratio_is_quotient_or_not_finite_witness :
  ∃ gdf df' ratio,
    plot_referendum_map (λ q, q) ex_files 0%nat (<[0%nat := ex_results]> ∅)
      = (Ok gdf, <[0%nat := df']> (<[0%nat := ex_results]> ∅)) ∧
    getitem df' "ratio" = Ok ratio ∧
    ∀ i va vb, [VInt 0; VInt 70] !! i = Some va →
      [VInt 0; VInt 60] !! i = Some vb →
      ∃ a b s x, va = VInt a ∧ vb = VInt b ∧
        ratio !! i = Some (VFloat x) ∧
        s = (a + b + 2 ^ 63) mod 2 ^ 64 - 2 ^ 63 ∧
        (- 2 ^ 63 ≤ a + b < 2 ^ 63 → s = a + b) ∧
        (s ≠ 0 → x = Finite (inject_Z a / inject_Z s)%Q) ∧
        (s = 0 → ¬ finite x).
Proof.
  apply (ratio_is_quotient_or_not_finite (λ q, q) ex_files 0%nat
           (<[0%nat := ex_results]> ∅) ex_results ex_geo _ _ ["11"; "84"]).
  - intros x y H. exact H.
  - reflexivity.
  - reflexivity.
  - reflexivity.
  - reflexivity.
  - exact ex_results_shape.
  - reflexivity.
  - reflexivity.
  - exact ex_geo_shape.
  - reflexivity.
  - reflexivity.
Defined.

(** C7 as stated fails when Choice A + Choice B leaves the range of int64:
    with Choice A = Choice B = 2^62 the sum wraps around to -2^63 and the
    ratio is -1/2, where Choice A / (Choice A + Choice B) is 1/2. *)
Lemma ratio_of_a_wrapped_sum :
  getitem ex_overflow "Choice A" = Ok [VInt (2 ^ 62)] ∧
  getitem ex_overflow "Choice B" = Ok [VInt (2 ^ 62)] ∧
  ∃ q,
    ratio_set (λ q, q) ex_files (<[0%nat := ex_overflow]> ∅) 0%nat
      = Ok [VFloat (Finite q)] ∧
    (q == - (1 # 2))%Q ∧
    ¬ (q == inject_Z (2 ^ 62) / inject_Z (2 ^ 62 + 2 ^ 62))%Q.
Proof.
  split; [reflexivity|]. split; [reflexivity|].
  eexists. split; [vm_compute; reflexivity|]. split; [reflexivity|].
  intros H. vm_compute in H. discriminate H.
Qed.

(** C8, as the code has it.  For a row whose counts are not negative and
    whose Choice A + Choice B is positive and below 2^63, the ratio that
    [plot_referendum_map] sets is a finite float between 0 and 1. *)
Theorem ratio_between_0_and_1 (rnd : Q → Q)
    (read_file : string → result DataFrame) (r : ref)
    (h : gmap nat DataFrame) (df geo : DataFrame) (sa sb : Series)
    (rcodes : list string) :
  (∀ x y : Q, (x <= y)%Q → (rnd x <= rnd y)%Q) →
  (rnd 0 == 0)%Q → (rnd 1 == 1)%Q →
  h !! r = Some df → regional_results df →
  ix <$> rows df = (λ R, [VStr R]) <$> rcodes →
  read_file "data/regions.geojson" = Ok geo → region_file geo →
  getitem df "Choice A" = Ok sa → getitem df "Choice B" = Ok sb →
  ∃ gdf df' ratio,
    plot_referendum_map rnd read_file r h = (Ok gdf, <[r := df']> h) ∧
    getitem df' "ratio" = Ok ratio ∧
    ∀ i a b, sa !! i = Some (VInt a) → sb !! i = Some (VInt b) →
      0 ≤ a → 0 ≤ b → 0 < a + b < 2 ^ 63 →
      ∃ q, ratio !! i = Some (VFloat (Finite q)) ∧ (0 <= q <= 1)%Q.
Proof.
  intros Hmono H0 H1 Hr Hres Hrc Hfile Hgeo Ha Hb.
  destruct (plot_referendum_map_returns rnd read_file r h df geo rcodes)
    as (gdf & df' & ratio & Hrun & Hratio & Hset & Hget); try done.
  exists gdf, df', ratio. split; [done|]. split; [done|].
  intros i a b Hva Hvb Ha0 Hb0 Hab.
  destruct (ratios_lookup rnd df ratio sa sb i _ _ Hratio Ha Hb Hva Hvb)
    as (a' & b' & [= <-] & [= <-] & Hi).
  destruct (truediv_bounds rnd Hmono H0 H1 a b) as (q & Hq & Hbounds);
    try done.
  exists q. by rewrite Hi, Hq.
Qed.

Lemma ratio_between_0_and_1_witness :
  ∃ gdf df' ratio,
    plot_referendum_map (λ q, q) ex_files 0%nat (<[0%nat := ex_results]> ∅)
      = (Ok gdf, <[0%nat := df']> (<[0%nat := ex_results]> ∅)) ∧
    getitem df' "ratio" = Ok ratio ∧
    ∀ i a b, [VInt 0; VInt 70] !! i = Some (VInt a) →
      [VInt 0; VInt 60] !! i = Some (VInt b) →
      0 ≤ a → 0 ≤ b → 0 < a + b < 2 ^ 63 →
      ∃ q, ratio !! i = Some (VFloat (Finite q)) ∧ (0 <= q <= 1)%Q.
Proof.
  apply (ratio_between_0_and_1 (λ q, q) ex_files 0%nat
           (<[0%nat := ex_results]> ∅) ex_results ex_geo _ _ ["11"; "84"]).
  - intros x y H. exact H.
  - reflexivity.
  - reflexivity.
  - reflexivity.
  - exact ex_results_shape.
  - reflexivity.
  - reflexivity.
  - exact ex_geo_shape.
  - reflexivity.
  - reflexivity.
Defined.

(** C8 as stated fails when the int64 sum wraps around: the counts
    Choice A = Choice B = 2^62 are not negative and their sum is positive,
    and the ratio is below 0. *)
Lemma ratio_below_0 :
  getitem ex_overflow "Choice A" = Ok [VInt (2 ^ 62)] ∧
  getitem ex_overflow "Choice B" = Ok [VInt (2 ^ 62)] ∧
  0 ≤ 2 ^ 62 ∧ 0 < 2 ^ 62 + 2 ^ 62 ∧
  ∃ q,
    ratio_set (λ q, q) ex_files (<[0%nat := ex_overflow]> ∅) 0%nat
      = Ok [VFloat (Finite q)] ∧
    (q < 0)%Q.
Proof.
  split; [reflexivity|]. split; [reflexivity|].
  split; [done|]. split; [done|].
  eexists. split; [vm_compute; reflexivity|]. reflexivity.
Qed.

(** ** What a stage changes in the store *)

Lemma writes_only_refl c r h : writes_only c r h h.
Proof. split; [done|]. intros df Hdf. exists df. eauto 10. Qed.

Lemma writes_only_setitem c r h df s df1 :
  h !! r = Some df → wf df → setitem df c s = Ok df1 →
  writes_only c r h (<[r := df1]> h).
Proof.
  intros Hr Hwf Hset. split.
  - intros r' Hne. by rewrite lookup_insert_ne.
  - intros df0 Hdf0. assert (df0 = df) as -> by congruence.
    exists df1. rewrite lookup_insert_eq.
    destruct (setitem_rows_ix _ _ _ _ Hset) as [Hn Hix].
    split_and!; try done.
    + apply setitem_Ok in Hset as (_ & _ & ->). simpl.
      destruct (positions c (columns df)); auto.
    + intros c' Hne. by eapply getitem_setitem_ne.
Qed.

(** C6, as the code has it.  Each of the two stages that take a table from
    their caller writes one column into it: [merge_referendum_and_areas]
    sets [code_dep] on the referendum table, to the normalized department
    codes, and [plot_referendum_map] sets [ratio] on the table of results,
    to the ratios.  The column is set as soon as its values are computed,
    whether the stage then returns or raises.  The index, the rows, the
    other columns of that table and the other tables of the store are left
    as they were. *)
Theorem stages_write_one_column (rnd : Q → Q)
    (read_file : string → result DataFrame) (r a : ref)
    (h : gmap nat DataFrame) (df : DataFrame) :
  h !! r = Some df → wf df →
  writes_only "code_dep" r h (merge_referendum_and_areas r a h).2 ∧
  (∀ codes, dept_codes df = Ok codes →
     (length (positions "code_dep" (columns df)) ≤ 1)%nat →
     ∃ df', (merge_referendum_and_areas r a h).2 !! r = Some df' ∧
       getitem df' "code_dep" = Ok (VStr <$> codes)) ∧
  writes_only "ratio" r h (plot_referendum_map rnd read_file r h).2 ∧
  (∀ geo ratio, read_file "data/regions.geojson" = Ok geo →
     ratios rnd df = Ok ratio →
     (length (positions "ratio" (columns df)) ≤ 1)%nat →
     ∃ df', (plot_referendum_map rnd read_file r h).2 !! r = Some df' ∧
       getitem df' "ratio" = Ok ratio).
Proof.
  intros Hr Hwf.
  rewrite (merge_referendum_and_areas_run r a h df) by done.
  rewrite (plot_referendum_map_run rnd read_file r h df) by done.
  split_and!.
  - destruct (dept_codes df) as [codes|e]; [|apply writes_only_refl].
    destruct (setitem df "code_dep" (VStr <$> codes)) as [df1|e] eqn:Hset;
      [|apply writes_only_refl].
    simpl. by eapply writes_only_setitem.
  - intros codes Hcodes Hpos. rewrite Hcodes.
    destruct (setitem_total df "code_dep" (VStr <$> codes)) as [df1 Hset];
      [|done|].
    { rewrite length_fmap. by apply dept_codes_length. }
    rewrite Hset. simpl. exists df1. rewrite lookup_insert_eq.
    split; [done|]. by eapply getitem_setitem.
  - destruct (read_file _) as [geo|e]; [|apply writes_only_refl].
    destruct (ratios rnd df) as [ratio|e]; [|apply writes_only_refl].
    destruct (setitem df "ratio" ratio) as [df1|e] eqn:Hset;
      [|apply writes_only_refl].
    simpl. by eapply writes_only_setitem.
  - intros geo ratio -> Hratio Hpos. rewrite Hratio.
    destruct (setitem_total df "ratio" ratio) as [df1 Hset]; [|done|].
    { by apply ratios_length in Hratio. }
    rewrite Hset. simpl. exists df1. rewrite lookup_insert_eq.
    split; [done|]. by eapply getitem_setitem.
Qed.

Lemma stages_write_one_column_witness :
  ex_store !! 0%nat = Some ex_referendum ∧ wf ex_referendum ∧
  writes_only "code_dep" 0%nat ex_store
    (merge_referendum_and_areas 0%nat 1%nat ex_store).2 ∧
  (∀ codes, dept_codes ex_referendum = Ok codes →
     (length (positions "code_dep" (columns ex_referendum)) ≤ 1)%nat →
     ∃ df', (merge_referendum_and_areas 0%nat 1%nat ex_store).2 !! 0%nat
              = Some df' ∧
       getitem df' "code_dep" = Ok (VStr <$> codes)) ∧
  writes_only "ratio" 0%nat ex_store
    (plot_referendum_map (λ q, q) ex_files 0%nat ex_store).2 ∧
  (∀ geo ratio, ex_files "data/regions.geojson" = Ok geo →
     ratios (λ q, q) ex_referendum = Ok ratio →
     (length (positions "ratio" (columns ex_referendum)) ≤ 1)%nat →
     ∃ df', (plot_referendum_map (λ q, q) ex_files 0%nat ex_store).2 !! 0%nat
              = Some df' ∧
       getitem df' "ratio" = Ok ratio).
Proof.
  assert (ex_store !! 0%nat = Some ex_referendum) as H1 by reflexivity.
  assert (wf ex_referendum) as H2 by (by vm_compute; repeat constructor).
  split; [exact H1|]. split; [exact H2|].
  exact (stages_write_one_column (λ q, q) ex_files 0%nat 1%nat
           ex_store ex_referendum H1 H2).
Defined.

(** C6 as stated fails: after [merge_referendum_and_areas] the caller's
    referendum table has a column more, and after [plot_referendum_map] the
    caller's table of results has the column [ratio]. *)
Lemma stages_change_their_input :
  (columns <$> ex_store !! 0%nat) =
     Some ["Department code"; "Town name"; "Registered"; "Abstentions";
           "Null"; "Choice A"; "Choice B"] ∧
  (columns <$> (merge_referendum_and_areas 0%nat 1%nat ex_store).2 !! 0%nat) =
     Some ["Department code"; "Town name"; "Registered"; "Abstentions";
           "Null"; "Choice A"; "Choice B"; "code_dep"] ∧
  (merge_referendum_and_areas 0%nat 1%nat ex_store).2 !! 0%nat
    ≠ ex_store !! 0%nat ∧
  (plot_referendum_map (λ q, q) ex_files 0%nat (<[0%nat := ex_results]> ∅)).2
    !! 0%nat ≠ Some ex_results.
Proof.
  split_and!; [reflexivity|by vm_compute| |].
  - intros H. apply (f_equal (fmap columns)) in H. vm_compute in H. discriminate H.
  - intros H. apply (f_equal (fmap columns)) in H. vm_compute in H. discriminate H.
Qed.

(** ** Joins on a key that is unique on the right *)

Section assoc.
Context {B : Type}.
Implicit Types (R : list (key * B)) (k : key).

Lemma filter_key_nil R k : filter (λ kr, kr.1 = k) R = [] ↔ k ∉ R.*1.
Proof.
  induction R as [|[k' x] R IH]; simpl.
  - split; [|done]. intros _ H. by apply elem_of_nil in H.
  - rewrite filter_cons. simpl. rewrite not_elem_of_cons.
    case_decide as Hk.
    + split; [done|]. intros [Hne _]. by destruct Hne.
    + rewrite IH. split; [by intros ?|]. by intros [_ ?].
Qed.

Lemma filter_key_NoDup R k x :
  NoDup R.*1 → (k, x) ∈ R → filter (λ kr, kr.1 = k) R = [(k, x)].
Proof.
  induction R as [|[k' x'] R IH]; simpl.
  - intros _ H. by apply elem_of_nil in H.
  - intros [Hk' Hnd]%NoDup_cons. rewrite filter_cons. simpl.
    intros [[= -> ->]|Hin]%elem_of_cons.
    + rewrite decide_True by done. f_equal. by apply filter_key_nil.
    + assert (k' ≠ k) as Hne.
      { intros ->. apply Hk'.
        by apply (list_elem_of_fmap_2 fst) in Hin. }
      rewrite decide_False by done. by apply IH.
Qed.

Lemma filter_key_cases R k :
  NoDup R.*1 →
  ((k ∉ R.*1) ∧ filter (λ kr, kr.1 = k) R = []) ∨
  (∃ x, (k, x) ∈ R ∧ filter (λ kr, kr.1 = k) R = [(k, x)]).
Proof.
  intros Hnd. destruct (decide (k ∈ R.*1)) as [Hin|Hnin].
  - right. apply list_elem_of_fmap in Hin as ([k' x] & -> & Hin).
    exists x. split; [done|]. by apply filter_key_NoDup.
  - left. split; [done|]. by apply filter_key_nil.
Qed.

Lemma assoc_Some R k x : assoc k R = Some x → (k, x) ∈ R.
Proof.
  unfold assoc.
  destruct (filter (λ kr, kr.1 = k) R) as [|[k' x'] l] eqn:E; [done|].
  simpl. intros [= ->].
  assert ((k', x) ∈ filter (λ kr, kr.1 = k) R) as H by (rewrite E; left).
  apply list_elem_of_filter in H as [H1 H2]. simpl in H1. by subst.
Qed.

Lemma assoc_None R k : assoc k R = None ↔ k ∉ R.*1.
Proof.
  rewrite <- filter_key_nil. unfold assoc.
  by destruct (filter (λ kr, kr.1 = k) R).
Qed.

Lemma assoc_NoDup R k x : NoDup R.*1 → (k, x) ∈ R → assoc k R = Some x.
Proof.
  intros Hnd Hin. unfold assoc. by rewrite (filter_key_NoDup R k x).
Qed.
End assoc.

Lemma joined_unique h w R k l :
  NoDup R.*1 →
  joined h w R k l =
  match assoc k R, h with
  | Some x, _ => [mkRow (ix l) (cells l ++ x)]
  | None, Left => [mkRow (ix l) (cells l ++ replicate w nan)]
  | None, Inner => []
  end.
Proof.
  intros Hnd. unfold joined, assoc.
  destruct (filter_key_cases R k Hnd) as [[_ ->]|(x & _ & ->)]; simpl.
  - by destruct h.
  - by destruct h.
Qed.

Lemma join_joined_left w R lk ls :
  NoDup R.*1 →
  mjoin (zip_with (joined Left w R) lk ls) =
  zip_with (λ k l, mkRow (ix l)
                     (cells l ++ default (replicate w nan) (assoc k R)))
    lk ls.
Proof.
  intros Hnd. revert ls.
  induction lk as [|k lk IH]; intros [|l ls]; simpl; try done.
  rewrite IH, joined_unique by done. by destruct (assoc k R).
Qed.

Lemma zip_with_traverse {A K C D} (f : A → result K) (F : K → C → D)
    (G : A → C) (F' : A → D) l ks :
  traverse f l = Ok ks →
  (∀ a k, a ∈ l → f a = Ok k → F k (G a) = F' a) →
  zip_with F ks (G <$> l) = F' <$> l.
Proof.
  rewrite traverse_Ok. intros H HF.
  induction H as [|a k l ks Hk H IH]; csimpl; [done|].
  rewrite (HF a k) by (done || left). f_equal.
  apply IH. intros; apply HF; [by right|done].
Qed.

Lemma zip_with_zip_fmap {A B C D E} (f1 : A → B) (f2 : A → C) (f3 : A → D)
    (F : B → C → D → E) l :
  zip_with (λ r cn, F r cn.1 cn.2) (f1 <$> l) (zip (f2 <$> l) (f3 <$> l)) =
  (λ a, F (f1 a) (f2 a) (f3 a)) <$> l.
Proof. induction l as [|a l IH]; csimpl; [done|]. by rewrite IH. Qed.

Lemma as_key_inj v w k : as_key v = Ok k → as_key w = Ok k → v = w.
Proof.
  destruct v as [| |[]|], w as [| |[]|]; simpl; intros; by simplify_eq.
Qed.

Lemma traverse_as_key_NoDup {A} (f : A → value) l ks :
  traverse (λ a, as_key (f a)) l = Ok ks → NoDup (f <$> l) → NoDup ks.
Proof.
  intros H Hnd. apply NoDup_alt. intros i j k Hi Hj.
  destruct (traverse_lookup_r _ _ _ _ _ H Hi) as (a & Ha & Hka).
  destruct (traverse_lookup_r _ _ _ _ _ H Hj) as (b & Hb & Hkb).
  assert (f a = f b) as Hab by by eapply as_key_inj.
  rewrite NoDup_alt in Hnd. apply (Hnd i j (f a)).
  - by rewrite list_lookup_fmap, Ha.
  - by rewrite list_lookup_fmap, Hb, Hab.
Qed.

(** ** The table of [merge_regions_and_departments] *)

Lemma select_Ok cs df ps :
  traverse (λ c, col_pos c (columns df)) cs = Ok ps →
  select cs df =
  Ok (mkDF (index_names df) cs
        ((λ r, mkRow (ix r) ((λ p, cell p r) <$> ps)) <$> rows df)).
Proof. intros H. unfold select. by rewrite H. Qed.

(** The labels of the regions after [rename]. *)
Lemma renamed_regions (cols : list string) c c' :
  (c, c') ∈ [("code", "code_reg"); ("name", "name_reg")] →
  "code_reg" ∉ cols → "name_reg" ∉ cols →
  ∀ d, d ∈ cols →
    renamed [("code", "code_reg"); ("name", "name_reg")] d = c' ↔ d = c.
Proof.
  intros Hc H1 H2 d Hd. cbn [renamed].
  assert (d ≠ "code_reg") by (by intros ->).
  assert (d ≠ "name_reg") by (by intros ->).
  repeat (apply elem_of_cons in Hc as [[= -> ->]|Hc]);
    [| |by apply elem_of_nil in Hc];
    repeat (match goal with
            | |- context [ String.eqb ?x d ] =>
                destruct (String.eqb_spec x d); subst
            end); split; intros; subst; done.
Qed.

(** The labels of the departments after [rename]. *)
Lemma renamed_departments (cols : list string) c c' :
  (c, c') ∈ [("region_code", "code_reg"); ("code", "code_dep");
             ("name", "name_dep")] →
  "code_reg" ∉ cols → "code_dep" ∉ cols → "name_dep" ∉ cols →
  ∀ d, d ∈ cols →
    renamed [("region_code", "code_reg"); ("code", "code_dep");
             ("name", "name_dep")] d = c' ↔ d = c.
Proof.
  intros Hc H1 H2 H3 d Hd. cbn [renamed].
  assert (d ≠ "code_reg") by (by intros ->).
  assert (d ≠ "code_dep") by (by intros ->).
  assert (d ≠ "name_dep") by (by intros ->).
  repeat (apply elem_of_cons in Hc as [[= -> ->]|Hc]);
    [| | |by apply elem_of_nil in Hc];
    repeat (match goal with
            | |- context [ String.eqb ?x d ] =>
                destruct (String.eqb_spec x d); subst
            end); split; intros; subst; done.
Qed.

(** With unique region codes, the table is made of the rows of the
    departments, each with the name of its region, once the dtypes of the
    two columns of region codes are found to agree. *)
Lemma merge_regions_and_departments_rows regions departments
    rc rn dr dc dn lk rk :
  regions_table regions rc rn → departments_table departments dr dc dn →
  NoDup rc →
  traverse as_key dr = Ok lk → traverse as_key rc = Ok rk →
  merge_regions_and_departments regions departments =
  (_ ← check_dtypes lk rk;
   Ok (mkDF [] ["code_reg"; "name_reg"; "code_dep"; "name_dep"]
         (zip_with (λ r cn, mkRow [] [r; region_name rc rn r; cn.1; cn.2])
            dr (zip dc dn)))).
Proof.
  intros [Hrc Hrn [Hr1 Hr2] _] [Hdr Hdc Hdn (Hd1 & Hd2 & Hd3) _] Hnd Hlk Hrk.
  apply getitem_Ok in Hrc as (pc & Hpc & ->).
  apply getitem_Ok in Hrn as (pn & Hpn & ->).
  apply getitem_Ok in Hdr as (qr & Hqr & ->).
  apply getitem_Ok in Hdc as (qc & Hqc & ->).
  apply getitem_Ok in Hdn as (qn & Hqn & ->).
  unfold merge_regions_and_departments.
  set (mr := [("code", "code_reg"); ("name", "name_reg")]).
  set (md := [("region_code", "code_reg"); ("code", "code_dep");
              ("name", "name_dep")]).
  rewrite (select_Ok _ (rename md departments) [qr; qc; qn]).
  2:{ simpl.
      rewrite (col_pos_fmap _ "region_code" "code_reg")
        by (apply renamed_departments; try done; repeat constructor).
      rewrite Hqr. simpl.
      rewrite (col_pos_fmap _ "code" "code_dep")
        by (apply renamed_departments; try done; repeat constructor).
      rewrite Hqc. simpl.
      rewrite (col_pos_fmap _ "name" "name_dep")
        by (apply renamed_departments; try done; repeat constructor).
      rewrite Hqn. done. }
  rewrite (select_Ok _ (rename mr regions) [pc; pn]).
  2:{ simpl.
      rewrite (col_pos_fmap _ "code" "code_reg")
        by (apply renamed_regions; try done; repeat constructor).
      rewrite Hpc. simpl.
      rewrite (col_pos_fmap _ "name" "name_reg")
        by (apply renamed_regions; try done; repeat constructor).
      rewrite Hpn. done. }
  cbn [mbind result_bind].
  unfold merge. cbn [columns rows index_names rename].
  change (col_pos "code_reg" ["code_reg"; "code_dep"; "name_dep"])
    with (Ok (A:=nat) 0%nat).
  change (col_pos "code_reg" ["code_reg"; "name_reg"]) with (Ok (A:=nat) 0%nat).
  cbn [mbind result_bind].
  rewrite !traverse_fmap.
  rewrite traverse_fmap in Hlk, Hrk.
  rewrite (traverse_ext _ (as_key ∘ cell qr) (rows departments)) by done.
  rewrite Hlk. cbn [mbind result_bind].
  rewrite (traverse_ext _ (as_key ∘ cell pc) (rows regions)) by done.
  rewrite Hrk. cbn [mbind result_bind].
  destruct (check_dtypes lk rk) as [[]|e]; cbn [mbind result_bind]; [|done].
  assert (NoDup rk) as Hndk by by eapply traverse_as_key_NoDup.
  change (merged_columns ["code_reg"; "code_dep"; "name_dep"]
            (delete 0%nat ["code_reg"; "name_reg"]))
    with ["code_reg"; "code_dep"; "name_dep"; "name_reg"].
  rewrite <- !list_fmap_compose.
  set (R := zip rk _).
  assert (R.*1 = rk) as HR.
  { apply fst_zip. rewrite length_fmap.
    apply traverse_length in Hrk. lia. }
  rewrite join_joined_left by by rewrite HR.
  unfold select. cbn [columns rows index_names].
  change (traverse _ ["code_reg"; "name_reg"; "code_dep"; "name_dep"])
    with (Ok [0; 3; 1; 2]%nat).
  cbn [mbind result_bind]. f_equal. f_equal.
  rewrite (zip_with_traverse (as_key ∘ cell qr) _ _
             (λ d, mkRow (ix d)
                ([cell qr d; cell qc d; cell qn d] ++
                 [region_name (cell pc <$> rows regions)
                    (cell pn <$> rows regions) (cell qr d)]))
             _ _ Hlk).
  2:{ intros d k _ Hk. simpl in Hk. simpl. do 2 f_equal.
      unfold region_name. rewrite Hk, traverse_fmap, Hrk.
      assert (assoc k (zip rk (cell pn <$> rows regions))
              = (λ x, nth 0 x nan) <$> assoc k R) as ->.
      { subst R. clear. generalize (rows regions). revert rk.
        unfold assoc. induction rk as [|k' rk IH]; intros [|g gs]; try done.
        csimpl. rewrite !filter_cons. simpl. case_decide; [done|]. apply IH. }
      destruct (assoc k R) as [x|] eqn:Hx; simpl; [|done].
      apply assoc_Some in Hx. subst R.
      apply elem_of_zip_r in Hx.
      apply list_elem_of_fmap in Hx as (g & -> & _). done. }
  rewrite <- !list_fmap_compose.
  rewrite (zip_with_zip_fmap (cell qr) (cell qc) (cell qn)
             (λ r c n, mkRow [] [r; region_name (cell pc <$> rows regions)
                                      (cell pn <$> rows regions) r; c; n])).
  done.
Qed.

Lemma region_name_found rc rn code j x :
  is_Ok (traverse as_key rc) → is_Ok (as_key code) →
  NoDup rc → length rc = length rn →
  rc !! j = Some code → rn !! j = Some x →
  region_name rc rn code = x.
Proof.
  intros [ks Hks]%is_Ok_exists [k Hk]%is_Ok_exists Hnd Hlen Hj Hx.
  unfold region_name. rewrite Hk, Hks.
  destruct (traverse_lookup _ _ _ _ _ Hks Hj) as (k' & Hk' & Hkk).
  assert (k' = k) as -> by congruence.
  assert (NoDup ks) as Hndk.
  { apply (traverse_as_key_NoDup id rc); [done|by rewrite list_fmap_id]. }
  rewrite (assoc_NoDup _ k x); [done| |].
  - rewrite fst_zip; [done|]. apply traverse_length in Hks. lia.
  - apply (list_elem_of_lookup_2 _ j). apply lookup_zip_with_Some. eauto.
Qed.

Lemma region_name_absent rc rn code :
  is_Ok (traverse as_key rc) → length rc = length rn →
  code ∉ rc → region_name rc rn code = nan.
Proof.
  intros [ks Hks]%is_Ok_exists Hlen Hnin. unfold region_name. rewrite Hks.
  destruct (as_key code) as [k|] eqn:Hk; [|done].
  assert (assoc k (zip ks rn) = None) as ->; [|done].
  apply assoc_None. rewrite fst_zip by (apply traverse_length in Hks; lia).
  intros (j & Hj)%list_elem_of_lookup_1.
  destruct (traverse_lookup_r _ _ _ _ _ Hks Hj) as (v & Hv & Hvk).
  apply Hnin. apply (list_elem_of_lookup_2 _ j).
  by rewrite (as_key_inj code v k).
Qed.

(** C5, as the code has it.  When the region codes are unique and are of
    one type in the two tables (strings, as the data model has them, or
    integers in both), [merge_regions_and_departments] returns a table
    with exactly the columns
    code_reg, name_reg, code_dep and name_dep and one row per department,
    in the order of the departments: the region code, the code and the name
    of the department are those of the input, and the region name is the
    name of the region with that code, or absent when no region has it. *)
Theorem one_row_per_department (regions departments : DataFrame)
    (rc rn dr dc dn : Series) :
  regions_table regions rc rn → departments_table departments dr dc dn →
  joinable dr rc → NoDup rc →
  ∃ out names,
    merge_regions_and_departments regions departments = Ok out ∧
    columns out = ["code_reg"; "name_reg"; "code_dep"; "name_dep"] ∧
    length (rows out) = length (rows departments) ∧
    getitem out "code_reg" = Ok dr ∧
    getitem out "code_dep" = Ok dc ∧
    getitem out "name_dep" = Ok dn ∧
    getitem out "name_reg" = Ok names ∧
    ∀ i code, dr !! i = Some code →
      (∀ j, rc !! j = Some code → names !! i = rn !! j) ∧
      (code ∉ rc → names !! i = Some nan).
Proof.
  intros Hreg Hdep Hjoin Hnd.
  destruct (is_Ok_exists _ (regions_keys _ _ _ Hreg)) as [rk Hrk].
  destruct (is_Ok_exists _ (departments_keys _ _ _ _ Hdep)) as [lk Hlk].
  rewrite (merge_regions_and_departments_rows _ _ rc rn dr dc dn lk rk)
    by done.
  rewrite (check_dtypes_joinable dr rc lk rk) by done.
  cbn [mbind result_bind]. clear lk rk Hlk Hrk Hjoin.
  destruct Hreg as [Hrc Hrn _ Hrk], Hdep as [Hdr Hdc Hdn _ Hdk].
  assert (length rc = length rn) as Hlen.
  { apply getitem_length in Hrc, Hrn. congruence. }
  apply getitem_Ok in Hdr as (qr & Hqr & ->).
  apply getitem_Ok in Hdc as (qc & Hqc & ->).
  apply getitem_Ok in Hdn as (qn & Hqn & ->).
  rewrite (zip_with_zip_fmap (cell qr) (cell qc) (cell qn)
             (λ r c n, mkRow [] [r; region_name rc rn r; c; n])).
  eexists _, (region_name rc rn <$> (cell qr <$> rows departments)).
  split; [done|]. split; [done|]. simpl.
  split; [by rewrite length_fmap|].
  unfold getitem. simpl.
  change (col_pos "code_reg" _) with (Ok (A:=nat) 0%nat).
  change (col_pos "code_dep" _) with (Ok (A:=nat) 2%nat).
  change (col_pos "name_dep" _) with (Ok (A:=nat) 3%nat).
  change (col_pos "name_reg" _) with (Ok (A:=nat) 1%nat).
  simpl. rewrite <- !list_fmap_compose.
  split; [done|]. split; [done|]. split; [done|]. split; [done|].
  intros i code Hi. rewrite list_lookup_fmap in Hi.
  destruct (rows departments !! i) as [d|] eqn:Hd; [|done].
  injection Hi as <-. rewrite list_lookup_fmap, Hd. simpl. split.
  - intros j Hj.
    destruct (rn !! j) as [x|] eqn:Hx.
    + f_equal. eapply region_name_found; try done.
      apply is_Ok_exists in Hdk as [ks Hks].
      rewrite traverse_fmap in Hks.
      destruct (traverse_lookup _ _ _ _ _ Hks Hd) as (k & _ & Hk).
      simpl in Hk. by rewrite Hk.
    + apply lookup_ge_None in Hx. apply lookup_lt_Some in Hj. lia.
  - intros Hnin. f_equal. by apply region_name_absent.
Qed.

Lemma ex_regions_table :
  regions_table ex_regions
    [VStr "84"; VStr "11"] [VStr "Auvergne-Rhone-Alpes"; VStr "Ile-de-France"].
Proof.
  split; [reflexivity|reflexivity| |exact I].
  split; by vm_compute; intros H; repeat (apply elem_of_cons in H as [H|H]);
    try discriminate H; apply elem_of_nil in H.
Defined.

Lemma ex_departments_table :
  departments_table ex_departments
    [VStr "84"; VStr "94"; VStr "11"] [VStr "01"; VStr "2A"; VStr "75"]
    [VStr "Ain"; VStr "Corse-du-Sud"; VStr "Paris"].
Proof.
  split; [reflexivity|reflexivity|reflexivity| |exact I].
  split_and!; by vm_compute; intros H;
    repeat (apply elem_of_cons in H as [H|H]);
    try discriminate H; apply elem_of_nil in H.
Defined.

Lemma one_row_per_department_witness :
  ∃ out names,
    merge_regions_and_departments ex_regions ex_departments = Ok out ∧
    columns out = ["code_reg"; "name_reg"; "code_dep"; "name_dep"] ∧
    length (rows out) = length (rows ex_departments) ∧
    getitem out "code_reg" = Ok [VStr "84"; VStr "94"; VStr "11"] ∧
    getitem out "code_dep" = Ok [VStr "01"; VStr "2A"; VStr "75"] ∧
    getitem out "name_dep" = Ok [VStr "Ain"; VStr "Corse-du-Sud"; VStr "Paris"] ∧
    getitem out "name_reg" = Ok names ∧
    ∀ i code, [VStr "84"; VStr "94"; VStr "11"] !! i = Some code →
      (∀ j, [VStr "84"; VStr "11"] !! j = Some code →
         names !! i = [VStr "Auvergne-Rhone-Alpes"; VStr "Ile-de-France"] !! j) ∧
      (code ∉ [VStr "84"; VStr "11"] → names !! i = Some nan).
Proof.
  apply (one_row_per_department ex_regions ex_departments).
  - exact ex_regions_table.
  - exact ex_departments_table.
  - left. split; repeat constructor.
  - repeat constructor; vm_compute; intros H;
      repeat (apply elem_of_cons in H as [H|H]);
      try discriminate H; by apply elem_of_nil in H.
Defined.

(** C5 as stated fails when the region codes are integers in one table and
    strings in the other: the regions have unique codes, and the join
    raises [ValueError] where one row per department is expected. *)
Lemma region_codes_of_two_types :
  getitem ex_regions_numbers "code" = Ok [VInt 84; VInt 11] ∧
  NoDup [VInt 84; VInt 11] ∧
  getitem ex_departments "region_code" = Ok [VStr "84"; VStr "94"; VStr "11"] ∧
  merge_regions_and_departments ex_regions_numbers ex_departments =
    Raise ValueError.
Proof.
  split; [reflexivity|]. split; [by_compute|]. split; reflexivity.
Qed.

(** ** The table of [merge_referendum_and_areas] *)

Lemma getitem_boolean_filter df mask c :
  getitem (boolean_filter df mask) c = keep mask <$> getitem df c.
Proof.
  unfold getitem. simpl. destruct (col_pos c (columns df)); simpl; [|done].
  by rewrite keep_fmap.
Qed.

Lemma wf_boolean_filter df mask : wf df → wf (boolean_filter df mask).
Proof.
  unfold wf, boolean_filter, keep. simpl. rewrite !Forall_forall.
  intros H r ([b r'] & -> & Hin)%list_elem_of_fmap.
  apply list_elem_of_filter in Hin as [_ Hin].
  apply elem_of_zip_r in Hin. by apply H.
Qed.

Lemma setitem_boolean_filter df c s df1 mask :
  setitem df c s = Ok df1 →
  setitem (boolean_filter df mask) c (keep mask s) =
  Ok (boolean_filter df1 mask).
Proof.
  intros (Hlen & Hpos & ->)%setitem_Ok. unfold setitem. simpl.
  rewrite bool_decide_true.
  - simpl. destruct (positions c (columns df)) as [|p [|q ps]]; try done;
      unfold boolean_filter; simpl; by rewrite keep_zip_with.
  - clear Hpos. revert s mask Hlen.
    induction (rows df) as [|x l IH]; intros [|v s] [|b m] Hlen;
      try done.
    rewrite !keep_cons. injection Hlen as Hlen.
    destruct b; simpl; auto.
Qed.

Lemma dept_codes_boolean_filter df codes mask :
  dept_codes df = Ok codes →
  dept_codes (boolean_filter df mask) = Ok (keep mask codes).
Proof.
  unfold dept_codes. rewrite getitem_boolean_filter. intros H. inv_bind H.
  rewrite Hx. simpl. by apply traverse_keep.
Qed.

Lemma surviving_keep codes :
  keep (mainland <$> codes) codes = surviving codes.
Proof. apply keep_filter. Qed.

Lemma mainland_surviving codes :
  Forall (λ b, b = true) (mainland <$> surviving codes).
Proof.
  apply Forall_fmap, Forall_forall. intros c Hc.
  by apply list_elem_of_filter in Hc as [Hc _].
Qed.

(** What [merge_referendum_and_areas] returns when the department codes of
    the areas are strings: the rows of the join of the surviving records
    with the areas. *)
Lemma merge_referendum_and_areas_returns r a h df areas codes acs :
  h !! r = Some df → wf df → r ≠ a → h !! a = Some areas →
  dept_codes df = Ok codes →
  (length (positions "code_dep" (columns df)) ≤ 1)%nat →
  getitem areas "code_dep" = Ok (VStr <$> acs) →
  ∃ df1 pl pr,
    setitem df "code_dep" (VStr <$> codes) = Ok df1 ∧
    col_pos "code_dep" (columns df1) = Ok pl ∧
    col_pos "code_dep" (columns areas) = Ok pr ∧
    merge_referendum_and_areas r a h =
    (Ok (mkDF [] (merged_columns (columns df1) (delete pr (columns areas)))
           (reset <$>
            mjoin (zip_with
                     (joined Inner (length (delete pr (columns areas)))
                        (zip (KStr <$> acs)
                           ((λ r, delete pr (cells r)) <$> rows areas)))
                     (KStr <$> surviving codes)
                     (keep (mainland <$> codes) (rows df1))))),
     <[r := df1]> h).
Proof.
  intros Hr Hwf Hne Ha Hcodes Hpos Hac.
  rewrite (merge_referendum_and_areas_run r a h df) by done.
  rewrite Hcodes.
  destruct (setitem_total df "code_dep" (VStr <$> codes)) as [df1 Hset];
    [|done|].
  { rewrite length_fmap. by apply dept_codes_length. }
  rewrite Hset, lookup_insert_ne, Ha by done.
  pose proof (getitem_setitem _ _ _ _ Hwf Hset) as Hget.
  apply getitem_Ok in Hget as (pl & Hpl & Hcol).
  apply getitem_Ok in Hac as (pr & Hpr & Hacs).
  exists df1, pl, pr. split_and!; try done.
  unfold merge. simpl. rewrite Hpl, Hpr. simpl.
  assert (traverse (λ r0, as_key (cell pl r0))
            (keep (mainland <$> codes) (rows df1))
          = Ok (KStr <$> surviving codes)) as ->.
  { change (λ r0, as_key (cell pl r0)) with (as_key ∘ cell pl).
    rewrite <- traverse_fmap, <- keep_fmap, <- Hcol, keep_fmap.
    rewrite surviving_keep, traverse_fmap. by apply traverse_pure. }
  simpl.
  assert (traverse (λ r0, as_key (cell pr r0)) (rows areas)
          = Ok (KStr <$> acs)) as ->.
  { change (λ r0, as_key (cell pr r0)) with (as_key ∘ cell pr).
    rewrite <- traverse_fmap, <- Hacs. apply traverse_as_key_strings. }
  simpl. by rewrite check_dtypes_strings.
Qed.

(** ** The size of the join *)

Lemma length_join_inner w R lk ls :
  NoDup R.*1 → length lk = length ls →
  length (mjoin (zip_with (joined Inner w R) lk ls)) =
  length (filter (λ k, k ∈ R.*1) lk).
Proof.
  intros Hnd. revert ls.
  induction lk as [|k lk IH]; intros [|l ls] Hlen; simpl in *; try done.
  rewrite length_app, IH by lia. rewrite filter_cons, joined_unique by done.
  destruct (assoc k R) as [x|] eqn:Hx.
  - apply assoc_Some in Hx. apply (list_elem_of_fmap_2 fst) in Hx.
    by rewrite decide_True.
  - apply assoc_None in Hx. by rewrite decide_False.
Qed.

Lemma length_filter_eq {A} (P : A → Prop) `{∀ x, Decision (P x)} l :
  length (filter P l) = length l ↔ Forall P l.
Proof.
  induction l as [|x l IH]; simpl; [by split; [constructor|]|].
  rewrite filter_cons, Forall_cons. case_decide as HP; simpl.
  - rewrite <- IH. split; [intros [= ?]; done|intros [_ ->]; done].
  - pose proof (length_filter P l). split; [lia|tauto].
Qed.

Lemma length_keep_same {A B} (mask : list bool) (l : list A) (k : list B) :
  length l = length k → length (keep mask l) = length (keep mask k).
Proof.
  revert l k. induction mask as [|b m IH]; intros [|x l] [|y k] Hlen;
    try done.
  rewrite !keep_cons. injection Hlen as Hlen. destruct b; simpl; auto.
Qed.

Lemma elem_of_keys (acs : list string) c : KStr c ∈ KStr <$> acs ↔ c ∈ acs.
Proof. apply (list_elem_of_fmap_inj KStr). Qed.

(** C3, as the code has it.  When the department codes of the area table
    are strings and are unique, [merge_referendum_and_areas] returns at
    most one row per record that passes the filter on ['Z'], and exactly one
    per such record if and only if the code of each of them is a code of
    the area table. *)
Theorem joined_rows_at_most_survivors (r a : ref) (h : gmap nat DataFrame)
    (df areas : DataFrame) (codes acs : list string) :
  h !! r = Some df → wf df → r ≠ a → h !! a = Some areas →
  dept_codes df = Ok codes →
  (length (positions "code_dep" (columns df)) ≤ 1)%nat →
  getitem areas "code_dep" = Ok (VStr <$> acs) → NoDup acs →
  ∃ out h',
    merge_referendum_and_areas r a h = (Ok out, h') ∧
    (length (rows out) ≤ length (surviving codes))%nat ∧
    (length (rows out) = length (surviving codes) ↔
     ∀ c, c ∈ surviving codes → c ∈ acs).
Proof.
  intros Hr Hwf Hne Ha Hcodes Hpos Hac Hnd.
  destruct (merge_referendum_and_areas_returns r a h df areas codes acs)
    as (df1 & pl & pr & Hset & Hpl & Hpr & ->); try done.
  eexists _, _. split; [done|]. simpl.
  set (R := zip (KStr <$> acs) _).
  assert (R.*1 = KStr <$> acs) as HR.
  { apply fst_zip. rewrite !length_fmap.
    apply getitem_length in Hac. rewrite length_fmap in Hac. lia. }
  assert (NoDup R.*1) as HndR.
  { rewrite HR. by apply (NoDup_fmap_2 KStr). }
  rewrite length_fmap, length_join_inner; [|done|].
  2:{ rewrite length_fmap, <- surviving_keep. apply length_keep_same.
      apply setitem_Ok in Hset as (Hlen & _ & ->). simpl.
      rewrite length_zip_with, length_fmap in *. lia. }
  rewrite HR. split.
  - etrans; [apply length_filter|]. by rewrite length_fmap.
  - rewrite <- (length_fmap KStr (surviving codes)).
    rewrite length_filter_eq, Forall_fmap, Forall_forall.
    split; intros H c Hc; specialize (H c Hc); simpl in *;
      by apply elem_of_keys.
Qed.

Lemma ex_areas_codes_unique : NoDup ["01"; "2A"; "75"].
Proof. by_compute. Defined.

Lemma joined_rows_at_most_survivors_witness :
  ∃ out h',
    merge_referendum_and_areas 0%nat 1%nat ex_store = (Ok out, h') ∧
    (length (rows out) ≤ length (surviving ["01"; "01"; "ZA"; "75"; "971"]))%nat ∧
    (length (rows out) = length (surviving ["01"; "01"; "ZA"; "75"; "971"]) ↔
     ∀ c, c ∈ surviving ["01"; "01"; "ZA"; "75"; "971"] →
          c ∈ ["01"; "2A"; "75"]).
Proof.
  apply (joined_rows_at_most_survivors 0%nat 1%nat ex_store
           ex_referendum ex_areas).
  - reflexivity.
  - vm_compute. repeat constructor.
  - lia.
  - reflexivity.
  - reflexivity.
  - vm_compute. lia.
  - reflexivity.
  - exact ex_areas_codes_unique.
Defined.

(** C3 as stated fails when a department code occurs twice in the area
    table: one surviving record then yields two rows. *)
Lemma joined_rows_exceed_survivors :
  dept_codes ex_one_record = Ok ["01"] ∧
  length (surviving ["01"]) = 1%nat ∧
  (λ out, length (rows out)) <$>
    (merge_referendum_and_areas 0%nat 1%nat
       (<[0%nat := ex_one_record]> (<[1%nat := ex_areas_twice]> ∅))).1
  = Ok 2%nat.
Proof. split_and!; by vm_compute. Qed.

(** ** The records with a Z in their code *)

Lemma positions_delete c cols p :
  positions c cols = [p] → c ∉ delete p cols.
Proof.
  intros Hpos (j & Hj)%list_elem_of_lookup_1.
  assert (∀ q, cols !! q = Some c → q = p) as Huniq.
  { intros q Hq%elem_of_positions. rewrite Hpos in Hq.
    by apply list_elem_of_singleton in Hq. }
  destruct (decide (j < p)%nat) as [Hlt|Hge].
  - rewrite list_lookup_delete_lt in Hj by done. apply Huniq in Hj. lia.
  - rewrite list_lookup_delete_ge in Hj by lia. apply Huniq in Hj. lia.
Qed.

(** The label of the join keeps its place among the columns of the
    result, when no suffixed label is equal to it. *)
Lemma col_pos_merged on lcols rcols pl :
  col_pos on lcols = Ok pl → on ∉ rcols →
  (∀ d sfx, sfx ∈ ["_x"; "_y"] → String.append d sfx ≠ on) →
  col_pos on (merged_columns lcols rcols) = Ok pl.
Proof.
  intros Hpl%col_pos_Ok Hnin Hsfx. apply col_pos_Ok.
  unfold merged_columns. rewrite positions_app.
  rewrite (positions_fmap _ on on).
  - rewrite Hpl.
    assert (positions on (suffixed lcols "_y" <$> rcols) = []) as ->; [|done].
    apply positions_nil. intros (d & Hd & Hin)%list_elem_of_fmap.
    unfold suffixed in Hd. case_bool_decide.
    + symmetry in Hd. revert Hd. apply Hsfx. repeat constructor.
    + by subst.
  - intros d Hd. unfold suffixed. case_bool_decide as Hin.
    + split; [|by intros ->]. intros H. exfalso. revert H.
      apply Hsfx. repeat constructor.
    + done.
Qed.

Lemma code_dep_not_suffixed d sfx :
  sfx ∈ ["_x"; "_y"] → String.append d sfx ≠ "code_dep".
Proof.
  intros Hsfx.
  repeat (apply elem_of_cons in Hsfx as [->|Hsfx]);
    [| |by apply elem_of_nil in Hsfx];
    do 9 (destruct d as [|? d]; [by simpl|]; simpl; intros [= _ H];
          revert H);
    done.
Qed.

Lemma elem_of_join_joined h w R lk ls o :
  o ∈ mjoin (zip_with (joined h w R) lk ls) →
  ∃ i k l x, lk !! i = Some k ∧ ls !! i = Some l ∧
             o = mkRow (ix l) (cells l ++ x).
Proof.
  intros (os & Ho & (i & Hos)%list_elem_of_lookup_1)%list_elem_of_join.
  apply lookup_zip_with_Some in Hos as (k & l & -> & Hk & Hl).
  exists i, k, l. unfold joined in Ho.
  destruct (filter _ R) as [|kr ms]; [destruct h|].
  - by apply elem_of_nil in Ho.
  - apply list_elem_of_singleton in Ho. eauto.
  - apply list_elem_of_fmap in Ho as (kr' & -> & _). eauto.
Qed.

Lemma surviving_idemp codes : surviving (surviving codes) = surviving codes.
Proof.
  unfold surviving. rewrite list_filter_filter.
  apply list_filter_iff. tauto.
Qed.

(** C2.  When the department codes of the areas are strings, no row of
    the table that [merge_referendum_and_areas] returns carries a code with
    a Z: the column [code_dep] of the result holds codes of input records,
    none of which contains ['Z'].  And the result, from which every later
    table is computed, is the one the function returns on the input without
    the records whose code contains ['Z']. *)
Theorem overseas_records_are_dropped (r a : ref) (h : gmap nat DataFrame)
    (df areas : DataFrame) (codes acs : list string) :
  h !! r = Some df → wf df → r ≠ a → h !! a = Some areas →
  dept_codes df = Ok codes →
  (length (positions "code_dep" (columns df)) ≤ 1)%nat →
  getitem areas "code_dep" = Ok (VStr <$> acs) →
  ∃ out h' s,
    merge_referendum_and_areas r a h = (Ok out, h') ∧
    getitem out "code_dep" = Ok s ∧
    (∀ v, v ∈ s → ∃ c, v = VStr c ∧ c ∈ codes ∧ contains "Z" c = false) ∧
    (merge_referendum_and_areas r a
       (<[r := boolean_filter df (mainland <$> codes)]> h)).1 = Ok out.
Proof.
  intros Hr Hwf Hne Ha Hcodes Hpos Hac.
  destruct (merge_referendum_and_areas_returns r a h df areas codes acs)
    as (df1 & pl & pr & Hset & Hpl & Hpr & Hrun); try done.
  rewrite Hrun. eexists _, _, _. split; [done|].
  pose proof (wf_setitem _ _ _ _ Hwf Hset) as Hwf1.
  pose proof (getitem_setitem _ _ _ _ Hwf Hset) as Hget.
  apply getitem_Ok in Hget as (pl' & Hpl' & Hcol).
  assert (pl' = pl) as -> by congruence.
  split_and!.
  - unfold getitem. cbn [columns rows].
    rewrite (col_pos_merged _ _ _ pl); [done|done| |].
    + apply positions_delete. by apply col_pos_Ok.
    + apply code_dep_not_suffixed.
  - intros v (o & -> & Ho)%list_elem_of_fmap.
    apply list_elem_of_fmap in Ho as (o' & -> & Ho).
    apply elem_of_join_joined in Ho as (i & k & l & x & Hk & Hl & ->).
    assert (l ∈ rows df1) as Hin.
    { apply list_elem_of_lookup_2 in Hl. unfold keep in Hl.
      apply list_elem_of_fmap in Hl as ([b l'] & -> & Hl).
      apply list_elem_of_filter in Hl as [_ Hl].
      by apply elem_of_zip_r in Hl. }
    assert (cell pl (reset (mkRow (ix l) (cells l ++ x))) = cell pl l) as ->.
    { unfold cell, reset. simpl. apply app_nth1.
      rewrite (wf_row_cells df1) by done. by eapply col_pos_lt. }
    assert ((cell pl <$> keep (mainland <$> codes) (rows df1)) !! i
            = Some (cell pl l)) as Hc.
    { by rewrite list_lookup_fmap, Hl. }
    rewrite <- keep_fmap, <- Hcol, keep_fmap, surviving_keep in Hc.
    rewrite list_lookup_fmap in Hc.
    destruct (surviving codes !! i) as [c|] eqn:Hci; [|done].
    injection Hc as <-. exists c. split; [done|].
    apply list_elem_of_lookup_2 in Hci.
    apply list_elem_of_filter in Hci as [Hm Hci]. split; [done|].
    unfold mainland in Hm. by destruct (contains "Z" c).
  - set (mask := mainland <$> codes).
    destruct (merge_referendum_and_areas_returns r a
                (<[r := boolean_filter df mask]> h)
                (boolean_filter df mask) areas (surviving codes) acs)
      as (df2 & pl2 & pr2 & Hset2 & Hpl2 & Hpr2 & ->); try done.
    + by rewrite lookup_insert_eq.
    + by apply wf_boolean_filter.
    + by rewrite lookup_insert_ne.
    + rewrite <- surviving_keep. by apply dept_codes_boolean_filter.
    + pose proof (setitem_boolean_filter _ _ _ _ mask Hset) as Hset'.
      rewrite keep_fmap in Hset'. unfold mask in Hset'.
      rewrite surviving_keep in Hset'. fold mask in Hset'.
      rewrite Hset' in Hset2. injection Hset2 as <-.
      simpl in Hpl2. assert (pl2 = pl) as -> by congruence.
      assert (pr2 = pr) as -> by congruence.
      simpl. rewrite surviving_idemp.
      rewrite (keep_all (keep mask (rows df1))); [done| |].
      * rewrite length_fmap, <- surviving_keep. apply length_keep_same.
        apply setitem_Ok in Hset as (Hlen & _ & ->). simpl.
        rewrite length_zip_with, length_fmap in *. lia.
      * apply mainland_surviving.
Qed.

Lemma overseas_records_are_dropped_witness :
  ∃ out h' s,
    merge_referendum_and_areas 0%nat 1%nat ex_store = (Ok out, h') ∧
    getitem out "code_dep" = Ok s ∧
    (∀ v, v ∈ s →
       ∃ c, v = VStr c ∧ c ∈ ["01"; "01"; "ZA"; "75"; "971"] ∧
            contains "Z" c = false) ∧
    (merge_referendum_and_areas 0%nat 1%nat
       (<[0%nat := boolean_filter ex_referendum
                     (mainland <$> ["01"; "01"; "ZA"; "75"; "971"])]>
          ex_store)).1 = Ok out.
Proof.
  apply (overseas_records_are_dropped 0%nat 1%nat ex_store
           ex_referendum ex_areas _ ["01"; "2A"; "75"]).
  - reflexivity.
  - vm_compute. repeat constructor.
  - lia.
  - reflexivity.
  - reflexivity.
  - vm_compute. lia.
  - reflexivity.
Defined.

(** ** The order of the grouping keys *)

Lemma key_le_nil k : key_le [] k.
Proof. done. Qed.

Lemma key_le_cons_nil a k : ¬ key_le (a :: k) [].
Proof. unfold key_le. simpl. congruence. Qed.

Lemma str_lt_irrefl a : ¬ OrdersEx.String_as_OT.lt a a.
Proof. apply (irreflexivity OrdersEx.String_as_OT.lt). Qed.

Lemma str_lt_trans a b c :
  OrdersEx.String_as_OT.lt a b → OrdersEx.String_as_OT.lt b c →
  OrdersEx.String_as_OT.lt a c.
Proof. apply (transitivity (R:=OrdersEx.String_as_OT.lt)). Qed.

Lemma str_lt_asym a b :
  OrdersEx.String_as_OT.lt a b → ¬ OrdersEx.String_as_OT.lt b a.
Proof. intros H1 H2. apply (str_lt_irrefl a). by eapply str_lt_trans. Qed.

Lemma key_le_cons a k1 b k2 :
  key_le (a :: k1) (b :: k2) ↔
  OrdersEx.String_as_OT.lt a b ∨ (a = b ∧ key_le k1 k2).
Proof.
  unfold key_le. simpl.
  destruct (OrdersEx.String_as_OT.compare_spec a b) as [Heq|Hlt|Hgt].
  - assert (a = b) as -> by exact Heq.
    split; [auto|]. intros [H|[_ H]]; [|done].
    by apply str_lt_irrefl in H.
  - split; auto.
  - split; [done|]. intros [H|[-> _]]; exfalso.
    + by eapply str_lt_asym.
    + by apply str_lt_irrefl in Hgt.
Qed.

Global Instance key_le_total : Total key_le.
Proof.
  intros k1. induction k1 as [|a k1 IH]; intros [|b k2].
  - by left.
  - by left.
  - by right.
  - rewrite !key_le_cons.
    destruct (OrdersEx.String_as_OT.compare_spec a b) as [Heq|Hlt|Hgt];
      [|by left; left|by right; left].
    assert (a = b) as -> by exact Heq.
    destruct (IH k2); [left|right]; by right.
Qed.

Global Instance key_le_trans : Transitive key_le.
Proof.
  intros k1. induction k1 as [|a k1 IH]; intros k2 k3;
    [intros; apply key_le_nil|].
  destruct k2 as [|b k2]; [by intros ?%key_le_cons_nil|].
  destruct k3 as [|c k3]; [by intros _ ?%key_le_cons_nil|].
  - rewrite !key_le_cons.
    intros [H1|[-> H1]] [H2|[-> H2]].
    + left. by eapply str_lt_trans.
    + by left.
    + by left.
    + right. split; [done|]. by eapply IH.
Qed.

Global Instance key_le_antisymm : AntiSymm (=) key_le.
Proof.
  intros k1. induction k1 as [|a k1 IH]; intros k2.
  { destruct k2; [done|]. by intros _ ?%key_le_cons_nil. }
  destruct k2 as [|b k2]; [by intros ?%key_le_cons_nil|].
  - rewrite !key_le_cons.
    intros [H1|[-> H1]] [H2|[E H2]].
    + exfalso. by eapply str_lt_asym.
    + subst. by apply str_lt_irrefl in H1.
    + by apply str_lt_irrefl in H2.
    + f_equal. by apply IH.
Qed.

Lemma group_keys_sorted {A} (keyed : list (option (list string) * A)) :
  StronglySorted key_le (group_keys keyed).
Proof. apply StronglySorted_merge_sort; apply _. Qed.

Lemma group_keys_NoDup {A} (keyed : list (option (list string) * A)) :
  NoDup (group_keys keyed).
Proof.
  unfold group_keys. rewrite merge_sort_Permutation. apply NoDup_remove_dups.
Qed.

Lemma elem_of_group_keys {A} (keyed : list (option (list string) * A)) k :
  k ∈ group_keys keyed ↔ ∃ v, (Some k, v) ∈ keyed.
Proof.
  unfold group_keys.
  rewrite merge_sort_Permutation, elem_of_remove_dups, list_elem_of_omap.
  split.
  - intros ([ko v] & Hin & Hk). simpl in Hk. subst. eauto.
  - intros [v Hin]. by exists (Some k, v).
Qed.

Lemma group_keys_Permutation {A} (k1 k2 : list (option (list string) * A)) :
  k1 ≡ₚ k2 → group_keys k1 = group_keys k2.
Proof.
  intros Hp. apply (StronglySorted_unique key_le).
  - apply group_keys_sorted.
  - apply group_keys_sorted.
  - unfold group_keys. rewrite !merge_sort_Permutation.
    apply NoDup_Permutation; [apply NoDup_remove_dups..|].
    intros k. rewrite !elem_of_remove_dups. by rewrite Hp.
Qed.

(** ** The rows of [compute_referendum_result_by_regions] *)

Lemma compute_referendum_result_by_regions_unfold df :
  compute_referendum_result_by_regions df =
  (p1 ← col_pos "code_reg" (columns df);
   p2 ← col_pos "name_reg" (columns df);
   vps ← traverse (λ c, col_pos c (columns df)) numeric_columns;
   keyed ← traverse (keyed_row [p1; p2] vps) (rows df);
   Ok (mkDF ["code_reg"] ("name_reg" :: numeric_columns)
         (result_row keyed <$> group_keys keyed))).
Proof.
  unfold compute_referendum_result_by_regions, groupby, agg,
    numeric_columns.
  cbn [traverse by_labels grouped fst fmap list_fmap length].
  destruct (col_pos "code_reg" (columns df)) as [p1|] eqn:H1; [|reflexivity].
  destruct (col_pos "name_reg" (columns df)) as [p2|] eqn:H2; [|reflexivity].
  cbn [mbind result_bind traverse by_labels grouped].
  rewrite H1, H2.
  cbn [mbind result_bind traverse by_labels grouped].
  destruct (col_pos "Registered" (columns df)) as [v1|]; [|reflexivity].
  destruct (col_pos "Abstentions" (columns df)) as [v2|]; [|reflexivity].
  destruct (col_pos "Null" (columns df)) as [v3|]; [|reflexivity].
  destruct (col_pos "Choice A" (columns df)) as [v4|]; [|reflexivity].
  destruct (col_pos "Choice B" (columns df)) as [v5|]; [|reflexivity].
  cbn [mbind result_bind].
  destruct (traverse (keyed_row [p1; p2] [v1; v2; v3; v4; v5]) (rows df))
    as [keyed|]; [|reflexivity].
  cbn [mbind result_bind]. unfold reset_index. cbn [index_names columns rows].
  rewrite bool_decide_false.
  2:{ intros H. apply Exists_exists in H as (n & Hn & Hin).
      repeat (apply elem_of_cons in Hn as [->|Hn]);
        [| |by apply elem_of_nil in Hn];
        repeat (apply elem_of_cons in Hin as [Hin|Hin]; [discriminate Hin|]);
        by apply elem_of_nil in Hin. }
  cbn [mbind result_bind]. unfold set_index. cbn [index_names columns rows].
  change (col_pos "code_reg" _) with (Ok (A:=nat) 0%nat).
  cbn [mbind result_bind]. f_equal. f_equal.
  by rewrite <- !list_fmap_compose.
Qed.

Lemma group_key_pair p1 p2 r k :
  group_key [p1; p2] r = Ok (Some k) ↔
  ∃ R N, k = [R; N] ∧ cell p1 r = VStr R ∧ cell p2 r = VStr N.
Proof.
  unfold group_key. simpl.
  destruct (cell p1 r) as [|R|[]|]; simpl;
    try (split; [done|by intros (? & ? & ? & ? & ?)]);
    destruct (cell p2 r) as [|N|[]|]; simpl;
    try (split; [done|by intros (? & ? & ? & ? & ?)]).
  split.
  - intros [= <-]. eauto.
  - intros (R' & N' & -> & [= <-] & [= <-]). done.
Qed.

Lemma keyed_row_Some p1 p2 vps r k v :
  keyed_row [p1; p2] vps r = Ok (Some k, v) →
  ∃ R N, k = [R; N] ∧ cell p1 r = VStr R ∧ cell p2 r = VStr N.
Proof.
  unfold keyed_row. intros H. inv_bind H. injection H as -> ->.
  by apply group_key_pair.
Qed.

Lemma group_keys_pairs p1 p2 vps rs keyed k :
  traverse (keyed_row [p1; p2] vps) rs = Ok keyed →
  k ∈ group_keys keyed → ∃ R N, k = [R; N].
Proof.
  intros H [v (i & Hi)%list_elem_of_lookup_1]%elem_of_group_keys.
  destruct (traverse_lookup_r _ _ _ _ _ H Hi) as (r & _ & Hr).
  apply keyed_row_Some in Hr as (R & N & -> & _). eauto.
Qed.

(** C10.  The rows of the table that
    [compute_referendum_result_by_regions] returns are in ascending order
    of their key (region code, region name), each key once, whatever the
    order of the rows of the input: the region code of a row is its index
    and the region name its first column. *)
Theorem result_rows_sorted_by_key (df res : DataFrame) :
  compute_referendum_result_by_regions df = Ok res →
  ∃ ks : list (list string),
    (λ o, ix o ++ take 1 (cells o)) <$> rows res = fmap VStr <$> ks ∧
    StronglySorted key_le ks ∧ NoDup ks.
Proof.
  rewrite compute_referendum_result_by_regions_unfold. intros H.
  inv_bind H. injection H as <-. rename x2 into keyed.
  exists (group_keys keyed). split_and!.
  - cbn [rows]. rewrite <- list_fmap_compose.
    apply list_fmap_ext. intros i k Hk%list_elem_of_lookup_2.
    destruct (group_keys_pairs _ _ _ _ _ _ Hx2 Hk) as (R & N & ->).
    done.
  - apply group_keys_sorted.
  - apply group_keys_NoDup.
Qed.

Lemma result_rows_sorted_by_key_witness :
  ∃ ks : list (list string),
    (λ o, ix o ++ take 1 (cells o)) <$> rows ex_results = fmap VStr <$> ks ∧
    StronglySorted key_le ks ∧ NoDup ks.
Proof.
  apply (result_rows_sorted_by_key ex_joined ex_results).
  vm_compute. reflexivity.
Defined.

(** The table that the aggregation returns has the shape that
    [plot_referendum_map] expects. *)
Lemma compute_referendum_result_by_regions_shape df res :
  compute_referendum_result_by_regions df = Ok res → regional_results res.
Proof.
  rewrite compute_referendum_result_by_regions_unfold. intros H.
  inv_bind H. injection H as <-. rename x2 into keyed.
  assert (∀ o, o ∈ result_row keyed <$> group_keys keyed →
            ∃ R N, o = mkRow [VStr R] (VStr N :: sums keyed [R; N]))
    as Hrows.
  { intros o (k & -> & Hk)%list_elem_of_fmap.
    destruct (group_keys_pairs _ _ _ _ _ _ Hx2 Hk) as (R & N & ->).
    by exists R, N. }
  assert (∀ j, (j < 5)%nat →
            is_Ok (traverse as_int
                     (cell (S j) <$> (result_row keyed <$> group_keys keyed))))
    as Hint.
  { intros j Hj.
    destruct (traverse_total as_int
                (cell (S j) <$> (result_row keyed <$> group_keys keyed)))
      as [ns ->]; [|done].
    intros v (o & -> & Ho)%list_elem_of_fmap.
    destruct (Hrows o Ho) as (R & N & ->).
    do 5 (destruct j as [|j]; [by eexists|]). lia. }
  unfold regional_results. split_and!.
  - apply Forall_forall. intros o Ho.
    by destruct (Hrows o Ho) as (R & N & ->).
  - done.
  - apply Forall_forall. intros o Ho.
    by destruct (Hrows o Ho) as (R & N & ->).
  - apply (Hint 3%nat). lia.
  - apply (Hint 4%nat). lia.
  - vm_compute. lia.
Qed.

(** The index of the result holds strings: the region codes of the
    groups. *)
Lemma compute_referendum_result_by_regions_index df res :
  compute_referendum_result_by_regions df = Ok res →
  ∃ rcodes, ix <$> rows res = (λ R, [VStr R]) <$> rcodes.
Proof.
  rewrite compute_referendum_result_by_regions_unfold. intros H.
  inv_bind H. injection H as <-. rename x2 into keyed.
  exists ((λ k, nth 0 k "") <$> group_keys keyed).
  cbn [rows]. rewrite <- !list_fmap_compose.
  apply list_fmap_ext. intros _ k Hk%list_elem_of_lookup_2.
  by destruct (group_keys_pairs _ _ _ _ _ _ Hx2 Hk) as (R & N & ->).
Qed.

(** ** The order of the input rows *)

Lemma traverse_Raise {A B} (f : A → result B) l e :
  traverse f l = Raise e → ∃ a, a ∈ l ∧ f a = Raise e.
Proof.
  induction l as [|a l IH]; simpl; [done|].
  destruct (f a) as [b|e'] eqn:Ha; simpl.
  - destruct (traverse f l) as [bs|e'']; simpl; [done|].
    intros [= ->]. destruct IH as (a' & Hin & Ha'); [done|].
    exists a'. split; [by right|done].
  - intros [= ->]. exists a. split; [left|done].
Qed.

(** When every exception of [f] is the same, the outcome of [traverse]
    on a permuted list is the permuted outcome. *)
Lemma traverse_Permutation {A B} (f : A → result B) e0 l1 l2 :
  (∀ a e, f a = Raise e → e = e0) → l1 ≡ₚ l2 →
  (∃ b1 b2, traverse f l1 = Ok b1 ∧ traverse f l2 = Ok b2 ∧ b1 ≡ₚ b2) ∨
  (traverse f l1 = Raise e0 ∧ traverse f l2 = Raise e0).
Proof.
  intros He Hp.
  assert (∀ l e, traverse f l = Raise e → e = e0) as He'.
  { intros l e (a & _ & Ha)%traverse_Raise. by eapply He. }
  induction Hp as [|x l1 l2 Hp IH|x y l|l1 l2 l3 Hp1 IH1 Hp2 IH2].
  - left. by exists [], [].
  - simpl. destruct (f x) as [b|e] eqn:Hx; simpl.
    + destruct IH as [(b1 & b2 & -> & -> & Hb)|[-> ->]]; simpl.
      * left. exists (b :: b1), (b :: b2).
        split_and!; [done..|]. by apply perm_skip.
      * by right.
    + apply He in Hx as ->. by right.
  - simpl.
    destruct (f x) as [bx|ex] eqn:Hx, (f y) as [by_|ey] eqn:Hy; simpl;
      try (apply He in Hx as ->); try (apply He in Hy as ->);
      try (by right).
    destruct (traverse f l) as [bs|e] eqn:Hl; simpl.
    + left. exists (by_ :: bx :: bs), (bx :: by_ :: bs).
      split_and!; [done..|]. apply perm_swap.
    + apply He' in Hl as ->. by right.
  - destruct IH1 as [(b1 & b2 & H1 & H2 & Hb)|[H1 H2]],
      IH2 as [(b2' & b3 & H2' & H3 & Hb')|[H2' H3]];
      try congruence.
    + left. exists b1, b3. split_and!; [done..|].
      assert (b2 = b2') as -> by congruence. by etrans.
    + by right.
Qed.

Lemma keyed_row_error kps vps r e :
  keyed_row kps vps r = Raise e → e = Unsupported.
Proof.
  unfold keyed_row, group_key.
  destruct (traverse (λ p, key_part (cell p r)) kps) as [parts|e1] eqn:H1;
    simpl.
  - destruct (traverse (λ p, as_int (cell p r)) vps) as [v|e2] eqn:H2;
      simpl; [done|].
    intros [= <-]. apply traverse_Raise in H2 as (p & _ & Hp).
    destruct (cell p r); simpl in Hp; congruence.
  - intros [= <-]. apply traverse_Raise in H1 as (p & _ & Hp).
    destruct (cell p r) as [| |[]|]; simpl in Hp; congruence.
Qed.

Lemma total_Permutation l1 l2 : l1 ≡ₚ l2 → total l1 = total l2.
Proof.
  unfold total. induction 1; simpl; [done|congruence|apply add64_swap|congruence].
Qed.

Lemma sums_Permutation k1 k2 k : k1 ≡ₚ k2 → sums k1 k = sums k2 k.
Proof.
  intros Hp. unfold sums. apply list_fmap_ext. intros _ j _. f_equal.
  apply total_Permutation. unfold members. by rewrite Hp.
Qed.

(** C9.  Two tables with the same columns whose rows are a permutation of
    each other have the same result: [compute_referendum_result_by_regions]
    returns the same table on both, or raises on both (a [KeyError] for the
    same missing column). *)
Theorem row_order_does_not_matter (df1 df2 : DataFrame) :
  index_names df1 = index_names df2 → columns df1 = columns df2 →
  rows df1 ≡ₚ rows df2 →
  compute_referendum_result_by_regions df1 =
  compute_referendum_result_by_regions df2.
Proof.
  intros _ Hcols Hrows.
  rewrite !compute_referendum_result_by_regions_unfold, Hcols.
  destruct (col_pos "code_reg" (columns df2)) as [p1|]; [|done].
  destruct (col_pos "name_reg" (columns df2)) as [p2|]; [|done].
  cbn [mbind result_bind].
  destruct (traverse _ numeric_columns) as [vps|]; [|done].
  cbn [mbind result_bind].
  destruct (traverse_Permutation (keyed_row [p1; p2] vps) Unsupported
              (rows df1) (rows df2))
    as [(k1 & k2 & -> & -> & Hk)|[-> ->]];
    [apply keyed_row_error|done| |done].
  cbn [mbind result_bind]. do 2 f_equal.
  rewrite (group_keys_Permutation k1 k2) by done.
  apply list_fmap_ext. intros _ k _. unfold result_row.
  by rewrite (sums_Permutation k1 k2).
Qed.

Lemma row_order_does_not_matter_witness :
  compute_referendum_result_by_regions ex_joined_reordered =
  compute_referendum_result_by_regions ex_joined.
Proof.
  apply (row_order_does_not_matter ex_joined_reordered ex_joined).
  - reflexivity.
  - reflexivity.
  - apply reverse_Permutation.
Defined.

(** ** The sums of a group *)

Lemma keyed_row_values kps vps r ko v j vj :
  keyed_row kps vps r = Ok (ko, v) → vps !! j = Some vj →
  cell vj r = VInt (nth j v 0).
Proof.
  unfold keyed_row. intros H Hj. inv_bind H. injection H as _ <-.
  destruct (traverse_lookup _ _ _ _ _ Hx0 Hj) as (n & Hn & Hc).
  rewrite nth_lookup, Hn. simpl.
  destruct (cell vj r); simpl in Hc; by simplify_eq.
Qed.

Lemma members_sum p1 p2 vps rs keyed j vj R N :
  traverse (keyed_row [p1; p2] vps) rs = Ok keyed → vps !! j = Some vj →
  total ((λ v, nth j v 0) <$> members [R; N] keyed) =
  sum_over (in_region_named R N (cell p1 <$> rs) (cell p2 <$> rs))
    (cell vj <$> rs).
Proof.
  rewrite traverse_Ok. intros H Hj.
  induction H as [|r [ko v] rs keyed Hr H IH]; [done|].
  unfold members, sum_over, in_region_named in *. csimpl.
  rewrite filter_cons, keep_cons. simpl.
  rewrite (keyed_row_values _ _ _ _ _ _ _ Hr Hj).
  assert (ko = Some [R; N] ↔ cell p1 r = VStr R ∧ cell p2 r = VStr N)
    as Hiff.
  { unfold keyed_row in Hr. inv_bind Hr. injection Hr as -> _. split.
    - intros ->.
      by apply group_key_pair in Hx as (R' & N' & [= <- <-] & ? & ?).
    - intros [H1 H2].
      assert (group_key [p1; p2] r = Ok (Some [R; N])) as H'
        by (apply group_key_pair; eauto).
      congruence. }
  case_decide as Hk; case_bool_decide as Hc; try tauto.
  csimpl. unfold total in *. simpl. by rewrite IH.
Qed.

Lemma traverse_col_pos_numeric cols vps :
  traverse (λ c, col_pos c cols) numeric_columns = Ok vps →
  ∀ j c, numeric_columns !! j = Some c →
    ∃ vj, vps !! j = Some vj ∧ col_pos c cols = Ok vj.
Proof.
  intros H j c Hc.
  destruct (traverse_lookup _ _ _ _ _ H Hc) as (vj & ? & ?). eauto.
Qed.

Lemma in_region_named_unique R N (codes names : Series) :
  length codes = length names →
  (∀ j, codes !! j = Some (VStr R) → names !! j = Some (VStr N)) →
  in_region_named R N codes names = in_region R codes.
Proof.
  intros Hlen Hname. apply list_eq. intros j.
  unfold in_region_named, in_region.
  rewrite lookup_zip_with, list_lookup_fmap.
  destruct (codes !! j) as [c|] eqn:Hc; [|done]. simpl.
  destruct (names !! j) as [n|] eqn:Hn; simpl.
  - f_equal. apply bool_decide_ext. split; [by intros [? _]|].
    intros ->. split; [done|]. apply Hname in Hc. congruence.
  - apply lookup_ge_None in Hn. apply lookup_lt_Some in Hc. lia.
Qed.

(** C1, as the code has it.  The groups are the pairs (region code, region
    name): for every row of the table returned, of index [R] and name [N],
    each of the five numeric columns is the sum of that column over the
    input rows whose region code is [R] and whose region name is [N].  This
    is the sum over all the input rows of region code [R] when each of them
    carries the name [N]. *)
Theorem sums_by_region_and_name (df res : DataFrame) (codes names : Series) :
  compute_referendum_result_by_regions df = Ok res →
  getitem df "code_reg" = Ok codes → getitem df "name_reg" = Ok names →
  ∃ names_out,
    getitem res "name_reg" = Ok names_out ∧
    ∀ c, c ∈ numeric_columns →
      ∃ vals sums_out,
        getitem df c = Ok vals ∧ getitem res c = Ok sums_out ∧
        ∀ i o, rows res !! i = Some o →
          ∃ R N, ix o = [VStr R] ∧ names_out !! i = Some (VStr N) ∧
            sums_out !! i =
            Some (VInt (sum_over (in_region_named R N codes names) vals)) ∧
            ((∀ j, codes !! j = Some (VStr R) → names !! j = Some (VStr N)) →
             sums_out !! i = Some (VInt (sum_over (in_region R codes) vals))).
Proof.
  rewrite compute_referendum_result_by_regions_unfold. intros H Hc Hn.
  inv_bind H. injection H as <-.
  rename x into p1, x0 into p2, x1 into vps, x2 into keyed.
  unfold getitem in Hc, Hn. rewrite Hx in Hc. rewrite Hx0 in Hn.
  simpl in Hc, Hn. injection Hc as <-. injection Hn as <-.
  eexists. split; [reflexivity|].
  intros c (j & Hj)%list_elem_of_lookup_1.
  destruct (traverse_col_pos_numeric _ _ Hx1 j c Hj) as (vj & Hvj & Hcol).
  exists (cell vj <$> rows df).
  exists (cell (S j) <$> (result_row keyed <$> group_keys keyed)).
  split; [unfold getitem; by rewrite Hcol|]. split.
  { unfold getitem. cbn [columns rows].
    assert (col_pos c ("name_reg" :: numeric_columns) = Ok (S j)) as ->;
      [|done].
    do 5 (destruct j as [|j]; [by injection Hj as <-|]). done. }
  cbn [rows]. intros i o Ho.
  rewrite list_lookup_fmap in Ho.
  destruct (group_keys keyed !! i) as [k|] eqn:Hk; [|done].
  injection Ho as <-.
  destruct (group_keys_pairs _ _ _ _ _ k Hx2) as (R & N & ->).
  { by eapply list_elem_of_lookup_2. }
  exists R, N. rewrite !list_lookup_fmap, Hk. simpl.
  split; [done|]. split; [done|].
  assert (cell (S j) (result_row keyed [R; N]) =
          VInt (sum_over (in_region_named R N (cell p1 <$> rows df)
                            (cell p2 <$> rows df))
                  (cell vj <$> rows df))) as ->.
  { rewrite <- (members_sum p1 p2 vps (rows df) keyed j vj R N) by done.
    unfold cell. simpl. unfold sums.
    assert (j < 5)%nat as Hlt by (by apply lookup_lt_Some in Hj).
    do 5 (destruct j as [|j]; [done|]). lia. }
  split; [done|]. intros Hname.
  rewrite in_region_named_unique; [done| |done].
  by rewrite !length_fmap.
Qed.

Lemma sums_by_region_and_name_witness :
  ∃ names_out,
    getitem ex_results "name_reg" = Ok names_out ∧
    ∀ c, c ∈ numeric_columns →
      ∃ vals sums_out,
        getitem ex_joined c = Ok vals ∧ getitem ex_results c = Ok sums_out ∧
        ∀ i o, rows ex_results !! i = Some o →
          ∃ R N, ix o = [VStr R] ∧ names_out !! i = Some (VStr N) ∧
            sums_out !! i =
            Some (VInt (sum_over
                          (in_region_named R N
                             [VStr "84"; VStr "84"; VStr "11"]
                             [VStr "Auvergne-Rhone-Alpes";
                              VStr "Auvergne-Rhone-Alpes";
                              VStr "Ile-de-France"])
                          vals)) ∧
            ((∀ j, [VStr "84"; VStr "84"; VStr "11"] !! j = Some (VStr R) →
                   [VStr "Auvergne-Rhone-Alpes"; VStr "Auvergne-Rhone-Alpes";
                    VStr "Ile-de-France"] !! j = Some (VStr N)) →
             sums_out !! i =
             Some (VInt (sum_over
                           (in_region R [VStr "84"; VStr "84"; VStr "11"])
                           vals))).
Proof.
  apply (sums_by_region_and_name ex_joined ex_results).
  - vm_compute. reflexivity.
  - reflexivity.
  - reflexivity.
Defined.

(** C1 as stated fails when a region code comes with two names: the table
    then has two rows of index ["84"], and neither holds the sum over all
    the input rows of region code ["84"]. *)
Lemma sums_split_by_region_name :
  compute_referendum_result_by_regions ex_two_names = Ok ex_two_names_results ∧
  ix <$> rows ex_two_names_results = [[VStr "84"]; [VStr "84"]] ∧
  getitem ex_two_names_results "Registered" = Ok [VInt 100; VInt 50] ∧
  sum_over (in_region "84" [VStr "84"; VStr "84"]) [VInt 100; VInt 50] = 150.
Proof. split_and!; by vm_compute. Qed.

(** * Further properties of the four stages *)

(** ** Padding and the number of a code *)

(** X4.  On a column [Department code] of integers and strings, none of
    them absent, the code that [merge_referendum_and_areas] writes denotes
    the number of the department code it comes from, whatever its length;
    it has as many characters as the text of that code, and two when the
    text is shorter; and a code whose text has two characters or more is
    that text.  The characters are counted as Python counts them, not the
    bytes. *)
Theorem code_dep_keeps_number (r a : ref) (h : gmap nat DataFrame)
    (df : DataFrame) (s : Series) (codes : list string) :
  h !! r = Some df → wf df →
  getitem df "Department code" = Ok s → dept_codes df = Ok codes →
  nan ∉ s →
  (length (positions "code_dep" (columns df)) ≤ 1)%nat →
  ∃ df', (merge_referendum_and_areas r a h).2 !! r = Some df' ∧
    getitem df' "code_dep" = Ok (VStr <$> codes) ∧
    ∀ i v t, s !! i = Some v → astype_str v = Ok t →
      ∃ c, codes !! i = Some c ∧
           (∀ n, numeric v = Some n → int_of_str c = Some n) ∧
           len c = max 2 (len t) ∧
           ((2 ≤ len t)%nat → c = t).
Proof.
  intros Hr Hwf Hs Hcodes _ Hpos.
  rewrite (merge_referendum_and_areas_run r a h df) by done.
  rewrite Hcodes.
  destruct (setitem_total df "code_dep" (VStr <$> codes)) as [df1 Hset];
    [|done|].
  { rewrite length_fmap. by apply dept_codes_length. }
  rewrite Hset. simpl. exists df1. rewrite lookup_insert_eq.
  split; [done|]. split; [by eapply getitem_setitem|].
  intros i v t Hv Ht.
  destruct (dept_codes_lookup df s codes i v) as (c & Hc & Hn); try done.
  exists c. split; [done|].
  unfold normalize in Hn. rewrite Ht in Hn. simpl in Hn. injection Hn as <-.
  split_and!.
  - intros n Hnum. apply int_of_str_zfill_any.
    by eapply numeric_astype_str.
  - apply len_zfill.
  - apply zfill_long.
Qed.

Lemma code_dep_keeps_number_witness :
  ∃ df', (merge_referendum_and_areas 0%nat 1%nat
            (<[0%nat := ex_accents]> ex_store)).2 !! 0%nat = Some df' ∧
    getitem df' "code_dep" = Ok (VStr <$> ["0é"; "-7"; "2z"; "1234"; "9Z"]) ∧
    ∀ i v t,
      [VStr "é"; VInt (-7); VStr "2z"; VInt 1234; VStr "9Z"] !! i = Some v →
      astype_str v = Ok t →
      ∃ c, ["0é"; "-7"; "2z"; "1234"; "9Z"] !! i = Some c ∧
           (∀ n, numeric v = Some n → int_of_str c = Some n) ∧
           len c = max 2 (len t) ∧
           ((2 ≤ len t)%nat → c = t).
Proof.
  apply (code_dep_keeps_number 0%nat 1%nat (<[0%nat := ex_accents]> ex_store)
           ex_accents).
  - reflexivity.
  - vm_compute. repeat constructor.
  - reflexivity.
  - reflexivity.
  - by_compute.
  - vm_compute. lia.
Defined.

(** ** The filter on Z *)

Lemma index_0_char a s :
  String.index 0 (String a "") s = None ↔ a ∉ list_ascii_of_string s.
Proof.
  induction s as [|c s IH]; simpl.
  - split; [|done]. intros _ H. by apply elem_of_nil in H.
  - rewrite not_elem_of_cons. destruct (ascii_dec a c) as [->|Hne].
    + destruct s; simpl; (split; [done|by intros [? _]]).
    + destruct (String.index 0 (String a "") s) as [j|] eqn:Hj.
      * split; [done|]. intros [_ H]. by apply IH in H.
      * split; [|done]. intros _. split; [done|]. by apply IH.
Qed.

(** A code passes the filter exactly when none of its characters is a
    capital Z. *)
Lemma mainland_no_Z c :
  mainland c = true ↔ "Z"%char ∉ list_ascii_of_string c.
Proof.
  unfold mainland, contains. rewrite <- index_0_char.
  by destruct (String.index 0 "Z" c).
Qed.

Lemma mainland_no_Z_eq c : mainland c = no_Z c.
Proof.
  unfold no_Z. destruct (mainland c) eqn:Hm.
  - symmetry. apply bool_decide_eq_true. by apply mainland_no_Z.
  - symmetry. apply bool_decide_eq_false. rewrite <- mainland_no_Z. congruence.
Qed.

(** X5.  The filter of [merge_referendum_and_areas] looks for the capital
    letter, wherever it stands: the call sets [code_dep] on the caller's
    table and returns the join with the areas of the records none of whose
    characters is a capital Z; a record with a z in lower case is kept for
    the join. *)
Theorem codes_without_Z_pass (r a : ref) (h : gmap nat DataFrame)
    (df areas : DataFrame) (codes : list string) :
  h !! r = Some df → wf df → r ≠ a → h !! a = Some areas →
  dept_codes df = Ok codes →
  (length (positions "code_dep" (columns df)) ≤ 1)%nat →
  ∃ df1,
    setitem df "code_dep" (VStr <$> codes) = Ok df1 ∧
    merge_referendum_and_areas r a h =
      (merge (boolean_filter df1 (no_Z <$> codes)) areas "code_dep" Inner,
       <[r := df1]> h).
Proof.
  intros Hr Hwf Hne Ha Hcodes Hpos.
  rewrite (merge_referendum_and_areas_run r a h df) by done.
  rewrite Hcodes.
  destruct (setitem_total df "code_dep" (VStr <$> codes)) as [df1 Hset];
    [|done|].
  { rewrite length_fmap. by apply dept_codes_length. }
  rewrite Hset, lookup_insert_ne, Ha by done.
  exists df1. split; [done|]. do 3 f_equal.
  apply list_fmap_ext. intros _ c _. apply mainland_no_Z_eq.
Qed.

Lemma codes_without_Z_pass_witness :
  ∃ df1,
    setitem ex_accents "code_dep" (VStr <$> ["0é"; "-7"; "2z"; "1234"; "9Z"])
      = Ok df1 ∧
    merge_referendum_and_areas 0%nat 1%nat (<[0%nat := ex_accents]> ex_store) =
      (merge (boolean_filter df1 (no_Z <$> ["0é"; "-7"; "2z"; "1234"; "9Z"]))
         ex_areas "code_dep" Inner,
       <[0%nat := df1]> (<[0%nat := ex_accents]> ex_store)).
Proof.
  apply (codes_without_Z_pass 0%nat 1%nat (<[0%nat := ex_accents]> ex_store)
           ex_accents ex_areas).
  - reflexivity.
  - vm_compute. repeat constructor.
  - lia.
  - reflexivity.
  - reflexivity.
  - vm_compute. lia.
Defined.

(** The records of the example that pass: the one with a z in lower case
    does, the one with a capital Z does not. *)
Example ex_no_Z :
  no_Z <$> ["0é"; "-7"; "2z"; "1234"; "9Z"] = [true; true; true; true; false].
Proof. reflexivity. Qed.

(** ** Errors and duplicates in [merge_regions_and_departments] *)

(** X1.  The call fails on a table of departments without region codes,
    before it reads the regions: the exception names the label after
    renaming. *)
Theorem departments_without_region_code (regions departments : DataFrame) :
  "region_code" ∉ columns departments → "code_reg" ∉ columns departments →
  merge_regions_and_departments regions departments =
  Raise (KeyError "code_reg").
Proof.
  intros H1 H2. unfold merge_regions_and_departments, select.
  cbn [traverse columns rename].
  assert (col_pos "code_reg"
            (renamed [("region_code", "code_reg"); ("code", "code_dep");
                      ("name", "name_dep")] <$> columns departments)
          = Raise (KeyError "code_reg")) as ->; [|done].
  unfold col_pos.
  assert (positions "code_reg"
            (renamed [("region_code", "code_reg"); ("code", "code_dep");
                      ("name", "name_dep")] <$> columns departments) = [])
    as ->; [|done].
  apply positions_nil. intros (d & Hd & Hin)%list_elem_of_fmap.
  cbn [renamed] in Hd.
  destruct (String.eqb_spec "region_code" d) as [Heq|?]; [by subst d|].
  destruct (String.eqb_spec "code" d) as [Heq|?]; [done|].
  destruct (String.eqb_spec "name" d) as [Heq|?]; [done|].
  by subst d.
Qed.

Lemma departments_without_region_code_witness :
  merge_regions_and_departments ex_regions ex_regions =
  Raise (KeyError "code_reg").
Proof.
  apply (departments_without_region_code ex_regions ex_regions).
  - apply (bool_decide_unpack _). vm_compute. exact I.
  - apply (bool_decide_unpack _). vm_compute. exact I.
Defined.








Example ex_regions_twice_rows :
  (λ out, length (rows out)) <$>
    merge_regions_and_departments ex_regions_twice ex_departments = Ok 4%nat.
Proof. reflexivity. Qed.

(** ** The order of the regions *)

Lemma traverse_elem_Ok {A B} (f : A → result B) l bs a :
  traverse f l = Ok bs → a ∈ l → ∃ b, f a = Ok b.
Proof.
  intros H (i & Hi)%list_elem_of_lookup_1.
  destruct (traverse_lookup _ _ _ _ _ H Hi) as (b & _ & Hb). eauto.
Qed.

Lemma traverse_is_Ok_Permutation {A B} (f : A → result B) l1 l2 :
  l1 ≡ₚ l2 → is_Ok (traverse f l1) → is_Ok (traverse f l2).
Proof.
  intros Hp [bs Hbs]%is_Ok_exists.
  destruct (traverse_total f l2) as [bs' ->]; [|done].
  intros a Ha. rewrite <- Hp in Ha. by eapply traverse_elem_Ok.
Qed.

Lemma zip_with_ext_elem {A B C} (f g : A → B → C) l k :
  (∀ a b, a ∈ l → f a b = g a b) → zip_with f l k = zip_with g l k.
Proof.
  revert k. induction l as [|a l IH]; intros [|b k] H; simpl; try done.
  rewrite H by left. f_equal. apply IH. intros; apply H; by right.
Qed.

(** The name of a region does not depend on the place of the region in
    the table. *)
Lemma region_name_Permutation (rc rn rc' rn' : Series) code :
  zip rc' rn' ≡ₚ zip rc rn →
  length rc = length rn → length rc' = length rn' → NoDup rc →
  is_Ok (traverse as_key rc) → is_Ok (as_key code) →
  region_name rc' rn' code = region_name rc rn code.
Proof.
  intros Hp Hlen Hlen' Hnd Hk Hcode.
  assert (rc' ≡ₚ rc) as Hpc.
  { rewrite <- (fst_zip rc' rn'), <- (fst_zip rc rn) by lia. by rewrite Hp. }
  assert (NoDup rc') as Hnd' by by rewrite Hpc.
  assert (is_Ok (traverse as_key rc')) as Hk'.
  { eapply traverse_is_Ok_Permutation; [|done]. done. }
  destruct (decide (code ∈ rc)) as [Hin|Hnin].
  - apply list_elem_of_lookup_1 in Hin as [j Hj].
    destruct (rn !! j) as [x|] eqn:Hx.
    2:{ apply lookup_ge_None in Hx. apply lookup_lt_Some in Hj. lia. }
    assert ((code, x) ∈ zip rc' rn') as Hin'.
    { rewrite Hp. apply (list_elem_of_lookup_2 _ j).
      apply lookup_zip_with_Some. eauto. }
    apply list_elem_of_lookup_1 in Hin' as [j' Hj'].
    apply lookup_zip_with_Some in Hj' as (c' & x' & [= <- <-] & Hc' & Hx').
    rewrite (region_name_found rc' rn' code j' x) by done.
    by rewrite (region_name_found rc rn code j x).
  - rewrite (region_name_absent rc rn code) by done.
    rewrite (region_name_absent rc' rn' code); [done|done|done|].
    by rewrite Hpc.
Qed.

Lemma traverse_as_key_Permutation (l l' : Series) ks :
  l ≡ₚ l' → traverse as_key l = Ok ks →
  ∃ ks', traverse as_key l' = Ok ks' ∧ ks ≡ₚ ks'.
Proof.
  intros Hp. revert ks.
  induction Hp as [|v l l' _ IH|v w l|l1 l2 l3 _ IH1 _ IH2]; intros ks H.
  - exists []. by injection H as <-.
  - simpl in H. inv_bind H. injection H as <-.
    destruct (IH _ Hx0) as (ks' & Hks' & Hp).
    exists (x :: ks'). simpl. rewrite Hx, Hks'. split; [done|].
    by constructor.
  - simpl in H. inv_bind H. injection H as <-.
    inv_bind Hx0. injection Hx0 as <-.
    exists (x1 :: x :: x2). simpl. rewrite Hx1, Hx, Hx2.
    split; [done|]. apply perm_swap.
  - destruct (IH1 _ H) as (ks2 & H2 & Hp2).
    destruct (IH2 _ H2) as (ks3 & H3 & Hp3).
    exists ks3. split; [done|]. by etrans.
Qed.

(** X3.  The table of [merge_regions_and_departments] depends on the regions
    through their pairs of a code and a name only, when the codes are unique:
    neither the order of the regions nor their other columns matter. *)
Theorem regions_order_does_not_matter (regions regions' departments : DataFrame)
    (rc rn rc' rn' dr dc dn : Series) :
  regions_table regions rc rn → regions_table regions' rc' rn' →
  departments_table departments dr dc dn →
  NoDup rc → zip rc' rn' ≡ₚ zip rc rn →
  merge_regions_and_departments regions' departments =
  merge_regions_and_departments regions departments.
Proof.
  intros Hreg Hreg' Hdep Hnd Hp.
  assert (length rc = length rn) as Hlen.
  { destruct Hreg as [H1 H2 _ _].
    apply getitem_length in H1, H2. congruence. }
  assert (length rc' = length rn') as Hlen'.
  { destruct Hreg' as [H1 H2 _ _].
    apply getitem_length in H1, H2. congruence. }
  assert (rc' ≡ₚ rc) as Hpc.
  { rewrite <- (fst_zip rc' rn'), <- (fst_zip rc rn) by lia. by rewrite Hp. }
  destruct (is_Ok_exists _ (departments_keys _ _ _ _ Hdep)) as [lk Hlk].
  destruct (is_Ok_exists _ (regions_keys _ _ _ Hreg)) as [rk Hrk].
  destruct (traverse_as_key_Permutation rc rc' rk) as (rk' & Hrk' & Hpk);
    [done|done|].
  rewrite (merge_regions_and_departments_rows regions _ rc rn dr dc dn lk rk)
    by done.
  rewrite (merge_regions_and_departments_rows regions' _ rc' rn' dr dc dn
             lk rk'); [|done|done|by rewrite Hpc|done|done].
  rewrite (check_dtypes_Permutation lk lk rk' rk) by done.
  destruct (check_dtypes lk rk) as [[]|e]; [|done].
  cbn [mbind result_bind].
  do 2 f_equal. apply zip_with_ext_elem. intros r cn Hr.
  do 3 f_equal. apply region_name_Permutation; try done.
  - by destruct Hreg.
  - destruct (traverse_elem_Ok _ _ _ _ Hlk Hr) as [k ->]. done.
Qed.

Lemma ex_regions_codes_unique : NoDup [VStr "84"; VStr "11"].
Proof. repeat constructor; not_in_list. Defined.

Lemma ex_regions_reordered_table :
  regions_table ex_regions_reordered
    [VStr "11"; VStr "84"] [VStr "Ile-de-France"; VStr "Auvergne-Rhone-Alpes"].
Proof.
  split; [reflexivity|reflexivity| |exact I].
  split; vm_compute; not_in_list.
Defined.

Lemma regions_order_does_not_matter_witness :
  merge_regions_and_departments ex_regions_reordered ex_departments =
  merge_regions_and_departments ex_regions ex_departments.
Proof.
  apply (regions_order_does_not_matter ex_regions ex_regions_reordered
           ex_departments _ _ _ _ _ _ _ ex_regions_table
           ex_regions_reordered_table ex_departments_table
           ex_regions_codes_unique).
  apply perm_swap.
Defined.

(** ** The rows of an inner join on a key that is unique on the right *)

Lemma join_joined_inner w (R : list (key * list value)) lk ls :
  NoDup R.*1 → length lk = length ls →
  mjoin (zip_with (joined Inner w R) lk ls) =
  (λ kl, mkRow (ix kl.2) (cells kl.2 ++ default [] (assoc kl.1 R)))
    <$> filter (λ kl, kl.1 ∈ R.*1) (zip lk ls).
Proof.
  intros Hnd. revert ls.
  induction lk as [|k lk IH]; intros [|l ls] Hlen; simpl in *; try done.
  rewrite IH by lia. rewrite filter_cons, joined_unique by done. simpl.
  destruct (assoc k R) as [x|] eqn:Hx.
  - pose proof (assoc_Some _ _ _ Hx) as Hin.
    apply (list_elem_of_fmap_2 fst) in Hin.
    rewrite decide_True by done. csimpl. by rewrite Hx.
  - apply assoc_None in Hx. by rewrite decide_False.
Qed.

Lemma filter_zip_keep {A B} (P : A → Prop) `{∀ a, Decision (P a)}
    (lk : list A) (ls : list B) :
  snd <$> filter (λ kl, P kl.1) (zip lk ls) =
  keep ((λ k, bool_decide (P k)) <$> lk) ls.
Proof.
  revert ls. induction lk as [|k lk IH]; intros [|l ls];
    try (by rewrite ?keep_nil_r).
  csimpl. rewrite filter_cons, keep_cons. simpl.
  case_decide as HP.
  - rewrite bool_decide_true by done. csimpl. by rewrite IH.
  - rewrite bool_decide_false by done. apply IH.
Qed.

Lemma filter_zip_fst {A B} (P : A → Prop) `{∀ a, Decision (P a)}
    (lk : list A) (ls : list B) :
  length lk = length ls →
  fst <$> filter (λ kl, P kl.1) (zip lk ls) = filter P lk.
Proof.
  revert ls. induction lk as [|k lk IH]; intros [|l ls] Hlen; try done.
  csimpl. rewrite !filter_cons. simpl. injection Hlen as Hlen.
  case_decide; csimpl; by rewrite IH.
Qed.

(** Two masks in a row are one mask. *)
Lemma keep_keep {A B} (f g : A → bool) (l0 : list A) (l : list B) :
  keep (g <$> filter (λ c, f c = true) l0) (keep (f <$> l0) l) =
  keep ((λ c, f c && g c) <$> l0) l.
Proof.
  revert l. induction l0 as [|c l0 IH]; intros [|x l];
    try (by rewrite ?keep_nil_r).
  csimpl. rewrite filter_cons, !keep_cons.
  case_decide as Hf.
  - rewrite Hf. csimpl. rewrite keep_cons.
    destruct (g c); simpl; by rewrite IH.
  - destruct (f c); [done|]. apply IH.
Qed.

(** ** The labels of a joined table *)

Lemma positions_NoDup c cols : NoDup (positions c cols).
Proof.
  induction cols as [|d cols IH]; simpl; [constructor|].
  apply NoDup_app. split_and!.
  - destruct (String.eqb d c); [apply NoDup_singleton|constructor].
  - intros p Hp (q & -> & _)%list_elem_of_fmap.
    destruct (String.eqb d c); [|by apply elem_of_nil in Hp].
    by apply list_elem_of_singleton in Hp.
  - by apply (NoDup_fmap_2 S).
Qed.

(** A label that stands at one place labels one column. *)
Lemma col_pos_unique c cols q :
  cols !! q = Some c → (∀ p, cols !! p = Some c → p = q) →
  col_pos c cols = Ok q.
Proof.
  intros Hq Huniq. apply col_pos_Ok.
  pose proof (positions_NoDup c cols) as Hnd.
  assert (q ∈ positions c cols) as Hin by by apply elem_of_positions.
  assert (∀ p, p ∈ positions c cols → p = q) as Hall.
  { intros p Hp%elem_of_positions. by apply Huniq. }
  destruct (positions c cols) as [|p [|p' ps]].
  - by apply elem_of_nil in Hin.
  - f_equal. apply Hall. left.
  - exfalso. apply NoDup_cons in Hnd as [Hp _]. apply Hp.
    rewrite (Hall p) by left. rewrite (Hall p') by (right; left). left.
Qed.

Lemma col_pos_Ok_unique c cols q :
  col_pos c cols = Ok q → ∀ p, cols !! p = Some c → p = q.
Proof.
  intros H%col_pos_Ok p Hp%elem_of_positions. rewrite H in Hp.
  by apply list_elem_of_singleton in Hp.
Qed.

Lemma col_pos_app_l c l1 l2 p :
  col_pos c l1 = Ok p → c ∉ l2 → col_pos c (l1 ++ l2) = Ok p.
Proof.
  intros H%col_pos_Ok Hnin%positions_nil. apply col_pos_Ok.
  by rewrite positions_app, H, Hnin.
Qed.

Lemma col_pos_app_r c l1 l2 q :
  c ∉ l1 → col_pos c l2 = Ok q →
  col_pos c (l1 ++ l2) = Ok (length l1 + q)%nat.
Proof.
  intros Hnin%positions_nil H%col_pos_Ok. apply col_pos_Ok.
  by rewrite positions_app, H, Hnin.
Qed.

(** Without a shared label no label gets a suffix. *)
Lemma merged_columns_disjoint lcols rcols :
  (∀ d, d ∈ lcols → d ∉ rcols) →
  merged_columns lcols rcols = lcols ++ rcols.
Proof.
  intros H. unfold merged_columns. f_equal.
  - rewrite <- (list_fmap_id lcols) at 2. apply list_fmap_ext.
    intros _ d Hd%list_elem_of_lookup_2. unfold suffixed.
    rewrite bool_decide_false; [done|]. by apply H.
  - rewrite <- (list_fmap_id rcols) at 2. apply list_fmap_ext.
    intros _ d Hd%list_elem_of_lookup_2. unfold suffixed.
    rewrite bool_decide_false; [done|]. intros Hd'. by apply (H d).
Qed.

Lemma lookup_delete_shifted {A} (l : list A) i q :
  q ≠ i → delete i l !! shifted i q = l !! q.
Proof.
  intros Hne. unfold shifted. case_decide.
  - by apply list_lookup_delete_lt.
  - rewrite list_lookup_delete_ge by lia. f_equal. lia.
Qed.

Lemma col_pos_delete c cols i q :
  col_pos c cols = Ok q → q ≠ i →
  col_pos c (delete i cols) = Ok (shifted i q).
Proof.
  intros Hq Hne. apply col_pos_unique.
  - rewrite lookup_delete_shifted by done. by apply col_pos_lookup.
  - intros p Hp. unfold shifted.
    destruct (decide (p < i)%nat) as [Hlt|Hge].
    + rewrite list_lookup_delete_lt in Hp by done.
      apply (col_pos_Ok_unique _ _ _ Hq) in Hp as ->.
      by rewrite decide_True.
    + rewrite list_lookup_delete_ge in Hp by lia.
      apply (col_pos_Ok_unique _ _ _ Hq) in Hp as <-.
      rewrite decide_False by lia. done.
Qed.

(** ** The table of [merge_referendum_and_areas], column by column *)

(** With unique department codes in the areas, the rows of the result are
    the surviving records whose code is a code of the areas, each followed
    by the other cells of the area of that code. *)
Lemma merge_referendum_and_areas_rows r a h df areas codes acs :
  h !! r = Some df → wf df → r ≠ a → h !! a = Some areas →
  dept_codes df = Ok codes →
  (length (positions "code_dep" (columns df)) ≤ 1)%nat →
  getitem areas "code_dep" = Ok (VStr <$> acs) → NoDup acs →
  ∃ df1 pl pr,
    setitem df "code_dep" (VStr <$> codes) = Ok df1 ∧
    col_pos "code_dep" (columns df1) = Ok pl ∧
    col_pos "code_dep" (columns areas) = Ok pr ∧
    let R := zip (KStr <$> acs) ((λ g, delete pr (cells g)) <$> rows areas) in
    R.*1 = KStr <$> acs ∧
    merge_referendum_and_areas r a h =
    (Ok (mkDF [] (merged_columns (columns df1) (delete pr (columns areas)))
           ((λ kl, mkRow [] (cells kl.2 ++ default [] (assoc kl.1 R))) <$>
            filter (λ kl, kl.1 ∈ R.*1)
              (zip (KStr <$> surviving codes)
                 (keep (mainland <$> codes) (rows df1))))),
     <[r := df1]> h).
Proof.
  intros Hr Hwf Hne Ha Hcodes Hpos Hac Hnd.
  destruct (merge_referendum_and_areas_returns r a h df areas codes acs)
    as (df1 & pl & pr & Hset & Hpl & Hpr & ->); try done.
  exists df1, pl, pr. split_and!; try done. intros R.
  assert (R.*1 = KStr <$> acs) as HR.
  { apply fst_zip. apply getitem_length in Hac.
    rewrite !length_fmap in *. lia. }
  split; [done|]. do 3 f_equal.
  rewrite join_joined_inner.
  - rewrite <- list_fmap_compose. done.
  - change (NoDup R.*1). rewrite HR. by apply (NoDup_fmap_2 KStr).
  - rewrite length_fmap, <- surviving_keep. apply length_keep_same.
    apply setitem_Ok in Hset as (Hlen & _ & ->). simpl.
    rewrite length_zip_with, length_fmap in *. lia.
Qed.

Lemma elem_of_keep {A} (m : list bool) (l : list A) x : x ∈ keep m l → x ∈ l.
Proof.
  unfold keep. intros ([b y] & -> & Hin)%list_elem_of_fmap.
  apply list_elem_of_filter in Hin as [_ Hin]. by apply elem_of_zip_r in Hin.
Qed.

Lemma columns_setitem df c s df1 d :
  setitem df c s = Ok df1 → d ∈ columns df1 → d ∈ columns df ∨ d = c.
Proof.
  intros (_ & _ & ->)%setitem_Ok. simpl.
  destruct (positions c (columns df)); [|by left].
  intros [?|Hd%list_elem_of_singleton]%elem_of_app; [by left|by right].
Qed.

(** The labels of the areas other than the label of the join do not occur
    among the labels of the records with their code. *)
Lemma joined_labels_disjoint df df1 areas codes pr :
  setitem df "code_dep" codes = Ok df1 →
  col_pos "code_dep" (columns areas) = Ok pr →
  (∀ d, d ∈ columns areas → d ≠ "code_dep" → d ∉ columns df) →
  ∀ d, d ∈ columns df1 → d ∉ delete pr (columns areas).
Proof.
  intros Hset Hpr Hdisj d Hd Hin.
  assert ("code_dep" ∉ delete pr (columns areas)) as Hcd.
  { apply positions_delete. by apply col_pos_Ok. }
  destruct (columns_setitem _ _ _ _ _ Hset Hd) as [Hd'| ->]; [|done].
  apply (Hdisj d); [|by intros ->|done].
  apply (elem_of_sublist _ _ _ Hin), sublist_delete.
Qed.

(** The columns of the records in the result: the values of the records
    that are joined, in their order. *)
Lemma joined_column_left r a h df areas codes acs df1 c s1 out h' :
  h !! r = Some df → wf df → r ≠ a → h !! a = Some areas →
  dept_codes df = Ok codes →
  (length (positions "code_dep" (columns df)) ≤ 1)%nat →
  getitem areas "code_dep" = Ok (VStr <$> acs) → NoDup acs →
  (∀ d, d ∈ columns areas → d ≠ "code_dep" → d ∉ columns df) →
  setitem df "code_dep" (VStr <$> codes) = Ok df1 →
  merge_referendum_and_areas r a h = (Ok out, h') →
  getitem df1 c = Ok s1 →
  getitem out c = Ok (keep (matched acs <$> codes) s1).
Proof.
  intros Hr Hwf Hne Ha Hcodes Hpos Hac Hnd Hdisj Hset Hrun Hc.
  destruct (merge_referendum_and_areas_rows r a h df areas codes acs)
    as (df1' & pl & pr & Hset' & Hpl & Hpr & HR & Hrun'); try done.
  assert (df1' = df1) as -> by congruence.
  rewrite Hrun' in Hrun. injection Hrun as <- <-.
  set (R := zip (KStr <$> acs) ((λ g, delete pr (cells g)) <$> rows areas))
    in *.
  pose proof (wf_setitem _ _ _ _ Hwf Hset) as Hwf1.
  apply getitem_Ok in Hc as (p & Hp & ->).
  unfold getitem. cbn [columns rows].
  rewrite merged_columns_disjoint by by eapply joined_labels_disjoint.
  rewrite (col_pos_app_l _ _ _ p); [|done|].
  2:{ eapply joined_labels_disjoint; try done.
      apply (list_elem_of_lookup_2 _ p). by apply col_pos_lookup. }
  cbn [mbind result_bind]. f_equal.
  rewrite <- list_fmap_compose.
  rewrite (list_fmap_ext _ (cell p ∘ snd)
             (filter (λ kl, kl.1 ∈ R.*1)
                (zip (KStr <$> surviving codes)
                   (keep (mainland <$> codes) (rows df1))))).
  2:{ intros _ [k l] Hkl%list_elem_of_lookup_2.
      apply list_elem_of_filter in Hkl as [_ Hkl].
      apply elem_of_zip_r, elem_of_keep in Hkl.
      unfold cell. simpl. apply app_nth1.
      rewrite (wf_row_cells df1) by done. by eapply col_pos_lt. }
  rewrite list_fmap_compose.
  pose proof (filter_zip_keep (λ k, k ∈ R.*1) (KStr <$> surviving codes)
                (keep (mainland <$> codes) (rows df1))) as Hf.
  cbv beta in Hf. rewrite Hf. clear Hf.
  rewrite <- !keep_fmap. unfold surviving.
  rewrite <- list_fmap_compose.
  rewrite (list_fmap_ext _ (λ c, bool_decide (c ∈ acs))
             (filter (λ c, mainland c = true) codes)).
  2:{ intros _ c0 _. simpl. apply bool_decide_ext. rewrite HR.
      split; [|apply list_elem_of_fmap_2].
      by intros (c' & [= ->] & ?)%list_elem_of_fmap. }
  apply keep_keep.
Qed.

(** X8.  The columns of the records are carried over to the result as they
    are: the result holds, in the order of the records, the values of the
    records whose code has no Z and is a department code of the areas. *)
Theorem joined_table_keeps_the_records (r a : ref) (h : gmap nat DataFrame)
    (df areas : DataFrame) (codes acs : list string) :
  h !! r = Some df → wf df → r ≠ a → h !! a = Some areas →
  dept_codes df = Ok codes →
  (length (positions "code_dep" (columns df)) ≤ 1)%nat →
  getitem areas "code_dep" = Ok (VStr <$> acs) → NoDup acs →
  (∀ d, d ∈ columns areas → d ≠ "code_dep" → d ∉ columns df) →
  ∃ out h',
    merge_referendum_and_areas r a h = (Ok out, h') ∧
    getitem out "code_dep" =
      Ok (VStr <$> keep (matched acs <$> codes) codes) ∧
    ∀ c s, c ≠ "code_dep" → getitem df c = Ok s →
      getitem out c = Ok (keep (matched acs <$> codes) s).
Proof.
  intros Hr Hwf Hne Ha Hcodes Hpos Hac Hnd Hdisj.
  destruct (merge_referendum_and_areas_rows r a h df areas codes acs)
    as (df1 & pl & pr & Hset & Hpl & Hpr & HR & Hrun); try done.
  eexists _, _. split; [exact Hrun|]. split.
  - rewrite <- keep_fmap.
    eapply joined_column_left with (df1 := df1) (s1 := VStr <$> codes);
      [exact Hr|exact Hwf|exact Hne|exact Ha|exact Hcodes|exact Hpos|
       exact Hac|exact Hnd|exact Hdisj|exact Hset|exact Hrun|].
    by eapply getitem_setitem.
  - intros c s Hc Hs.
    eapply joined_column_left with (df1 := df1) (s1 := s);
      [exact Hr|exact Hwf|exact Hne|exact Ha|exact Hcodes|exact Hpos|
       exact Hac|exact Hnd|exact Hdisj|exact Hset|exact Hrun|].
    by rewrite (getitem_setitem_ne df "code_dep" (VStr <$> codes) df1).
Qed.

Lemma ex_labels_disjoint :
  ∀ d, d ∈ columns ex_areas → d ≠ "code_dep" → d ∉ columns ex_referendum.
Proof.
  intros d Hd Hne.
  repeat (apply elem_of_cons in Hd as [->|Hd]); try done;
    try by_compute. by apply elem_of_nil in Hd.
Defined.

Lemma joined_table_keeps_the_records_witness :
  ∃ out h',
    merge_referendum_and_areas 0%nat 1%nat ex_store = (Ok out, h') ∧
    getitem out "code_dep" =
      Ok (VStr <$> keep (matched ["01"; "2A"; "75"] <$>
                           ["01"; "01"; "ZA"; "75"; "971"])
                     ["01"; "01"; "ZA"; "75"; "971"]) ∧
    ∀ c s, c ≠ "code_dep" → getitem ex_referendum c = Ok s →
      getitem out c =
      Ok (keep (matched ["01"; "2A"; "75"] <$>
                  ["01"; "01"; "ZA"; "75"; "971"]) s).
Proof.
  apply (joined_table_keeps_the_records 0%nat 1%nat ex_store
           ex_referendum ex_areas).
  - reflexivity.
  - vm_compute. repeat constructor.
  - lia.
  - reflexivity.
  - reflexivity.
  - vm_compute. lia.
  - reflexivity.
  - by_compute.
  - exact ex_labels_disjoint.
Defined.

Lemma matched_keys acs codes :
  filter (λ k, k ∈ KStr <$> acs) (KStr <$> surviving codes) =
  KStr <$> keep (matched acs <$> codes) codes.
Proof.
  unfold surviving. induction codes as [|c codes IH]; [done|].
  csimpl. rewrite filter_cons, keep_cons. unfold matched at 1.
  case_decide as Hm.
  - rewrite Hm. csimpl. rewrite filter_cons.
    case_decide as Hin.
    + rewrite bool_decide_true.
      * csimpl. by rewrite IH.
      * by apply (list_elem_of_fmap_inj KStr) in Hin.
    + rewrite bool_decide_false; [done|].
      intros Hc. apply Hin. by apply list_elem_of_fmap_2.
  - destruct (mainland c); [done|]. simpl. apply IH.
Qed.

Lemma nth_delete_shifted {A} (l : list A) i q d :
  q ≠ i → nth (shifted i q) (delete i l) d = nth q l d.
Proof. intros Hne. by rewrite !nth_lookup, lookup_delete_shifted. Qed.

(** The columns of the areas in the result: every row carries the values
    of the area whose department code is the code of the record. *)
Lemma joined_column_right r a h df areas codes acs c sa out h' :
  h !! r = Some df → wf df → r ≠ a → h !! a = Some areas →
  dept_codes df = Ok codes →
  (length (positions "code_dep" (columns df)) ≤ 1)%nat →
  getitem areas "code_dep" = Ok (VStr <$> acs) → NoDup acs →
  (∀ d, d ∈ columns areas → d ≠ "code_dep" → d ∉ columns df) →
  merge_referendum_and_areas r a h = (Ok out, h') →
  c ≠ "code_dep" → getitem areas c = Ok sa →
  ∃ so, getitem out c = Ok so ∧
    length so = length (keep (matched acs <$> codes) codes) ∧
    ∀ i code j,
      keep (matched acs <$> codes) codes !! i = Some code →
      acs !! j = Some code → so !! i = sa !! j.
Proof.
  intros Hr Hwf Hne Ha Hcodes Hpos Hac Hnd Hdisj Hrun0 Hc Hsa.
  destruct (merge_referendum_and_areas_rows r a h df areas codes acs)
    as (df1 & pl & pr & Hset & Hpl & Hpr & HR & Hrun); try done.
  rewrite Hrun in Hrun0. injection Hrun0 as <- <-.
  set (R := zip (KStr <$> acs) ((λ g, delete pr (cells g)) <$> rows areas))
    in *.
  set (F := filter (λ kl, kl.1 ∈ R.*1)
              (zip (KStr <$> surviving codes)
                 (keep (mainland <$> codes) (rows df1)))).
  pose proof (wf_setitem _ _ _ _ Hwf Hset) as Hwf1.
  assert (length (KStr <$> surviving codes) =
          length (keep (mainland <$> codes) (rows df1))) as Hlen.
  { rewrite length_fmap, <- surviving_keep. apply length_keep_same.
    apply setitem_Ok in Hset as (Hlen & _ & ->). simpl.
    rewrite length_zip_with, length_fmap in *. lia. }
  assert (F.*1 = KStr <$> keep (matched acs <$> codes) codes) as HF.
  { unfold F.
    pose proof (filter_zip_fst (λ k, k ∈ R.*1) (KStr <$> surviving codes)
                  (keep (mainland <$> codes) (rows df1)) Hlen) as H1.
    cbv beta in H1. rewrite H1, HR. apply matched_keys. }
  apply getitem_Ok in Hsa as (q & Hq & ->).
  assert (q ≠ pr) as Hqpr.
  { intros ->. apply col_pos_lookup in Hq, Hpr. congruence. }
  assert (c ∉ columns df1) as Hnin.
  { intros Hin.
    destruct (columns_setitem _ _ _ _ _ Hset Hin) as [Hin'|?]; [|done].
    apply (Hdisj c); [|done|done].
    apply (list_elem_of_lookup_2 _ q). by apply col_pos_lookup. }
  unfold getitem. cbn [columns rows].
  rewrite merged_columns_disjoint by by eapply joined_labels_disjoint.
  rewrite (col_pos_app_r _ _ _ (shifted pr q)); [|done|by apply col_pos_delete].
  cbn [mbind result_bind]. eexists. split; [done|].
  split.
  { rewrite !length_fmap, <- (length_fmap fst), HF. by rewrite length_fmap. }
  intros i code j Hi Hj.
  rewrite !list_lookup_fmap.
  assert (F.*1 !! i = Some (KStr code)) as Hk.
  { by rewrite HF, list_lookup_fmap, Hi. }
  rewrite list_lookup_fmap in Hk.
  destruct (F !! i) as [[k l]|] eqn:HFi; [|done].
  simpl in Hk. injection Hk as ->. simpl.
  assert (l ∈ rows df1) as Hl.
  { apply list_elem_of_lookup_2 in HFi.
    apply list_elem_of_filter in HFi as [_ HFi].
    by apply elem_of_zip_r, elem_of_keep in HFi. }
  assert (length acs = length (rows areas)) as Hlena.
  { apply getitem_length in Hac. by rewrite length_fmap in Hac. }
  destruct (rows areas !! j) as [g|] eqn:Hg.
  2:{ apply lookup_ge_None in Hg. apply lookup_lt_Some in Hj. lia. }
  simpl. f_equal.
  rewrite (assoc_NoDup R (KStr code) (delete pr (cells g))).
  - unfold cell. simpl.
    rewrite <- (wf_row_cells df1 l) by done.
    rewrite app_nth2_plus. by apply nth_delete_shifted.
  - rewrite HR. by apply (NoDup_fmap_2 KStr).
  - apply (list_elem_of_lookup_2 _ j). apply lookup_zip_with_Some.
    exists (KStr code), (delete pr (cells g)).
    split; [done|]. by rewrite !list_lookup_fmap, Hj, Hg.
Qed.

(** X9.  The columns of the areas in the result: every row carries the values
    of the area whose department code is the code of the record. *)
Theorem joined_table_attaches_the_area (r a : ref) (h : gmap nat DataFrame)
    (df areas : DataFrame) (codes acs : list string) :
  h !! r = Some df → wf df → r ≠ a → h !! a = Some areas →
  dept_codes df = Ok codes →
  (length (positions "code_dep" (columns df)) ≤ 1)%nat →
  getitem areas "code_dep" = Ok (VStr <$> acs) → NoDup acs →
  (∀ d, d ∈ columns areas → d ≠ "code_dep" → d ∉ columns df) →
  ∃ out h',
    merge_referendum_and_areas r a h = (Ok out, h') ∧
    ∀ c sa, c ≠ "code_dep" → getitem areas c = Ok sa →
      ∃ so, getitem out c = Ok so ∧
        length so = length (keep (matched acs <$> codes) codes) ∧
        ∀ i code j,
          keep (matched acs <$> codes) codes !! i = Some code →
          acs !! j = Some code → so !! i = sa !! j.
Proof.
  intros Hr Hwf Hne Ha Hcodes Hpos Hac Hnd Hdisj.
  destruct (merge_referendum_and_areas_rows r a h df areas codes acs)
    as (df1 & pl & pr & Hset & Hpl & Hpr & HR & Hrun); try done.
  eexists _, _. split; [exact Hrun|]. intros c sa Hc Hsa.
  eapply joined_column_right with (df := df) (areas := areas) (acs := acs);
    [exact Hr|exact Hwf|exact Hne|exact Ha|exact Hcodes|exact Hpos|
     exact Hac|exact Hnd|exact Hdisj|exact Hrun|exact Hc|exact Hsa].
Qed.

Lemma joined_table_attaches_the_area_witness :
  ∃ out h',
    merge_referendum_and_areas 0%nat 1%nat ex_store = (Ok out, h') ∧
    ∀ c sa, c ≠ "code_dep" → getitem ex_areas c = Ok sa →
      ∃ so, getitem out c = Ok so ∧
        length so =
          length (keep (matched ["01"; "2A"; "75"] <$>
                          ["01"; "01"; "ZA"; "75"; "971"])
                    ["01"; "01"; "ZA"; "75"; "971"]) ∧
        ∀ i code j,
          keep (matched ["01"; "2A"; "75"] <$>
                  ["01"; "01"; "ZA"; "75"; "971"])
            ["01"; "01"; "ZA"; "75"; "971"] !! i = Some code →
          ["01"; "2A"; "75"] !! j = Some code → so !! i = sa !! j.
Proof.
  apply (joined_table_attaches_the_area 0%nat 1%nat ex_store
           ex_referendum ex_areas).
  - reflexivity.
  - vm_compute. repeat constructor.
  - lia.
  - reflexivity.
  - reflexivity.
  - vm_compute. lia.
  - reflexivity.
  - by_compute.
  - exact ex_labels_disjoint.
Defined.

(** ** Exceptions of [merge_referendum_and_areas] and the caller's table *)

Lemma col_pos_missing c cols : c ∉ cols → col_pos c cols = Raise (KeyError c).
Proof. intros H%positions_nil. unfold col_pos. by rewrite H. Qed.

(** X6.  Without a column [Department code] the call raises [KeyError] and
    has written nothing. *)
Theorem records_without_department_code (r a : ref) (h : gmap nat DataFrame)
    (df : DataFrame) :
  h !! r = Some df → "Department code" ∉ columns df →
  merge_referendum_and_areas r a h =
  (Raise (KeyError "Department code"), h).
Proof.
  intros Hr Hnin. unfold merge_referendum_and_areas.
  py_bind. unfold deref at 1. rewrite Hr.
  py_bind. unfold lift at 1. unfold getitem.
  by rewrite col_pos_missing.
Qed.

Lemma records_without_department_code_witness :
  merge_referendum_and_areas 1%nat 0%nat ex_store =
  (Raise (KeyError "Department code"), ex_store).
Proof.
  apply (records_without_department_code 1%nat 0%nat ex_store ex_areas).
  - reflexivity.
  - by_compute.
Defined.

(** X7.  The call is not atomic: when the table of areas has no column
    [code_dep] the join raises [KeyError], after the column [code_dep] has
    been set on the caller's table. *)
Theorem areas_without_code_dep (r a : ref) (h : gmap nat DataFrame)
    (df areas : DataFrame) (codes : list string) :
  h !! r = Some df → wf df → r ≠ a → h !! a = Some areas →
  dept_codes df = Ok codes →
  (length (positions "code_dep" (columns df)) ≤ 1)%nat →
  "code_dep" ∉ columns areas →
  ∃ df1,
    merge_referendum_and_areas r a h =
      (Raise (KeyError "code_dep"), <[r := df1]> h) ∧
    getitem df1 "code_dep" = Ok (VStr <$> codes).
Proof.
  intros Hr Hwf Hne Ha Hcodes Hpos Hnin.
  rewrite (merge_referendum_and_areas_run r a h df) by done.
  rewrite Hcodes.
  destruct (setitem_total df "code_dep" (VStr <$> codes)) as [df1 Hset];
    [|done|].
  { rewrite length_fmap. by apply dept_codes_length. }
  rewrite Hset, lookup_insert_ne, Ha by done.
  pose proof (getitem_setitem _ _ _ _ Hwf Hset) as Hget.
  exists df1. split; [|done].
  apply getitem_Ok in Hget as (pl & Hpl & _).
  unfold merge. cbn [columns boolean_filter]. rewrite Hpl.
  by rewrite col_pos_missing.
Qed.

Lemma areas_without_code_dep_witness :
  ∃ df1,
    merge_referendum_and_areas 0%nat 1%nat
      (<[0%nat := ex_referendum]> (<[1%nat := ex_regions]> ∅)) =
      (Raise (KeyError "code_dep"),
       <[0%nat := df1]>
         (<[0%nat := ex_referendum]> (<[1%nat := ex_regions]> ∅))) ∧
    getitem df1 "code_dep" =
      Ok (VStr <$> ["01"; "01"; "ZA"; "75"; "971"]).
Proof.
  apply (areas_without_code_dep 0%nat 1%nat _ ex_referendum ex_regions).
  - reflexivity.
  - vm_compute. repeat constructor.
  - lia.
  - reflexivity.
  - reflexivity.
  - vm_compute. lia.
  - by_compute.
Defined.

(** ** Calling [merge_referendum_and_areas] again *)

(** Setting a column to the values it holds changes nothing. *)
Lemma setitem_same df c s :
  wf df → getitem df c = Ok s → setitem df c s = Ok df.
Proof.
  intros Hwf (p & Hp & ->)%getitem_Ok. unfold setitem.
  rewrite bool_decide_true by by rewrite length_fmap. simpl.
  pose proof (col_pos_lt _ _ _ Hp) as Hlt.
  apply col_pos_Ok in Hp. rewrite Hp. f_equal.
  destruct df as [ixn cols rs]. simpl in *. f_equal.
  induction rs as [|x rs IH]; [done|]. csimpl.
  apply Forall_cons in Hwf as [[Hx _] Hwf]. rewrite IH by done. f_equal.
  unfold set_cell, cell. destruct x as [i cs]. simpl in *. f_equal.
  apply list_insert_id. rewrite nth_lookup.
  destruct (cs !! p) eqn:E; [done|].
  apply lookup_ge_None in E. lia.
Qed.

(** X10.  When the department codes of the areas are strings, a second call
    with the same arguments returns the same table and leaves the caller's
    table as the first call left it. *)
Theorem second_call_changes_nothing (r a : ref) (h : gmap nat DataFrame)
    (df areas : DataFrame) (codes acs : list string) :
  h !! r = Some df → wf df → r ≠ a → h !! a = Some areas →
  dept_codes df = Ok codes →
  (length (positions "code_dep" (columns df)) ≤ 1)%nat →
  getitem areas "code_dep" = Ok (VStr <$> acs) →
  ∃ out h',
    merge_referendum_and_areas r a h = (Ok out, h') ∧
    merge_referendum_and_areas r a h' = (Ok out, h').
Proof.
  intros Hr Hwf Hne Ha Hcodes Hpos Hac.
  destruct (merge_referendum_and_areas_returns r a h df areas codes acs)
    as (df1 & pl & pr & Hset & Hpl & Hpr & Hrun); try done.
  rewrite Hrun. eexists _, _. split; [done|].
  pose proof (wf_setitem _ _ _ _ Hwf Hset) as Hwf1.
  pose proof (getitem_setitem _ _ _ _ Hwf Hset) as Hget.
  destruct (merge_referendum_and_areas_returns r a (<[r := df1]> h)
              df1 areas codes acs)
    as (df2 & pl2 & pr2 & Hset2 & Hpl2 & Hpr2 & ->); try done.
  - by rewrite lookup_insert_eq.
  - by rewrite lookup_insert_ne.
  - unfold dept_codes in *.
    by rewrite (getitem_setitem_ne df "code_dep" (VStr <$> codes) df1).
  - apply col_pos_Ok in Hpl. rewrite Hpl. simpl. lia.
  - rewrite (setitem_same df1) in Hset2 by done. injection Hset2 as <-.
    assert (pl2 = pl) as -> by congruence.
    assert (pr2 = pr) as -> by congruence.
    by rewrite insert_insert_eq.
Qed.

Lemma second_call_changes_nothing_witness :
  ∃ out h',
    merge_referendum_and_areas 0%nat 1%nat ex_store = (Ok out, h') ∧
    merge_referendum_and_areas 0%nat 1%nat h' = (Ok out, h').
Proof.
  apply (second_call_changes_nothing 0%nat 1%nat ex_store
           ex_referendum ex_areas ["01"; "01"; "ZA"; "75"; "971"]
           ["01"; "2A"; "75"]).
  - reflexivity.
  - vm_compute. repeat constructor.
  - lia.
  - reflexivity.
  - reflexivity.
  - vm_compute. lia.
  - reflexivity.
Defined.

(** ** The totals of the aggregation *)

Lemma add64_assoc x y z : add64 (add64 x y) z = add64 x (add64 y z).
Proof.
  unfold add64. rewrite wrap64_add_r.
  rewrite (Z.add_comm (wrap64 (x + y)) z), wrap64_add_r. f_equal. lia.
Qed.

Lemma add64_0_l x : - 2 ^ 63 ≤ x < 2 ^ 63 → add64 0 x = x.
Proof. intros H. unfold add64. by rewrite wrap64_small. Qed.

Lemma wrap64_range z : - 2 ^ 63 ≤ wrap64 z < 2 ^ 63.
Proof.
  unfold wrap64. pose proof (Z.mod_pos_bound (z + 2 ^ 63) (2 ^ 64)). lia.
Qed.

Lemma total_range ns : - 2 ^ 63 ≤ total ns < 2 ^ 63.
Proof. destruct ns as [|n ns]; simpl; [lia|]. apply wrap64_range. Qed.

(** One more value in the group of [k0] is one more value in the total of
    the groups. *)
Lemma total_bump {K} `{EqDecision K} (g g' : K → Z) (ks : list K) k0 x :
  NoDup ks → k0 ∈ ks →
  (∀ k, k ≠ k0 → g k = g' k) → g k0 = add64 x (g' k0) →
  total (g <$> ks) = add64 x (total (g' <$> ks)).
Proof.
  intros Hnd Hin Hne Hk0. induction ks as [|k ks IH]; [by apply elem_of_nil in Hin|].
  apply NoDup_cons in Hnd as [Hk Hnd]. csimpl. unfold total in *. simpl.
  destruct (decide (k = k0)) as [->|Hkk].
  - rewrite Hk0, add64_assoc. do 2 f_equal.
    f_equal. apply list_fmap_ext. intros _ k' Hk'%list_elem_of_lookup_2.
    apply Hne. by intros ->.
  - apply elem_of_cons in Hin as [?|Hin]; [done|].
    rewrite IH by done. rewrite Hne by done. apply add64_swap.
Qed.

Lemma total_zeros {K} (ks : list K) : total ((λ _, 0) <$> ks) = 0.
Proof. induction ks as [|k ks IH]; [done|]. csimpl. unfold total in *. simpl. by rewrite IH. Qed.

(** The totals of the groups add up to the total over the rows that have
    a key. *)
Lemma total_groups {A} (f : A → Z) (keyed : list (option (list string) * A))
    (ks : list (list string)) :
  NoDup ks → (∀ k v, (Some k, v) ∈ keyed → k ∈ ks) →
  total ((λ k, total (f <$> members k keyed)) <$> ks) =
  total (f <$> (snd <$> filter (λ kr, is_Some kr.1) keyed)).
Proof.
  intros Hnd. induction keyed as [|[ko v] keyed IH]; intros Hks.
  - apply total_zeros.
  - rewrite filter_cons. case_decide as Hsome.
    + destruct ko as [k0|]; [|by destruct Hsome]. csimpl.
      change (total (f v :: ?l)) with (add64 (f v) (total l)).
      rewrite <- IH by (intros; eapply Hks; by right).
      apply (total_bump _ _ ks k0); [done|eapply Hks; left| |].
      * intros k Hk. unfold members. rewrite filter_cons. simpl.
        rewrite decide_False; [done|]. by intros [= ->].
      * unfold members. rewrite filter_cons. simpl.
        by rewrite decide_True.
    + destruct ko as [k0|]; [exfalso; apply Hsome; by eexists|].
      rewrite <- IH by (intros; eapply Hks; by right).
      reflexivity.
Qed.

Lemma keyed_row_key p1 p2 vps r ko v :
  keyed_row [p1; p2] vps r = Ok (ko, v) →
  is_Some ko ↔
  match cell p1 r, cell p2 r with VStr _, VStr _ => True | _, _ => False end.
Proof.
  unfold keyed_row. intros H. inv_bind H. injection H as -> _. split.
  - intros [k ->]. apply group_key_pair in Hx as (R & N & _ & -> & ->). done.
  - destruct (cell p1 r) as [|R| |] eqn:H1; try done.
    destruct (cell p2 r) as [|N| |] eqn:H2; try done. intros _.
    assert (group_key [p1; p2] r = Ok (Some [R; N])) as H'
      by (apply group_key_pair; eauto).
    rewrite H' in Hx. injection Hx as <-. by eexists.
Qed.

(** The integers of the rows that have a key are those of the rows with a
    region code and a region name. *)
Lemma keyed_with_region p1 p2 vps rs keyed j vj :
  traverse (keyed_row [p1; p2] vps) rs = Ok keyed → vps !! j = Some vj →
  (λ v, nth j v 0) <$> (snd <$> filter (λ kr, is_Some kr.1) keyed) =
  omap int_of_value
    (keep (with_region (cell p1 <$> rs) (cell p2 <$> rs)) (cell vj <$> rs)).
Proof.
  rewrite traverse_Ok. intros H Hj.
  induction H as [|r [ko v] rs keyed Hr H IH]; [done|].
  unfold with_region in *. csimpl. rewrite filter_cons, keep_cons. simpl.
  rewrite (keyed_row_values _ _ _ _ _ _ _ Hr Hj).
  pose proof (keyed_row_key _ _ _ _ _ _ Hr) as Hiff.
  case_decide as Hk.
  - apply Hiff in Hk.
    destruct (cell p1 r) as [|R| |]; try done.
    destruct (cell p2 r) as [|N| |]; try done.
    csimpl. by rewrite IH.
  - assert (match cell p1 r, cell p2 r with
            | VStr _, VStr _ => true | _, _ => false end = false) as ->.
    { destruct (cell p1 r) as [|R| |]; try done.
      destruct (cell p2 r) as [|N| |]; try done.
      exfalso. by apply Hk, Hiff. }
    apply IH.
Qed.

Lemma sums_add_up (df res : DataFrame) (codes names : Series)
    (c : label) (vals : Series) :
  compute_referendum_result_by_regions df = Ok res →
  getitem df "code_reg" = Ok codes → getitem df "name_reg" = Ok names →
  c ∈ numeric_columns → getitem df c = Ok vals →
  ∃ sums_out,
    getitem res c = Ok (VInt <$> sums_out) ∧
    total sums_out = sum_over (with_region codes names) vals.
Proof.
  rewrite compute_referendum_result_by_regions_unfold. intros H Hc Hn Hin Hv.
  inv_bind H. injection H as <-.
  rename x into p1, x0 into p2, x1 into vps, x2 into keyed.
  unfold getitem in Hc, Hn. rewrite Hx in Hc. rewrite Hx0 in Hn.
  simpl in Hc, Hn. injection Hc as <-. injection Hn as <-.
  apply list_elem_of_lookup_1 in Hin as [j Hj].
  destruct (traverse_col_pos_numeric _ _ Hx1 j c Hj) as (vj & Hvj & Hcol).
  unfold getitem in Hv. rewrite Hcol in Hv. simpl in Hv. injection Hv as <-.
  exists ((λ k, total ((λ v, nth j v 0) <$> members k keyed))
            <$> group_keys keyed).
  split.
  - unfold getitem. cbn [columns rows].
    assert (col_pos c ("name_reg" :: numeric_columns) = Ok (S j)) as ->.
    { do 5 (destruct j as [|j]; [by injection Hj as <-|]). done. }
    cbn [mbind result_bind]. f_equal. rewrite <- !list_fmap_compose.
    apply list_fmap_ext. intros _ k Hk%list_elem_of_lookup_2.
    destruct (group_keys_pairs _ _ _ _ _ k Hx2 Hk) as (R & N & ->).
    unfold cell. simpl. unfold sums.
    assert (j < 5)%nat as Hlt by (by apply lookup_lt_Some in Hj).
    do 5 (destruct j as [|j]; [done|]). lia.
  - rewrite (total_groups (λ v, nth j v 0)).
    + unfold sum_over. f_equal. by eapply keyed_with_region.
    + apply group_keys_NoDup.
    + intros k v Hkv. apply elem_of_group_keys. eauto.
Qed.

(** X13.  The aggregation neither loses nor invents a vote: the sums of a
    column of the result add up to the int64 total of that column over the
    input rows that carry a region code and a region name. *)
Theorem regional_sums_add_up (df res : DataFrame) (codes names : Series)
    (c : label) (vals : Series) :
  compute_referendum_result_by_regions df = Ok res →
  getitem df "code_reg" = Ok codes → getitem df "name_reg" = Ok names →
  c ∈ numeric_columns → getitem df c = Ok vals →
  ∃ sums_out,
    getitem res c = Ok (VInt <$> sums_out) ∧
    total sums_out = sum_over (with_region codes names) vals.
Proof. apply sums_add_up. Qed.

Lemma regional_sums_add_up_witness :
  ∃ sums_out,
    getitem ex_results "Registered" = Ok (VInt <$> sums_out) ∧
    total sums_out =
    sum_over (with_region [VStr "84"; VStr "84"; VStr "11"]
                [VStr "Auvergne-Rhone-Alpes"; VStr "Auvergne-Rhone-Alpes";
                 VStr "Ile-de-France"])
      [VInt 100; VInt 50; VInt 9].
Proof.
  apply (regional_sums_add_up ex_joined ex_results).
  - vm_compute. reflexivity.
  - reflexivity.
  - reflexivity.
  - by_compute.
  - reflexivity.
Defined.

(** ** The rows without a region *)

Lemma with_region_keyed p1 p2 vps rs keyed :
  traverse (keyed_row [p1; p2] vps) rs = Ok keyed →
  Forall2 (λ (b : bool) kr, is_Some kr.1 → b = true)
    (with_region (cell p1 <$> rs) (cell p2 <$> rs)) keyed.
Proof.
  rewrite traverse_Ok. intros H.
  induction H as [|r [ko v] rs keyed Hr H IH]; [constructor|].
  unfold with_region in *. csimpl. constructor; [|done].
  simpl. intros Hk. apply (keyed_row_key _ _ _ _ _ _ Hr) in Hk.
  destruct (cell p1 r) as [|R| |]; try done.
  by destruct (cell p2 r) as [|N| |].
Qed.

Section keep_keyed.
Context {A : Type}.
Implicit Types (keyed : list (option (list string) * A)) (mask : list bool).

Lemma members_keep k mask keyed :
  Forall2 (λ (b : bool) kr, is_Some kr.1 → b = true) mask keyed →
  members k (keep mask keyed) = members k keyed.
Proof.
  unfold members. induction 1 as [|b [ko v] mask keyed Hb H IH]; [done|].
  rewrite keep_cons, filter_cons. simpl. destruct b; simpl.
  - rewrite filter_cons. simpl. case_decide; csimpl; by rewrite IH.
  - rewrite decide_False; [done|]. intros ->.
    by discriminate Hb.
Qed.

Lemma omap_fst_keep mask keyed :
  Forall2 (λ (b : bool) kr, is_Some kr.1 → b = true) mask keyed →
  omap fst (keep mask keyed) = omap fst keyed.
Proof.
  induction 1 as [|b [ko v] mask keyed Hb H IH]; [done|].
  rewrite keep_cons. simpl. destruct b; csimpl.
  - by rewrite IH.
  - destruct ko as [k|]; [|done]. by discriminate Hb.
Qed.

End keep_keyed.

(** X14.  The rows without a region code or without a region name count for
    nothing: the result is the one of the table without them. *)
Theorem rows_without_region_are_left_out (df res : DataFrame)
    (codes names : Series) :
  compute_referendum_result_by_regions df = Ok res →
  getitem df "code_reg" = Ok codes → getitem df "name_reg" = Ok names →
  compute_referendum_result_by_regions
    (boolean_filter df (with_region codes names)) = Ok res.
Proof.
  rewrite !compute_referendum_result_by_regions_unfold. intros H Hc Hn.
  inv_bind H. injection H as <-.
  rename x into p1, x0 into p2, x1 into vps, x2 into keyed.
  unfold getitem in Hc, Hn. rewrite Hx in Hc. rewrite Hx0 in Hn.
  simpl in Hc, Hn. injection Hc as <-. injection Hn as <-.
  cbn [columns rows boolean_filter]. rewrite Hx, Hx0. cbn [mbind result_bind].
  rewrite Hx1. cbn [mbind result_bind].
  set (mask := with_region _ _).
  rewrite (traverse_keep _ mask _ keyed) by done. cbn [mbind result_bind].
  pose proof (with_region_keyed _ _ _ _ _ Hx2) as Hmask. fold mask in Hmask.
  do 2 f_equal. unfold group_keys. rewrite (omap_fst_keep mask) by done.
  apply list_fmap_ext. intros _ k _. unfold result_row, sums.
  by rewrite members_keep.
Qed.

Lemma rows_without_region_are_left_out_witness :
  compute_referendum_result_by_regions
    (boolean_filter ex_joined_corse
       (with_region [VStr "94"; VStr "84"; VStr "84"; VStr "11"]
          [nan; VStr "Auvergne-Rhone-Alpes"; VStr "Auvergne-Rhone-Alpes";
           VStr "Ile-de-France"])) = Ok ex_results.
Proof.
  apply (rows_without_region_are_left_out ex_joined_corse ex_results).
  - vm_compute. reflexivity.
  - reflexivity.
  - reflexivity.
Defined.

(** ** The index of the result *)

(** The keys of the groups are the pairs of a region code and a region
    name that some row carries. *)
Lemma elem_of_group_keys_rows p1 p2 vps rs keyed R N :
  traverse (keyed_row [p1; p2] vps) rs = Ok keyed →
  [R; N] ∈ group_keys keyed ↔
  ∃ i, (cell p1 <$> rs) !! i = Some (VStr R) ∧
       (cell p2 <$> rs) !! i = Some (VStr N).
Proof.
  intros H. rewrite elem_of_group_keys. split.
  - intros [v (i & Hi)%list_elem_of_lookup_1].
    destruct (traverse_lookup_r _ _ _ _ _ H Hi) as (r & Hr & Hk).
    apply keyed_row_Some in Hk as (R' & N' & [= <- <-] & H1 & H2).
    exists i. by rewrite !list_lookup_fmap, Hr, <- H1, <- H2.
  - intros (i & H1 & H2). rewrite !list_lookup_fmap in H1, H2.
    destruct (rs !! i) as [r|] eqn:Hr; [|done].
    simpl in H1, H2. injection H1 as H1. injection H2 as H2.
    destruct (traverse_lookup _ _ _ _ _ H Hr) as ([ko v] & Hi & Hk).
    exists v. apply (list_elem_of_lookup_2 _ i). rewrite Hi. do 2 f_equal.
    unfold keyed_row in Hk. inv_bind Hk. injection Hk as <- _.
    assert (group_key [p1; p2] r = Ok (Some [R; N])) as H'
      by (apply group_key_pair; eauto).
    congruence.
Qed.

Lemma length_remove_dups_le {A} `{EqDecision A} (l : list A) :
  (length (remove_dups l) ≤ length l)%nat.
Proof.
  induction l as [|x l IH]; simpl; [done|].
  case_decide; simpl; lia.
Qed.

Lemma length_omap_le {A B} (f : A → option B) (l : list A) :
  (length (omap f l) ≤ length l)%nat.
Proof.
  induction l as [|x l IH]; csimpl; [done|].
  destruct (f x); simpl; lia.
Qed.

Lemma index_of_the_result (df res : DataFrame) (codes names : Series) :
  compute_referendum_result_by_regions df = Ok res →
  getitem df "code_reg" = Ok codes → getitem df "name_reg" = Ok names →
  (length (rows res) ≤ length (rows df))%nat ∧
  (∀ v, v ∈ ix <$> rows res ↔
     ∃ i R N, v = [VStr R] ∧
       codes !! i = Some (VStr R) ∧ names !! i = Some (VStr N)) ∧
  ((∀ i j R N N',
      codes !! i = Some (VStr R) → names !! i = Some (VStr N) →
      codes !! j = Some (VStr R) → names !! j = Some (VStr N') → N = N') →
   NoDup (ix <$> rows res)).
Proof.
  rewrite compute_referendum_result_by_regions_unfold. intros H Hc Hn.
  inv_bind H. injection H as <-.
  rename x into p1, x0 into p2, x1 into vps, x2 into keyed.
  unfold getitem in Hc, Hn. rewrite Hx in Hc. rewrite Hx0 in Hn.
  simpl in Hc, Hn. injection Hc as <-. injection Hn as <-.
  cbn [rows]. rewrite <- list_fmap_compose.
  pose proof (elem_of_group_keys_rows p1 p2 vps (rows df) keyed) as Hkeys.
  split_and!.
  - rewrite length_fmap. unfold group_keys.
    rewrite merge_sort_Permutation.
    etrans; [apply length_remove_dups_le|].
    etrans; [apply length_omap_le|].
    apply traverse_length in Hx2. lia.
  - intros v. rewrite list_elem_of_fmap. split.
    + intros (k & -> & Hk).
      destruct (group_keys_pairs _ _ _ _ _ k Hx2 Hk) as (R & N & ->).
      apply Hkeys in Hk as (i & Hi1 & Hi2); [|done].
      by exists i, R, N.
    + intros (i & R & N & -> & Hi1 & Hi2).
      exists [R; N]. split; [done|]. apply Hkeys; eauto.
  - intros Hfd.
    apply NoDup_fmap_2_strong; [|apply group_keys_NoDup].
    intros k k' Hk Hk' Heq.
    destruct (group_keys_pairs _ _ _ _ _ k Hx2 Hk) as (R & N & ->).
    destruct (group_keys_pairs _ _ _ _ _ k' Hx2 Hk') as (R' & N' & ->).
    simpl in Heq. injection Heq as <-.
    apply Hkeys in Hk as (i & Hi1 & Hi2); [|done].
    apply Hkeys in Hk' as (j & Hj1 & Hj2); [|done].
    by rewrite (Hfd i j R N N').
Qed.

(** X15.  The result has at most one row per input row, and the region codes
    of its index are those of the input rows that carry a region code and a
    region name; each stands once when no region code comes with two
    names. *)
Theorem region_codes_index_the_result (df res : DataFrame)
    (codes names : Series) :
  compute_referendum_result_by_regions df = Ok res →
  getitem df "code_reg" = Ok codes → getitem df "name_reg" = Ok names →
  (length (rows res) ≤ length (rows df))%nat ∧
  (∀ v, v ∈ ix <$> rows res ↔
     ∃ i R N, v = [VStr R] ∧
       codes !! i = Some (VStr R) ∧ names !! i = Some (VStr N)) ∧
  ((∀ i j R N N',
      codes !! i = Some (VStr R) → names !! i = Some (VStr N) →
      codes !! j = Some (VStr R) → names !! j = Some (VStr N') → N = N') →
   NoDup (ix <$> rows res)).
Proof. apply index_of_the_result. Qed.

Lemma region_codes_index_the_result_witness :
  (length (rows ex_two_names_results) ≤ length (rows ex_two_names))%nat ∧
  (∀ v, v ∈ ix <$> rows ex_two_names_results ↔
     ∃ i R N, v = [VStr R] ∧
       [VStr "84"; VStr "84"] !! i = Some (VStr R) ∧
       [VStr "Auvergne"; VStr "Rhone-Alpes"] !! i = Some (VStr N)) ∧
  ((∀ i j R N N',
      [VStr "84"; VStr "84"] !! i = Some (VStr R) →
      [VStr "Auvergne"; VStr "Rhone-Alpes"] !! i = Some (VStr N) →
      [VStr "84"; VStr "84"] !! j = Some (VStr R) →
      [VStr "Auvergne"; VStr "Rhone-Alpes"] !! j = Some (VStr N') → N = N') →
   NoDup (ix <$> rows ex_two_names_results)).
Proof.
  apply (region_codes_index_the_result ex_two_names ex_two_names_results).
  - vm_compute. reflexivity.
  - reflexivity.
  - reflexivity.
Defined.

(** ** A missing column in [compute_referendum_result_by_regions] *)

Lemma col_pos_NoDup c cols :
  NoDup cols →
  (∃ p, col_pos c cols = Ok p) ∨
  ((c ∉ cols) ∧ col_pos c cols = Raise (KeyError c)).
Proof.
  intros Hnd. destruct (decide (c ∈ cols)) as [Hin|Hnin].
  - left. apply list_elem_of_lookup_1 in Hin as [q Hq]. exists q.
    apply col_pos_unique; [done|]. intros p Hp.
    by apply (NoDup_lookup cols p q c).
  - right. split; [done|]. by apply col_pos_missing.
Qed.

(** X11.  The call raises [KeyError] when the table lacks one of the two
    labels of the key or one of the five columns to sum: the exception names
    a label that the table lacks, and no row is read. *)
Theorem results_need_their_columns (df : DataFrame) (c : label) :
  NoDup (columns df) →
  c ∈ "code_reg" :: "name_reg" :: numeric_columns → c ∉ columns df →
  ∃ l, compute_referendum_result_by_regions df = Raise (KeyError l) ∧
       (l ∉ columns df).
Proof.
  intros Hnd Hc Hnin. rewrite compute_referendum_result_by_regions_unfold.
  destruct (col_pos_NoDup "code_reg" _ Hnd) as [[p1 H1]|[H1 ->]];
    [|by exists "code_reg"].
  rewrite H1.
  destruct (col_pos_NoDup "name_reg" _ Hnd) as [[p2 H2]|[H2 ->]];
    [|by exists "name_reg"].
  cbn [mbind result_bind]. rewrite H2. cbn [mbind result_bind].
  destruct (traverse (λ c0, col_pos c0 (columns df)) numeric_columns)
    as [vps|e] eqn:Hvps.
  - exfalso.
    assert (∃ p, col_pos c (columns df) = Ok p) as [p Hp].
    { apply elem_of_cons in Hc as [->|Hc]; [eauto|].
      apply elem_of_cons in Hc as [->|Hc]; [eauto|].
      exact (traverse_elem_Ok (λ c0, col_pos c0 (columns df)) _ _ c Hvps Hc). }
    apply Hnin. apply (list_elem_of_lookup_2 _ p). by apply col_pos_lookup.
  - apply traverse_Raise in Hvps as (l & _ & Hl).
    destruct (col_pos_NoDup l _ Hnd) as [[p Hp]|[Hl' Hl'']]; [congruence|].
    exists l. split; [|done]. simpl. congruence.
Qed.

Lemma results_need_their_columns_witness :
  ∃ l, compute_referendum_result_by_regions ex_referendum
         = Raise (KeyError l) ∧
       (l ∉ columns ex_referendum).
Proof.
  apply (results_need_their_columns ex_referendum "name_reg").
  - by_compute.
  - by_compute.
  - by_compute.
Defined.

(** ** Exceptions of [plot_referendum_map] and the caller's table *)

Section PlotErrors.
Variable rnd : Q → Q.
Variable read_file : string → result DataFrame.

(** X17.  When the region file has no column [code] the call raises
    [KeyError], after the column [ratio] has been set on the caller's table. *)
Theorem region_file_without_code (r : ref) (h : gmap nat DataFrame)
    (df geo : DataFrame) :
  h !! r = Some df → regional_results df →
  read_file "data/regions.geojson" = Ok geo → "code" ∉ columns geo →
  ∃ df' ratio,
    plot_referendum_map rnd read_file r h =
      (Raise (KeyError "code"), <[r := df']> h) ∧
    ratios rnd df = Ok ratio ∧ getitem df' "ratio" = Ok ratio.
Proof.
  intros Hr (Hwf & Hix & Hkeys & HA & HB & Hpos) Hfile Hnin.
  rewrite (plot_referendum_map_run rnd read_file r h df) by done.
  rewrite Hfile.
  destruct (ratios_total rnd df HA HB) as [ratio Hratio]. rewrite Hratio.
  destruct (setitem_total df "ratio" ratio) as [df1 Hset]; [|done|].
  { by apply ratios_length in Hratio. }
  rewrite Hset. exists df1, ratio. split_and!; [|done|by eapply getitem_setitem].
  unfold getitem. by rewrite col_pos_missing.
Qed.

(** When the file cannot be read the call raises before it touches the
    table of results. *)
Lemma plot_referendum_map_no_file r h e :
  read_file "data/regions.geojson" = Raise e →
  plot_referendum_map rnd read_file r h = (Raise e, h).
Proof.
  intros H. unfold plot_referendum_map. py_bind. unfold lift at 1.
  by rewrite H.
Qed.

End PlotErrors.

Lemma region_file_without_code_witness :
  ∃ df' ratio,
    plot_referendum_map (λ q, q) ex_files_without_code 0%nat
      (<[0%nat := ex_results]> ∅) =
      (Raise (KeyError "code"), <[0%nat := df']> (<[0%nat := ex_results]> ∅)) ∧
    ratios (λ q, q) ex_results = Ok ratio ∧ getitem df' "ratio" = Ok ratio.
Proof.
  apply (region_file_without_code (λ q, q) ex_files_without_code 0%nat
           (<[0%nat := ex_results]> ∅) ex_results
           (mkDF [] ["nom"; "geometry"]
              [mkRow [] [VStr "Ile-de-France"; VGeom 2]])).
  - reflexivity.
  - exact ex_results_shape.
  - reflexivity.
  - by_compute.
Defined.

(** ** The columns of a join on a key that is unique on the right *)

Section joined_rows.
Context (g : Row → list value) (R : list (key * list value)).
Implicit Types (lk : list key) (ls : list Row).

Local Abbreviation row_of :=
  (λ kl : key * Row,
     mkRow (g kl.2) (cells kl.2 ++ default [] (assoc kl.1 R))).

Lemma joined_rows_left lk ls p :
  (∀ l, l ∈ ls → (p < length (cells l))%nat) →
  cell p <$> (row_of <$> filter (λ kl, kl.1 ∈ R.*1) (zip lk ls)) =
  keep ((λ k, bool_decide (k ∈ R.*1)) <$> lk) (cell p <$> ls).
Proof.
  intros Hp. rewrite <- list_fmap_compose.
  rewrite (list_fmap_ext _ (cell p ∘ snd)
             (filter (λ kl, kl.1 ∈ R.*1) (zip lk ls))).
  2:{ intros _ [k l] Hkl%list_elem_of_lookup_2.
      apply list_elem_of_filter in Hkl as [_ Hkl].
      apply elem_of_zip_r in Hkl.
      unfold cell. simpl. apply app_nth1. by apply Hp. }
  rewrite list_fmap_compose.
  pose proof (filter_zip_keep (λ k, k ∈ R.*1) lk ls) as Hf.
  cbv beta in Hf. rewrite Hf. by rewrite keep_fmap.
Qed.

Lemma joined_rows_right lk ls n q i k x :
  NoDup R.*1 → length lk = length ls →
  (∀ l, l ∈ ls → length (cells l) = n) →
  filter (λ k, k ∈ R.*1) lk !! i = Some k → (k, x) ∈ R →
  (cell (n + q) <$> (row_of <$> filter (λ kl, kl.1 ∈ R.*1) (zip lk ls)))
    !! i = Some (nth q x nan).
Proof.
  intros Hnd Hlen Hn Hi Hx.
  pose proof (filter_zip_fst (λ k, k ∈ R.*1) lk ls Hlen) as Hf.
  cbv beta in Hf. rewrite <- Hf in Hi.
  rewrite !list_lookup_fmap in *.
  destruct (filter (λ kl, kl.1 ∈ R.*1) (zip lk ls) !! i) as [[k' l]|] eqn:E;
    [|done].
  simpl in Hi. injection Hi as ->. simpl. f_equal.
  apply list_elem_of_lookup_2, list_elem_of_filter in E as [_ E].
  apply elem_of_zip_r in E.
  unfold cell. simpl. rewrite (assoc_NoDup R k x) by done. simpl.
  rewrite <- (Hn l E). apply app_nth2_plus.
Qed.

Lemma length_joined_rows lk ls :
  length lk = length ls →
  length (row_of <$> filter (λ kl, kl.1 ∈ R.*1) (zip lk ls)) =
  length (filter (λ k, k ∈ R.*1) lk).
Proof.
  intros Hlen. rewrite length_fmap.
  pose proof (filter_zip_fst (λ k, k ∈ R.*1) lk ls Hlen) as Hf.
  cbv beta in Hf. by rewrite <- Hf, length_fmap.
Qed.

End joined_rows.

(** ** The table of [plot_referendum_map] *)

Section PlotTable.
Variable rnd : Q → Q.
Variable read_file : string → result DataFrame.

(** With one row per region code in the table of results, the rows of the
    table returned are the regions of the file whose code is the code of a
    result, each followed by the cells of that result. *)
Lemma plot_referendum_map_rows r h df geo gc gcodes rcodes :
  h !! r = Some df → regional_results df →
  read_file "data/regions.geojson" = Ok geo → wf geo →
  getitem geo "code" = Ok gc → traverse astype_str gc = Ok gcodes →
  ix <$> rows df = (λ R, [VStr R]) <$> rcodes → NoDup rcodes →
  ∃ df1 geo1 ratio,
    ratios rnd df = Ok ratio ∧ setitem df "ratio" ratio = Ok df1 ∧
    setitem geo "code" (VStr <$> gcodes) = Ok geo1 ∧
    let R := zip (KStr <$> rcodes) (cells <$> rows df1) in
    R.*1 = KStr <$> rcodes ∧
    plot_referendum_map rnd read_file r h =
    (Ok (mkDF (index_names geo)
           (merged_columns (columns geo) (columns df1))
           ((λ kl, mkRow (ix kl.2)
                     (cells kl.2 ++ default [] (assoc kl.1 R))) <$>
            filter (λ kl, kl.1 ∈ R.*1) (zip (KStr <$> gcodes) (rows geo1)))),
     <[r := df1]> h).
Proof.
  intros Hr Hres Hfile Hwfg Hgc Hgcodes Hrc Hnd.
  destruct (plot_referendum_map_join rnd read_file r h df geo gc gcodes rcodes)
    as (df1 & geo1 & ratio & Hratio & Hset & Hset1 & ->); try done.
  exists df1, geo1, ratio.
  split; [done|]. split; [done|]. split; [done|].
  set (R := zip (KStr <$> rcodes) (cells <$> rows df1)).
  assert (length rcodes = length (rows df1)) as Hlen.
  { apply setitem_rows_ix in Hset as [_ Hset].
    rewrite <- (length_fmap ix), Hset, Hrc. by rewrite length_fmap. }
  assert (R.*1 = KStr <$> rcodes) as HR.
  { apply fst_zip. rewrite !length_fmap. lia. }
  split; [done|]. do 3 f_equal.
  apply join_joined_inner.
  - change (NoDup R.*1). rewrite HR. by apply (NoDup_fmap_2 KStr).
  - rewrite length_fmap. apply traverse_length in Hgcodes.
    apply getitem_length in Hgc.
    apply setitem_Ok in Hset1 as (_ & _ & ->). simpl.
    rewrite length_zip_with, length_fmap. lia.
Qed.

End PlotTable.

Lemma with_result_keys rcodes gcodes :
  filter (λ k, k ∈ KStr <$> rcodes) (KStr <$> gcodes) =
  KStr <$> keep (with_result rcodes gcodes) gcodes.
Proof.
  unfold with_result. induction gcodes as [|c gcodes IH]; [done|].
  csimpl. rewrite filter_cons, keep_cons. case_decide as Hin.
  - rewrite bool_decide_true by by apply (list_elem_of_fmap_inj KStr) in Hin.
    csimpl. by rewrite IH.
  - rewrite bool_decide_false; [done|].
    intros Hc. apply Hin. by apply list_elem_of_fmap_2.
Qed.

Lemma with_result_mask (R : list (key * list value)) rcodes gcodes :
  R.*1 = KStr <$> rcodes →
  (λ k, bool_decide (k ∈ R.*1)) <$> (KStr <$> gcodes) =
  with_result rcodes gcodes.
Proof.
  intros ->. unfold with_result. rewrite <- list_fmap_compose.
  apply list_fmap_ext. intros _ c _. simpl. apply bool_decide_ext.
  apply (list_elem_of_fmap_inj KStr).
Qed.

Section PlotColumns.
Variable rnd : Q → Q.
Variable read_file : string → result DataFrame.

(** X18.  The columns of the region file in the table returned: the regions
    whose code, as a string, is the index of a result, in the order of the
    file. A region without a result is left out. *)
Theorem map_table_keeps_the_regions (r : ref) (h : gmap nat DataFrame)
    (df geo : DataFrame) (gc : Series) (gcodes rcodes : list string) :
  h !! r = Some df → regional_results df →
  read_file "data/regions.geojson" = Ok geo → wf geo →
  getitem geo "code" = Ok gc → traverse astype_str gc = Ok gcodes →
  ix <$> rows df = (λ R, [VStr R]) <$> rcodes → NoDup rcodes →
  (∀ d, d ∈ columns geo → (d ∉ columns df) ∧ d ≠ "ratio") →
  ∃ gdf h',
    plot_referendum_map rnd read_file r h = (Ok gdf, h') ∧
    getitem gdf "code" =
      Ok (VStr <$> keep (with_result rcodes gcodes) gcodes) ∧
    ∀ c s, c ≠ "code" → getitem geo c = Ok s →
      getitem gdf c = Ok (keep (with_result rcodes gcodes) s).
Proof.
  intros Hr Hres Hfile Hwfg Hgc Hgcodes Hrc Hnd Hdisj.
  destruct (plot_referendum_map_rows rnd read_file r h df geo gc gcodes rcodes)
    as (df1 & geo1 & ratio & Hratio & Hset & Hset1 & HR & Hrun); try done.
  eexists _, _. split; [exact Hrun|].
  set (R := zip (KStr <$> rcodes) (cells <$> rows df1)) in *.
  pose proof (wf_setitem _ _ _ _ Hwfg Hset1) as Hwf1.
  assert (columns geo1 = columns geo) as Hcols1.
  { apply setitem_Ok in Hset1 as (_ & _ & ->). simpl.
    apply getitem_Ok in Hgc as (p & Hp%col_pos_Ok & _). by rewrite Hp. }
  assert (∀ d, d ∈ columns geo → d ∉ columns df1) as Hdisj1.
  { intros d Hd Hin. destruct (Hdisj d Hd) as [H1 H2].
    by destruct (columns_setitem _ _ _ _ _ Hset Hin). }
  assert (∀ c s1, getitem geo1 c = Ok s1 →
            getitem {| index_names := index_names geo;
                       columns := merged_columns (columns geo) (columns df1);
                       rows := (λ kl : key * Row,
                                  mkRow (ix kl.2)
                                    (cells kl.2 ++ default [] (assoc kl.1 R)))
                               <$> filter (λ kl, kl.1 ∈ R.*1)
                                     (zip (KStr <$> gcodes) (rows geo1)) |} c
            = Ok (keep (with_result rcodes gcodes) s1)) as Hleft.
  { intros c s1 (p & Hp & ->)%getitem_Ok. rewrite Hcols1 in Hp.
    unfold getitem. cbn [columns rows].
    rewrite merged_columns_disjoint by done.
    rewrite (col_pos_app_l _ _ _ p); [|done|].
    2:{ apply Hdisj1. apply (list_elem_of_lookup_2 _ p).
        by apply col_pos_lookup. }
    cbn [mbind result_bind]. f_equal.
    rewrite (joined_rows_left ix R).
    - by rewrite (with_result_mask R rcodes gcodes).
    - intros l Hl. rewrite (wf_row_cells geo1) by done.
      rewrite Hcols1. by eapply col_pos_lt. }
  split.
  - rewrite <- keep_fmap. apply Hleft.
    exact (getitem_setitem _ _ _ _ Hwfg Hset1).
  - intros c s Hc Hs. apply Hleft.
    by rewrite (getitem_setitem_ne geo "code" (VStr <$> gcodes) geo1).
Qed.

(** X19.  The columns of the results in the table returned, [ratio] among
    them: every region carries the values of the result whose index is its
    code. *)
Theorem map_table_attaches_the_results (r : ref) (h : gmap nat DataFrame)
    (df geo : DataFrame) (gc : Series) (gcodes rcodes : list string) :
  h !! r = Some df → regional_results df →
  read_file "data/regions.geojson" = Ok geo → wf geo →
  getitem geo "code" = Ok gc → traverse astype_str gc = Ok gcodes →
  ix <$> rows df = (λ R, [VStr R]) <$> rcodes → NoDup rcodes →
  (∀ d, d ∈ columns geo → (d ∉ columns df) ∧ d ≠ "ratio") →
  ∃ gdf df' ratio,
    plot_referendum_map rnd read_file r h = (Ok gdf, <[r := df']> h) ∧
    getitem df' "ratio" = Ok ratio ∧
    ∀ c s, getitem df' c = Ok s →
      ∃ so, getitem gdf c = Ok so ∧
        length so = length (keep (with_result rcodes gcodes) gcodes) ∧
        ∀ i code j,
          keep (with_result rcodes gcodes) gcodes !! i = Some code →
          rcodes !! j = Some code → so !! i = s !! j.
Proof.
  intros Hr Hres Hfile Hwfg Hgc Hgcodes Hrc Hnd Hdisj.
  destruct (plot_referendum_map_rows rnd read_file r h df geo gc gcodes rcodes)
    as (df1 & geo1 & ratio & Hratio & Hset & Hset1 & HR & Hrun); try done.
  destruct Hres as (Hwf & _).
  eexists _, df1, ratio. split; [exact Hrun|].
  split; [exact (getitem_setitem _ _ _ _ Hwf Hset)|].
  set (R := zip (KStr <$> rcodes) (cells <$> rows df1)) in *.
  pose proof (wf_setitem _ _ _ _ Hwfg Hset1) as Hwf1.
  assert (columns geo1 = columns geo) as Hcols1.
  { apply setitem_Ok in Hset1 as (_ & _ & ->). simpl.
    apply getitem_Ok in Hgc as (p & Hp%col_pos_Ok & _). by rewrite Hp. }
  assert (∀ d, d ∈ columns geo → d ∉ columns df1) as Hdisj1.
  { intros d Hd Hin. destruct (Hdisj d Hd) as [H1 H2].
    by destruct (columns_setitem _ _ _ _ _ Hset Hin). }
  assert (length (KStr <$> gcodes) = length (rows geo1)) as Hlen.
  { rewrite length_fmap. apply traverse_length in Hgcodes.
    apply getitem_length in Hgc.
    apply setitem_Ok in Hset1 as (_ & _ & ->). simpl.
    rewrite length_zip_with, length_fmap. lia. }
  assert (NoDup R.*1) as HndR.
  { rewrite HR. by apply (NoDup_fmap_2 KStr). }
  intros c s (q & Hq & ->)%getitem_Ok.
  unfold getitem. cbn [columns rows].
  rewrite merged_columns_disjoint by done.
  rewrite (col_pos_app_r _ _ _ q); [|intros Hin; by apply (Hdisj1 c);
    [|apply (list_elem_of_lookup_2 _ q), col_pos_lookup]|done].
  cbn [mbind result_bind]. eexists. split; [done|]. split.
  { rewrite (length_fmap (cell _)), (length_joined_rows ix R) by done.
    by rewrite HR, with_result_keys, length_fmap. }
  intros i code j Hi Hj.
  assert (length rcodes = length (rows df1)) as Hlenr.
  { apply setitem_rows_ix in Hset as [_ Hs].
    rewrite <- (length_fmap ix), Hs, Hrc. by rewrite length_fmap. }
  destruct (rows df1 !! j) as [o|] eqn:Ho.
  2:{ apply lookup_ge_None in Ho. apply lookup_lt_Some in Hj. lia. }
  rewrite (joined_rows_right ix R _ _ (length (columns geo)) q i
             (KStr code) (cells o)); try done.
  - by rewrite list_lookup_fmap, Ho.
  - intros l Hl. by rewrite (wf_row_cells geo1), Hcols1.
  - by rewrite HR, with_result_keys, list_lookup_fmap, Hi.
  - apply (list_elem_of_lookup_2 _ j). apply lookup_zip_with_Some.
    exists (KStr code), (cells o).
    split; [done|]. by rewrite !list_lookup_fmap, Hj, Ho.
Qed.

End PlotColumns.

Lemma ex_geo_labels_disjoint :
  ∀ d, d ∈ columns ex_geo → (d ∉ columns ex_results) ∧ d ≠ "ratio".
Proof.
  intros d Hd.
  repeat (apply elem_of_cons in Hd as [->|Hd]);
    try (split; [by_compute|done]). by apply elem_of_nil in Hd.
Defined.

Lemma map_table_keeps_the_regions_witness :
  ∃ gdf h',
    plot_referendum_map (λ q, q) ex_files 0%nat (<[0%nat := ex_results]> ∅)
      = (Ok gdf, h') ∧
    getitem gdf "code" =
      Ok (VStr <$> keep (with_result ["11"; "84"] ["84"; "11"; "32"])
                     ["84"; "11"; "32"]) ∧
    ∀ c s, c ≠ "code" → getitem ex_geo c = Ok s →
      getitem gdf c = Ok (keep (with_result ["11"; "84"] ["84"; "11"; "32"]) s).
Proof.
  apply (map_table_keeps_the_regions (λ q, q) ex_files 0%nat
           (<[0%nat := ex_results]> ∅) ex_results ex_geo
           [VInt 84; VInt 11; VInt 32]).
  - reflexivity.
  - exact ex_results_shape.
  - reflexivity.
  - vm_compute. repeat constructor.
  - reflexivity.
  - vm_compute. reflexivity.
  - reflexivity.
  - by_compute.
  - exact ex_geo_labels_disjoint.
Defined.

Lemma map_table_attaches_the_results_witness :
  ∃ gdf df' ratio,
    plot_referendum_map (λ q, q) ex_files 0%nat (<[0%nat := ex_results]> ∅)
      = (Ok gdf, <[0%nat := df']> (<[0%nat := ex_results]> ∅)) ∧
    getitem df' "ratio" = Ok ratio ∧
    ∀ c s, getitem df' c = Ok s →
      ∃ so, getitem gdf c = Ok so ∧
        length so =
          length (keep (with_result ["11"; "84"] ["84"; "11"; "32"])
                    ["84"; "11"; "32"]) ∧
        ∀ i code j,
          keep (with_result ["11"; "84"] ["84"; "11"; "32"])
            ["84"; "11"; "32"] !! i = Some code →
          ["11"; "84"] !! j = Some code → so !! i = s !! j.
Proof.
  apply (map_table_attaches_the_results (λ q, q) ex_files 0%nat
           (<[0%nat := ex_results]> ∅) ex_results ex_geo
           [VInt 84; VInt 11; VInt 32]).
  - reflexivity.
  - exact ex_results_shape.
  - reflexivity.
  - vm_compute. repeat constructor.
  - reflexivity.
  - vm_compute. reflexivity.
  - reflexivity.
  - by_compute.
  - exact ex_geo_labels_disjoint.
Defined.

(** ** Calling [plot_referendum_map] again *)

Section PlotAgain.
Variable rnd : Q → Q.
Variable read_file : string → result DataFrame.

(** X20.  On a table of results whose index holds strings, a second call on
    the table that the first call left returns the same table and changes
    nothing: the ratio is computed from Choice A and Choice B alone. *)
Theorem second_map_changes_nothing (r : ref) (h : gmap nat DataFrame)
    (df geo : DataFrame) (rcodes : list string) :
  h !! r = Some df → regional_results df →
  ix <$> rows df = (λ R, [VStr R]) <$> rcodes →
  read_file "data/regions.geojson" = Ok geo → region_file geo →
  ∃ gdf h',
    plot_referendum_map rnd read_file r h = (Ok gdf, h') ∧
    plot_referendum_map rnd read_file r h' = (Ok gdf, h').
Proof.
  intros Hr Hres Hrc Hfile Hgeo.
  destruct (plot_referendum_map_returns rnd read_file r h df geo rcodes)
    as (gdf & df' & ratio & Hrun & Hratio & Hset & Hget); try done.
  destruct Hres as (Hwf & _).
  exists gdf, (<[r := df']> h). split; [done|].
  rewrite (plot_referendum_map_run rnd read_file r h df) in Hrun by done.
  rewrite Hfile, Hratio, Hset in Hrun.
  rewrite (plot_referendum_map_run rnd read_file r _ df')
    by by rewrite lookup_insert_eq.
  rewrite Hfile.
  assert (ratios rnd df' = Ok ratio) as ->.
  { unfold ratios in *.
    rewrite (getitem_setitem_ne df "ratio" ratio df' "Choice A") by done.
    by rewrite (getitem_setitem_ne df "ratio" ratio df' "Choice B"). }
  rewrite (setitem_same df' "ratio" ratio (wf_setitem _ _ _ _ Hwf Hset) Hget).
  by rewrite insert_insert_eq.
Qed.

End PlotAgain.

Lemma second_map_changes_nothing_witness :
  ∃ gdf h',
    plot_referendum_map (λ q, q) ex_files 0%nat (<[0%nat := ex_results]> ∅)
      = (Ok gdf, h') ∧
    plot_referendum_map (λ q, q) ex_files 0%nat h' = (Ok gdf, h').
Proof.
  apply (second_map_changes_nothing (λ q, q) ex_files 0%nat
           (<[0%nat := ex_results]> ∅) ex_results ex_geo ["11"; "84"]).
  - reflexivity.
  - exact ex_results_shape.
  - reflexivity.
  - reflexivity.
  - exact ex_geo_shape.
Defined.

(** ** When [compute_referendum_result_by_regions] returns *)

Lemma int_column_Ok df c :
  int_column df c →
  ∃ p, col_pos c (columns df) = Ok p ∧
       ∀ r, r ∈ rows df → ∃ n, as_int (cell p r) = Ok n.
Proof.
  unfold int_column. intros H.
  destruct (getitem df c) as [s|] eqn:Hs; [|done].
  apply getitem_Ok in Hs as (p & Hp & ->). exists p. split; [done|].
  simpl in H. apply is_Ok_exists in H as [ns Hns].
  rewrite traverse_fmap in Hns. intros r Hr.
  exact (traverse_elem_Ok _ _ _ r Hns Hr).
Qed.

Lemma key_column_Ok df c :
  key_column df c →
  ∃ p, col_pos c (columns df) = Ok p ∧
       ∀ r, r ∈ rows df → ∃ k, key_part (cell p r) = Ok k.
Proof.
  unfold key_column. intros H.
  destruct (getitem df c) as [s|] eqn:Hs; [|done].
  apply getitem_Ok in Hs as (p & Hp & ->). exists p. split; [done|].
  simpl in H. apply is_Ok_exists in H as [ns Hns].
  rewrite traverse_fmap in Hns. intros r Hr.
  exact (traverse_elem_Ok _ _ _ r Hns Hr).
Qed.

Lemma compute_referendum_result_by_regions_returns df :
  key_column df "code_reg" → key_column df "name_reg" →
  (∀ c, c ∈ numeric_columns → int_column df c) →
  ∃ res, compute_referendum_result_by_regions df = Ok res.
Proof.
  intros (p1 & Hp1 & Hk1)%key_column_Ok (p2 & Hp2 & Hk2)%key_column_Ok Hint.
  rewrite compute_referendum_result_by_regions_unfold.
  rewrite Hp1, Hp2. cbn [mbind result_bind].
  destruct (traverse_total (λ c, col_pos c (columns df)) numeric_columns)
    as [vps Hvps].
  { intros c Hc. destruct (int_column_Ok _ _ (Hint c Hc)) as (p & Hp & _).
    eauto. }
  rewrite Hvps. cbn [mbind result_bind].
  destruct (traverse_total (keyed_row [p1; p2] vps) (rows df))
    as [keyed Hkeyed]; [|rewrite Hkeyed; simpl; eauto].
  intros r Hr. unfold keyed_row, group_key. cbn [traverse].
  destruct (Hk1 r Hr) as [k1 ->]. destruct (Hk2 r Hr) as [k2 ->].
  cbn [mbind result_bind].
  destruct (traverse_total (λ p, as_int (cell p r)) vps) as [v ->];
    [|simpl; eauto].
  intros p (j & Hj)%list_elem_of_lookup_1.
  destruct (traverse_lookup_r _ _ _ _ _ Hvps Hj) as (c & Hc & Hcp).
  apply list_elem_of_lookup_2 in Hc.
  destruct (int_column_Ok _ _ (Hint c Hc)) as (p' & Hp' & Hints).
  assert (p' = p) as -> by congruence. by apply Hints.
Qed.

(** X12.  The aggregation returns on every table whose columns [code_reg] and
    [name_reg] hold strings or absent values and whose five columns to sum
    hold integers, and what it returns is a table that [plot_referendum_map]
    accepts: its index holds strings, the region codes. *)
Theorem results_fit_the_map (df : DataFrame) :
  key_column df "code_reg" → key_column df "name_reg" →
  (∀ c, c ∈ numeric_columns → int_column df c) →
  ∃ res, compute_referendum_result_by_regions df = Ok res ∧
         regional_results res ∧
         (∃ rcodes, ix <$> rows res = (λ R, [VStr R]) <$> rcodes) ∧
         index_names res = ["code_reg"] ∧
         columns res = "name_reg" :: numeric_columns.
Proof.
  intros H1 H2 H3.
  destruct (compute_referendum_result_by_regions_returns df H1 H2 H3)
    as [res Hres].
  exists res. split; [done|]. split; [|split].
  - by eapply compute_referendum_result_by_regions_shape.
  - by eapply compute_referendum_result_by_regions_index.
  - rewrite compute_referendum_result_by_regions_unfold in Hres.
    inv_bind Hres. by injection Hres as <-.
Qed.

Lemma results_fit_the_map_witness :
  ∃ res, compute_referendum_result_by_regions ex_joined_corse = Ok res ∧
         regional_results res ∧
         (∃ rcodes, ix <$> rows res = (λ R, [VStr R]) <$> rcodes) ∧
         index_names res = ["code_reg"] ∧
         columns res = "name_reg" :: numeric_columns.
Proof.
  apply (results_fit_the_map ex_joined_corse).
  - exact I.
  - exact I.
  - intros c Hc.
    repeat (apply elem_of_cons in Hc as [->|Hc]); try exact I.
    by apply elem_of_nil in Hc.
Defined.

(** ** The program from the files to the map *)

(** The table of areas, column by column. *)
Lemma areas_columns (g : value → value) (dr dc dn : Series) :
  length dr = length dc → length dr = length dn →
  let areas := mkDF [] ["code_reg"; "name_reg"; "code_dep"; "name_dep"]
                 (zip_with (λ r cn, mkRow [] [r; g r; cn.1; cn.2])
                    dr (zip dc dn)) in
  wf areas ∧
  getitem areas "code_reg" = Ok dr ∧
  getitem areas "name_reg" = Ok (g <$> dr) ∧
  getitem areas "code_dep" = Ok dc ∧
  getitem areas "name_dep" = Ok dn.
Proof.
  intros H1 H2 areas. subst areas. unfold getitem, wf. cbn [columns rows].
  change (col_pos "code_reg" _) with (Ok (A:=nat) 0%nat).
  change (col_pos "name_reg" _) with (Ok (A:=nat) 1%nat).
  change (col_pos "code_dep" _) with (Ok (A:=nat) 2%nat).
  change (col_pos "name_dep" _) with (Ok (A:=nat) 3%nat).
  cbn [mbind result_bind].
  revert dc dn H1 H2.
  induction dr as [|r dr IH]; intros [|c dc] [|n dn] H1 H2; try done.
  injection H1 as H1. injection H2 as H2.
  destruct (IH dc dn H1 H2) as (Hwf & Hr & Hg & Hc & Hn).
  csimpl. split_and!.
  - constructor; [done|]. exact Hwf.
  - f_equal. f_equal. by injection Hr.
  - f_equal. f_equal. by injection Hg.
  - f_equal. f_equal. by injection Hc.
  - f_equal. f_equal. by injection Hn.
Qed.

Lemma region_name_cases rc rn code :
  region_name rc rn code = nan ∨ region_name rc rn code ∈ rn.
Proof.
  unfold region_name.
  destruct (as_key code) as [k|]; [|by left].
  destruct (traverse as_key rc) as [ks|]; [|by left].
  destruct (assoc k (zip ks rn)) as [x|] eqn:Hx; [|by left].
  right. simpl. apply assoc_Some in Hx. by apply elem_of_zip_r in Hx.
Qed.

Lemma elem_of_keep_matched acs codes code :
  code ∈ keep (matched acs <$> codes) codes → code ∈ acs.
Proof.
  rewrite keep_filter. intros [Hm _]%list_elem_of_filter.
  unfold matched in Hm. apply andb_true_iff in Hm as [_ Hm].
  by apply bool_decide_eq_true in Hm.
Qed.

Lemma new_run df h :
  ∃ r, new df h = (Ok r, <[r := df]> h) ∧ h !! r = None.
Proof.
  exists (fresh (dom h)). split; [done|].
  apply not_elem_of_dom. apply is_fresh.
Qed.

(** The columns of the joined table that the aggregation reads hold what
    it expects. *)
Lemma joined_table_fits r a h df areas codes acs out h' dr names :
  h !! r = Some df → wf df → r ≠ a → h !! a = Some areas →
  dept_codes df = Ok codes →
  getitem areas "code_dep" = Ok (VStr <$> acs) → NoDup acs →
  columns areas = ["code_reg"; "name_reg"; "code_dep"; "name_dep"] →
  getitem areas "code_reg" = Ok dr → getitem areas "name_reg" = Ok names →
  Forall (λ v, is_Ok (key_part v)) dr →
  Forall (λ v, is_Ok (key_part v)) names →
  (∀ d, d ∈ ["code_reg"; "name_reg"; "code_dep"; "name_dep"] →
        d ∉ columns df) →
  (∀ c, c ∈ numeric_columns → int_column df c) →
  merge_referendum_and_areas r a h = (Ok out, h') →
  key_column out "code_reg" ∧ key_column out "name_reg" ∧
  ∀ c, c ∈ numeric_columns → int_column out c.
Proof.
  intros Hr Hwf Hne Ha Hcodes Hac Hnd Hcols Hdr Hnames Hkdr Hknames Hfree
    Hint Hrun.
  assert (length (positions "code_dep" (columns df)) ≤ 1)%nat as Hpos.
  { assert (positions "code_dep" (columns df) = []) as ->; [|simpl; lia].
    apply positions_nil, Hfree. by_compute. }
  assert (∀ d, d ∈ columns areas → d ≠ "code_dep" → d ∉ columns df)
    as Hdisj.
  { intros d Hd _. apply Hfree. by rewrite <- Hcols. }
  assert (∀ c sa, c ≠ "code_dep" → getitem areas c = Ok sa →
            Forall (λ v, is_Ok (key_part v)) sa → key_column out c)
    as Hkey.
  { intros c sa Hc Hsa Hk.
    destruct (joined_column_right r a h df areas codes acs c sa out h')
      as (so & Hso & Hlen & Hlook); try done.
    unfold key_column. rewrite Hso. simpl.
    destruct (traverse_total key_part so) as [ks ->]; [|done].
    intros v (i & Hi)%list_elem_of_lookup_1.
    destruct (keep (matched acs <$> codes) codes !! i) as [code|] eqn:Hcode.
    2:{ apply lookup_ge_None in Hcode. apply lookup_lt_Some in Hi. lia. }
    pose proof (list_elem_of_lookup_2 _ _ _ Hcode) as Hin.
    apply elem_of_keep_matched, list_elem_of_lookup_1 in Hin as [j Hj].
    rewrite (Hlook i code j Hcode Hj) in Hi.
    apply is_Ok_exists. rewrite Forall_forall in Hk. apply Hk.
    by apply list_elem_of_lookup_2 in Hi. }
  split_and!.
  - by apply (Hkey "code_reg" dr).
  - by apply (Hkey "name_reg" names).
  - intros c Hc. pose proof (Hint c Hc) as Hic. unfold int_column in *.
    destruct (getitem df c) as [s|] eqn:Hs; [|done]. simpl in Hic.
    destruct (merge_referendum_and_areas_rows r a h df areas codes acs)
      as (df1 & pl & pr & Hset & Hpl & Hpr & HR & Hrun'); try done.
    assert (c ≠ "code_dep") as Hne'.
    { intros ->. apply getitem_Ok in Hs as (p & Hp%col_pos_lookup & _).
      apply list_elem_of_lookup_2 in Hp. revert Hp. apply Hfree. by_compute. }
    rewrite (joined_column_left r a h df areas codes acs df1 c s out h');
      try done.
    + simpl. apply is_Ok_exists in Hic as [ns Hns].
      by rewrite (traverse_keep _ _ _ _ Hns).
    + by rewrite (getitem_setitem_ne df "code_dep" (VStr <$> codes) df1).
Qed.

Section MainFacts.
Variable rnd : Q → Q.
Variable read_file : string → result DataFrame.
Variable read_csv : string → string → result DataFrame.

(** The run of the program on files of the expected shapes: the region
    codes of the two reference tables and the department codes are
    strings, those of the regions and of the departments are unique, the
    region names are strings or absent, the five columns of the records
    hold integers, and the labels that the program introduces are free in
    the table of records. *)
Lemma main_run (h : gmap nat DataFrame)
    (rdf regions departments geo : DataFrame)
    (rc rn dr dn : Series) (acs codes : list string) :
  read_csv "data/referendum.csv" ";" = Ok rdf →
  read_csv "data/regions.csv" "," = Ok regions →
  read_csv "data/departments.csv" "," = Ok departments →
  read_file "data/regions.geojson" = Ok geo →
  regions_table regions rc rn → strings rc → NoDup rc →
  Forall (λ v, is_Ok (key_part v)) rn →
  departments_table departments dr (VStr <$> acs) dn → NoDup acs →
  strings dr →
  wf rdf → dept_codes rdf = Ok codes →
  (∀ c, c ∈ numeric_columns → int_column rdf c) →
  (∀ d, d ∈ ["code_reg"; "name_reg"; "code_dep"; "name_dep"] →
        d ∉ columns rdf) →
  region_file geo →
  ∃ r0 r1 r2 areas df1 out res res' gdf ratio,
    h !! r0 = None ∧ h !! r1 = None ∧ h !! r2 = None ∧
    r0 ≠ r1 ∧ r2 ≠ r0 ∧ r2 ≠ r1 ∧
    areas = mkDF [] ["code_reg"; "name_reg"; "code_dep"; "name_dep"]
              (zip_with (λ r cn, mkRow [] [r; region_name rc rn r; cn.1; cn.2])
                 dr (zip (VStr <$> acs) dn)) ∧
    merge_referendum_and_areas r0 r1 (<[r1 := areas]> (<[r0 := rdf]> h)) =
      (Ok out, <[r0 := df1]> (<[r1 := areas]> (<[r0 := rdf]> h))) ∧
    compute_referendum_result_by_regions out = Ok res ∧
    ratios rnd res = Ok ratio ∧ setitem res "ratio" ratio = Ok res' ∧
    main rnd read_file read_csv h =
      (Ok gdf,
       <[r2 := res']> (<[r2 := res]>
         (<[r0 := df1]> (<[r1 := areas]> (<[r0 := rdf]> h))))).
Proof.
  intros Hcsv1 Hcsv2 Hcsv3 Hfile Hreg Hsrc Hndr Hkrn Hdep Hnda Hsdr Hwf Hcodes
    Hint Hfree Hgeo.
  unfold main, load_data. rewrite Hcsv1, Hcsv2, Hcsv3.
  cbn [mbind result_bind]. py_bind. unfold lift at 1.
  py_bind. destruct (new_run rdf h) as (r0 & -> & Hr0).
  py_bind. unfold lift at 1.
  assert (Forall (λ v, is_Ok (key_part v)) dr) as Hkdr.
  { eapply Forall_impl; [exact Hsdr|]. by intros [| | |]. }
  pose proof Hsrc as [rcs Hrcs]%strings_fmap.
  pose proof Hsdr as [drs Hdrs]%strings_fmap.
  rewrite (merge_regions_and_departments_rows _ _ rc rn dr (VStr <$> acs) dn
             (KStr <$> drs) (KStr <$> rcs));
    [|done|done|done|rewrite Hdrs; apply traverse_as_key_strings|
      rewrite Hrcs; apply traverse_as_key_strings].
  rewrite check_dtypes_strings. cbn [mbind result_bind].
  clear rcs drs Hrcs Hdrs.
  set (areas := mkDF [] ["code_reg"; "name_reg"; "code_dep"; "name_dep"] _).
  py_bind. destruct (new_run areas (<[r0 := rdf]> h)) as (r1 & -> & Hr1).
  assert (r0 ≠ r1) as Hne.
  { intros ->. by rewrite lookup_insert_eq in Hr1. }
  set (h1 := <[r1 := areas]> (<[r0 := rdf]> h)).
  assert (h1 !! r0 = Some rdf) as Hh0.
  { unfold h1. by rewrite lookup_insert_ne, lookup_insert_eq. }
  assert (h1 !! r1 = Some areas) as Hh1.
  { unfold h1. by rewrite lookup_insert_eq. }
  assert (length dr = length (VStr <$> acs) ∧ length dr = length dn)
    as [Hl1 Hl2].
  { destruct Hdep as [H1 H2 H3 _ _].
    apply getitem_length in H1, H2, H3. split; congruence. }
  destruct (areas_columns (region_name rc rn) dr (VStr <$> acs) dn Hl1 Hl2)
    as (Hwfa & Hadr & Hanames & Hacd & Hadn).
  fold areas in Hwfa, Hadr, Hanames, Hacd, Hadn.
  assert (length (positions "code_dep" (columns rdf)) ≤ 1)%nat as Hpos.
  { assert (positions "code_dep" (columns rdf) = []) as ->; [|simpl; lia].
    apply positions_nil, Hfree. by_compute. }
  destruct (merge_referendum_and_areas_rows r0 r1 h1 rdf areas codes acs)
    as (df1 & pl & pr & Hset & Hpl & Hpr & HR & Hrun); try done.
  py_bind. rewrite Hrun.
  assert (Forall (λ v, is_Ok (key_part v)) (region_name rc rn <$> dr))
    as Hknames.
  { apply Forall_fmap, Forall_forall. intros code _. simpl.
    destruct (region_name_cases rc rn code) as [->|Hin]; [done|].
    rewrite Forall_forall in Hkrn. by apply Hkrn. }
  edestruct (joined_table_fits r0 r1 h1 rdf areas codes acs)
    as (Hk1 & Hk2 & Hints);
    [exact Hh0|exact Hwf|exact Hne|exact Hh1|exact Hcodes|exact Hacd|
     exact Hnda|reflexivity|exact Hadr|exact Hanames|exact Hkdr|
     exact Hknames|exact Hfree|exact Hint|exact Hrun|].
  destruct (compute_referendum_result_by_regions_returns _ Hk1 Hk2 Hints)
    as [res Hres].
  py_bind. unfold lift at 1. rewrite Hres.
  py_bind. destruct (new_run res (<[r0 := df1]> h1)) as (r2 & -> & Hr2).
  pose proof (compute_referendum_result_by_regions_shape _ _ Hres) as Hshape.
  destruct (compute_referendum_result_by_regions_index _ _ Hres)
    as [rcodes Hrcodes].
  destruct (plot_referendum_map_returns rnd read_file r2
              (<[r2 := res]> (<[r0 := df1]> h1)) res geo rcodes)
    as (gdf & res' & ratio & Hplot & Hratio & Hsetr & Hgetr); try done.
  { by rewrite lookup_insert_eq. }
  py_bind. rewrite Hplot.
  assert (r2 ≠ r0) as Hne20.
  { intros ->. by rewrite lookup_insert_eq in Hr2. }
  assert (r2 ≠ r1) as Hne21.
  { intros ->. unfold h1 in Hr2.
    by rewrite lookup_insert_ne, lookup_insert_eq in Hr2. }
  eexists r0, r1, r2, areas, df1, _, res, res', gdf, ratio.
  split_and!; try done.
  - rewrite lookup_insert_ne in Hr1 by done. done.
  - unfold h1 in Hr2. by rewrite !lookup_insert_ne in Hr2.
Qed.

(** X21.  The program runs to its end on files of the expected shapes
    (codes that are strings, unique region and department codes, integer
    counts), and leaves the tables that existed before as they were: it
    adds its own tables to the store. *)
Theorem main_returns (h : gmap nat DataFrame)
    (rdf regions departments geo : DataFrame)
    (rc rn dr dn : Series) (acs codes : list string) :
  read_csv "data/referendum.csv" ";" = Ok rdf →
  read_csv "data/regions.csv" "," = Ok regions →
  read_csv "data/departments.csv" "," = Ok departments →
  read_file "data/regions.geojson" = Ok geo →
  regions_table regions rc rn → strings rc → NoDup rc →
  Forall (λ v, is_Ok (key_part v)) rn →
  departments_table departments dr (VStr <$> acs) dn → NoDup acs →
  strings dr →
  wf rdf → dept_codes rdf = Ok codes →
  (∀ c, c ∈ numeric_columns → int_column rdf c) →
  (∀ d, d ∈ ["code_reg"; "name_reg"; "code_dep"; "name_dep"] →
        d ∉ columns rdf) →
  region_file geo →
  ∃ gdf h',
    main rnd read_file read_csv h = (Ok gdf, h') ∧ h ⊆ h'.
Proof.
  intros Hcsv1 Hcsv2 Hcsv3 Hfile Hreg Hsrc Hndr Hkrn Hdep Hnda Hsdr Hwf Hcodes
    Hint Hfree Hgeo.
  destruct (main_run h rdf regions departments geo rc rn dr dn acs codes)
    as (r0 & r1 & r2 & areas & df1 & out & res & res' & gdf & ratio &
        Hr0 & Hr1 & Hr2 & Hne01 & Hne20 & Hne21 & _ & _ & _ & _ & _ & Hmain);
    try done.
  eexists _, _. split; [exact Hmain|].
  apply map_subseteq_spec. intros i x Hi.
  assert (i ≠ r0) by (intros ->; congruence).
  assert (i ≠ r1) by (intros ->; congruence).
  assert (i ≠ r2) by (intros ->; congruence).
  by rewrite !lookup_insert_ne.
Qed.

(** The regions of the records that are joined. *)
Lemma with_region_joined (rc rn dr so1 so2 : Series) (acs K : list string) :
  NoDup acs → length dr = length acs →
  (∀ code, code ∈ K → code ∈ acs) →
  length so1 = length K → length so2 = length K →
  (∀ i code j, K !! i = Some code → acs !! j = Some code →
     so1 !! i = dr !! j) →
  (∀ i code j, K !! i = Some code → acs !! j = Some code →
     so2 !! i = (region_name rc rn <$> dr) !! j) →
  with_region so1 so2 = region_known rc rn dr acs <$> K.
Proof.
  intros Hnd Hlen HK Hl1 Hl2 H1 H2. apply list_eq. intros i.
  unfold with_region. rewrite lookup_zip_with, list_lookup_fmap.
  destruct (K !! i) as [code|] eqn:Hcode.
  - pose proof (list_elem_of_lookup_2 _ _ _ Hcode) as Hin.
    apply HK, list_elem_of_lookup_1 in Hin as [j Hj].
    rewrite (H1 i code j Hcode Hj), (H2 i code j Hcode Hj).
    rewrite list_lookup_fmap.
    destruct (dr !! j) as [v|] eqn:Hv.
    2:{ apply lookup_ge_None in Hv. apply lookup_lt_Some in Hj. lia. }
    simpl. f_equal. unfold region_known.
    rewrite (region_name_found (VStr <$> acs) dr (VStr code) j v); try done.
    + by destruct v as [| | |].
    + by rewrite traverse_as_key_strings.
    + by apply (NoDup_fmap_2 VStr).
    + by rewrite length_fmap.
    + by rewrite list_lookup_fmap, Hj.
  - simpl. apply lookup_ge_None in Hcode.
    assert (so1 !! i = None) as -> by (apply lookup_ge_None; lia). done.
Qed.

(** X22.  From the files to the results, on files of the expected shapes:
    the sums of a column of the results add up to the int64 total of that
    column over the records whose code passes the filter on ['Z'] and is
    the code of a department of a region with a name. *)
Theorem main_counts_the_records_of_known_regions (h : gmap nat DataFrame)
    (rdf regions departments geo : DataFrame)
    (rc rn dr dn : Series) (acs codes : list string) :
  read_csv "data/referendum.csv" ";" = Ok rdf →
  read_csv "data/regions.csv" "," = Ok regions →
  read_csv "data/departments.csv" "," = Ok departments →
  read_file "data/regions.geojson" = Ok geo →
  regions_table regions rc rn → strings rc → NoDup rc →
  Forall (λ v, is_Ok (key_part v)) rn →
  departments_table departments dr (VStr <$> acs) dn → NoDup acs →
  strings dr →
  wf rdf → dept_codes rdf = Ok codes →
  (∀ c, c ∈ numeric_columns → int_column rdf c) →
  (∀ d, d ∈ ["code_reg"; "name_reg"; "code_dep"; "name_dep"] →
        d ∉ columns rdf) →
  region_file geo →
  ∃ gdf h' r res,
    main rnd read_file read_csv h = (Ok gdf, h') ∧
    h !! r = None ∧ h' !! r = Some res ∧
    ∀ c vals, c ∈ numeric_columns → getitem rdf c = Ok vals →
      ∃ sums_out,
        getitem res c = Ok (VInt <$> sums_out) ∧
        total sums_out = sum_over (counted rc rn dr acs <$> codes) vals.
Proof.
  intros Hcsv1 Hcsv2 Hcsv3 Hfile Hreg Hsrc Hndr Hkrn Hdep Hnda Hsdr Hwf Hcodes
    Hint Hfree Hgeo.
  destruct (main_run h rdf regions departments geo rc rn dr dn acs codes)
    as (r0 & r1 & r2 & areas & df1 & out & res & res' & gdf & ratio &
        Hr0 & Hr1 & Hr2 & Hne01 & Hne20 & Hne21 & Hareas & Hrun & Hres &
        Hratio & Hsetr & Hmain);
    try done.
  eexists gdf, _, r2, res'. split; [exact Hmain|]. split; [done|].
  split; [by rewrite lookup_insert_eq|].
  intros c vals Hc Hvals.
  set (h1 := <[r1 := areas]> (<[r0 := rdf]> h)) in *.
  assert (h1 !! r0 = Some rdf) as Hh0.
  { unfold h1. by rewrite lookup_insert_ne, lookup_insert_eq. }
  assert (h1 !! r1 = Some areas) as Hh1.
  { unfold h1. by rewrite lookup_insert_eq. }
  assert (length dr = length (VStr <$> acs) ∧ length dr = length dn)
    as [Hl1 Hl2].
  { destruct Hdep as [H1 H2 H3 _ _].
    apply getitem_length in H1, H2, H3. split; congruence. }
  destruct (areas_columns (region_name rc rn) dr (VStr <$> acs) dn Hl1 Hl2)
    as (Hwfa & Hadr & Hanames & Hacd & Hadn).
  rewrite <- Hareas in Hwfa, Hadr, Hanames, Hacd, Hadn.
  assert (length (positions "code_dep" (columns rdf)) ≤ 1)%nat as Hpos.
  { assert (positions "code_dep" (columns rdf) = []) as ->; [|simpl; lia].
    apply positions_nil, Hfree. by_compute. }
  assert (∀ d, d ∈ columns areas → d ≠ "code_dep" → d ∉ columns rdf)
    as Hdisj.
  { intros d Hd _. apply Hfree. by rewrite Hareas in Hd. }
  destruct (merge_referendum_and_areas_rows r0 r1 h1 rdf areas codes acs)
    as (df1' & pl & pr & Hset & _ & _ & _ & Hrun'); try done.
  assert (df1' = df1) as ->.
  { rewrite Hrun' in Hrun. injection Hrun as _ Hh.
    apply (f_equal (λ m, m !! r0)) in Hh.
    rewrite !lookup_insert_eq in Hh. congruence. }
  assert (c ≠ "code_dep") as Hne'.
  { intros ->. apply getitem_Ok in Hvals as (p & Hp%col_pos_lookup & _).
    apply list_elem_of_lookup_2 in Hp. revert Hp. apply Hfree. by_compute. }
  set (K := keep (matched acs <$> codes) codes).
  assert (getitem out c = Ok (keep (matched acs <$> codes) vals)) as Hoc.
  { apply (joined_column_left r0 r1 h1 rdf areas codes acs df1 c vals out
             (<[r0 := df1]> h1)); try done.
    by rewrite (getitem_setitem_ne rdf "code_dep" (VStr <$> codes) df1). }
  destruct (joined_column_right r0 r1 h1 rdf areas codes acs "code_reg" dr
              out (<[r0 := df1]> h1))
    as (so1 & Hso1 & Hlen1 & Hlook1); try done.
  destruct (joined_column_right r0 r1 h1 rdf areas codes acs "name_reg"
              (region_name rc rn <$> dr) out (<[r0 := df1]> h1))
    as (so2 & Hso2 & Hlen2 & Hlook2); try done.
  destruct (sums_add_up out res so1 so2 c _ Hres Hso1 Hso2 Hc Hoc)
    as (sums_out & Hsums & Htotal).
  exists sums_out. split.
  - rewrite (getitem_setitem_ne res "ratio" ratio res' c); [done| |done|].
    + by apply (compute_referendum_result_by_regions_shape out res).
    + intros ->. revert Hc. by_compute.
  - rewrite Htotal.
    rewrite (with_region_joined rc rn dr so1 so2 acs K); try done.
    + unfold sum_over, K. rewrite keep_filter. f_equal. f_equal.
      apply keep_keep.
    + by rewrite length_fmap in Hl1.
    + apply elem_of_keep_matched.
Qed.

(** The region of a record that is joined gives its name. *)
Lemma joined_region_names (rc rn dr so1 so2 : Series) (acs K : list string) :
  (∀ code, code ∈ K → code ∈ acs) →
  length so1 = length K → length dr = length acs →
  (∀ i code j, K !! i = Some code → acs !! j = Some code →
     so1 !! i = dr !! j) →
  (∀ i code j, K !! i = Some code → acs !! j = Some code →
     so2 !! i = (region_name rc rn <$> dr) !! j) →
  ∀ i v, so1 !! i = Some v → so2 !! i = Some (region_name rc rn v).
Proof.
  intros HK Hlen Hlen' H1 H2 i v Hi.
  destruct (K !! i) as [code|] eqn:Hcode.
  2:{ apply lookup_ge_None in Hcode. apply lookup_lt_Some in Hi. lia. }
  pose proof (list_elem_of_lookup_2 _ _ _ Hcode) as Hin.
  apply HK, list_elem_of_lookup_1 in Hin as [j Hj].
  rewrite (H2 i code j Hcode Hj), list_lookup_fmap.
  rewrite (H1 i code j Hcode Hj) in Hi. by rewrite Hi.
Qed.

(** X23.  From the files to the results, on files of the expected shapes:
    with unique region codes in the file of regions, the results have one
    row per region code, and every code of the index is the code of a
    region of the file. *)
Theorem main_indexes_the_results_by_region (h : gmap nat DataFrame)
    (rdf regions departments geo : DataFrame)
    (rc rn dr dn : Series) (acs codes : list string) :
  read_csv "data/referendum.csv" ";" = Ok rdf →
  read_csv "data/regions.csv" "," = Ok regions →
  read_csv "data/departments.csv" "," = Ok departments →
  read_file "data/regions.geojson" = Ok geo →
  regions_table regions rc rn → strings rc → NoDup rc →
  Forall (λ v, is_Ok (key_part v)) rn →
  departments_table departments dr (VStr <$> acs) dn → NoDup acs →
  strings dr →
  wf rdf → dept_codes rdf = Ok codes →
  (∀ c, c ∈ numeric_columns → int_column rdf c) →
  (∀ d, d ∈ ["code_reg"; "name_reg"; "code_dep"; "name_dep"] →
        d ∉ columns rdf) →
  region_file geo →
  ∃ gdf h' r res,
    main rnd read_file read_csv h = (Ok gdf, h') ∧
    h !! r = None ∧ h' !! r = Some res ∧
    NoDup (ix <$> rows res) ∧
    ∀ v, v ∈ ix <$> rows res → ∃ R, v = [VStr R] ∧ VStr R ∈ rc.
Proof.
  intros Hcsv1 Hcsv2 Hcsv3 Hfile Hreg Hsrc Hndr Hkrn Hdep Hnda Hsdr Hwf Hcodes
    Hint Hfree Hgeo.
  destruct (main_run h rdf regions departments geo rc rn dr dn acs codes)
    as (r0 & r1 & r2 & areas & df1 & out & res & res' & gdf & ratio &
        Hr0 & Hr1 & Hr2 & Hne01 & Hne20 & Hne21 & Hareas & Hrun & Hres &
        Hratio & Hsetr & Hmain);
    try done.
  eexists gdf, _, r2, res'. split; [exact Hmain|]. split; [done|].
  split; [by rewrite lookup_insert_eq|].
  set (h1 := <[r1 := areas]> (<[r0 := rdf]> h)) in *.
  assert (h1 !! r0 = Some rdf) as Hh0.
  { unfold h1. by rewrite lookup_insert_ne, lookup_insert_eq. }
  assert (h1 !! r1 = Some areas) as Hh1.
  { unfold h1. by rewrite lookup_insert_eq. }
  assert (length dr = length (VStr <$> acs) ∧ length dr = length dn)
    as [Hl1 Hl2].
  { destruct Hdep as [H1 H2 H3 _ _].
    apply getitem_length in H1, H2, H3. split; congruence. }
  destruct (areas_columns (region_name rc rn) dr (VStr <$> acs) dn Hl1 Hl2)
    as (Hwfa & Hadr & Hanames & Hacd & Hadn).
  rewrite <- Hareas in Hwfa, Hadr, Hanames, Hacd, Hadn.
  assert (length (positions "code_dep" (columns rdf)) ≤ 1)%nat as Hpos.
  { assert (positions "code_dep" (columns rdf) = []) as ->; [|simpl; lia].
    apply positions_nil, Hfree. by_compute. }
  assert (∀ d, d ∈ columns areas → d ≠ "code_dep" → d ∉ columns rdf)
    as Hdisj.
  { intros d Hd _. apply Hfree. by rewrite Hareas in Hd. }
  destruct (joined_column_right r0 r1 h1 rdf areas codes acs "code_reg" dr
              out (<[r0 := df1]> h1))
    as (so1 & Hso1 & Hlen1 & Hlook1); try done.
  destruct (joined_column_right r0 r1 h1 rdf areas codes acs "name_reg"
              (region_name rc rn <$> dr) out (<[r0 := df1]> h1))
    as (so2 & Hso2 & Hlen2 & Hlook2); try done.
  rewrite length_fmap in Hl1.
  pose proof (joined_region_names rc rn dr so1 so2 acs _
                (elem_of_keep_matched acs codes) Hlen1 Hl1 Hlook1 Hlook2)
    as Hname.
  destruct (index_of_the_result out res so1 so2 Hres Hso1 Hso2)
    as (_ & Hix & Hnd).
  assert (NoDup (ix <$> rows res)) as Hnd'.
  { apply Hnd. intros i j R N N' Hi1 Hi2 Hj1 Hj2.
    apply Hname in Hi1, Hj1. congruence. }
  clear Hnd. rename Hnd' into Hnd.
  apply setitem_rows_ix in Hsetr as [_ Hixs]. rewrite Hixs.
  split; [done|]. intros v Hv.
  apply Hix in Hv as (i & R & N & -> & Hi1 & Hi2).
  exists R. split; [done|].
  apply Hname in Hi1. rewrite Hi1 in Hi2. injection Hi2 as Hi2.
  destruct (decide (VStr R ∈ rc)) as [Hin|Hnin]; [done|].
  rewrite region_name_absent in Hi2; [done| | |done].
  - by destruct Hreg.
  - destruct Hreg as [H1 H2 _ _].
    apply getitem_length in H1, H2. congruence.
Qed.

End MainFacts.

Lemma ex_referendum_numeric :
  ∀ c, c ∈ numeric_columns → int_column ex_referendum c.
Proof.
  intros c Hc.
  repeat (apply elem_of_cons in Hc as [->|Hc]); try exact I.
  by apply elem_of_nil in Hc.
Defined.

Lemma ex_referendum_labels_free :
  ∀ d, d ∈ ["code_reg"; "name_reg"; "code_dep"; "name_dep"] →
       d ∉ columns ex_referendum.
Proof.
  intros d Hd.
  repeat (apply elem_of_cons in Hd as [->|Hd]); try by_compute.
  by apply elem_of_nil in Hd.
Defined.

Lemma main_returns_witness :
  ∃ gdf h', main (λ q, q) ex_files ex_csv ∅ = (Ok gdf, h') ∧ ∅ ⊆ h'.
Proof.
  apply (main_returns (λ q, q) ex_files ex_csv ∅
           ex_referendum ex_regions ex_departments ex_geo
           [VStr "84"; VStr "11"]
           [VStr "Auvergne-Rhone-Alpes"; VStr "Ile-de-France"]
           [VStr "84"; VStr "94"; VStr "11"]
           [VStr "Ain"; VStr "Corse-du-Sud"; VStr "Paris"]
           ["01"; "2A"; "75"] ["01"; "01"; "ZA"; "75"; "971"]).
  - reflexivity.
  - reflexivity.
  - reflexivity.
  - reflexivity.
  - exact ex_regions_table.
  - repeat constructor.
  - exact ex_regions_codes_unique.
  - repeat constructor.
  - exact ex_departments_table.
  - by_compute.
  - repeat constructor.
  - vm_compute. repeat constructor.
  - reflexivity.
  - exact ex_referendum_numeric.
  - exact ex_referendum_labels_free.
  - exact ex_geo_shape.
Defined.

Lemma main_counts_the_records_of_known_regions_witness :
  ∃ gdf h' r res,
    main (λ q, q) ex_files ex_csv ∅ = (Ok gdf, h') ∧
    (∅ : gmap nat DataFrame) !! r = None ∧ h' !! r = Some res ∧
    ∀ c vals, c ∈ numeric_columns → getitem ex_referendum c = Ok vals →
      ∃ sums_out,
        getitem res c = Ok (VInt <$> sums_out) ∧
        total sums_out =
        sum_over
          (counted [VStr "84"; VStr "11"]
             [VStr "Auvergne-Rhone-Alpes"; VStr "Ile-de-France"]
             [VStr "84"; VStr "94"; VStr "11"] ["01"; "2A"; "75"]
             <$> ["01"; "01"; "ZA"; "75"; "971"])
          vals.
Proof.
  apply (main_counts_the_records_of_known_regions (λ q, q) ex_files ex_csv ∅
           ex_referendum ex_regions ex_departments ex_geo
           [VStr "84"; VStr "11"]
           [VStr "Auvergne-Rhone-Alpes"; VStr "Ile-de-France"]
           [VStr "84"; VStr "94"; VStr "11"]
           [VStr "Ain"; VStr "Corse-du-Sud"; VStr "Paris"]
           ["01"; "2A"; "75"] ["01"; "01"; "ZA"; "75"; "971"]).
  - reflexivity.
  - reflexivity.
  - reflexivity.
  - reflexivity.
  - exact ex_regions_table.
  - repeat constructor.
  - exact ex_regions_codes_unique.
  - repeat constructor.
  - exact ex_departments_table.
  - by_compute.
  - repeat constructor.
  - vm_compute. repeat constructor.
  - reflexivity.
  - exact ex_referendum_numeric.
  - exact ex_referendum_labels_free.
  - exact ex_geo_shape.
Defined.

(** The program on the example files: two records of the department 01
    and one of the department 75 are counted. *)
Example ex_main_run :
  (main (λ q, q) ex_files ex_csv ∅).1 =
  Ok (mkDF [] ["code"; "nom"; "geometry"; "name_reg"; "Registered";
               "Abstentions"; "Null"; "Choice A"; "Choice B"; "ratio"]
        [ mkRow [] [VStr "84"; VStr "Auvergne-Rhone-Alpes"; VGeom 1;
                    VStr "Auvergne-Rhone-Alpes"; VInt 150; VInt 20; VInt 0;
                    VInt 70; VInt 60; VFloat (Finite (70 # 130))];
          mkRow [] [VStr "11"; VStr "Ile-de-France"; VGeom 2;
                    VStr "Ile-de-France"; VInt 9; VInt 0; VInt 0;
                    VInt 0; VInt 0; VFloat NaN] ]).
Proof. vm_compute. reflexivity. Qed.

(** ** Sums without overflow *)

Lemma sum_nonneg (ns : list Z) :
  Forall (λ n, 0 ≤ n) ns → 0 ≤ foldr Z.add 0 ns.
Proof. induction 1 as [|n ns Hn H IH]; simpl; lia. Qed.

Lemma sum_keep_le (sel : list bool) (vals : Series) :
  Forall (λ n, 0 ≤ n) (omap int_of_value vals) →
  Forall (λ n, 0 ≤ n) (omap int_of_value (keep sel vals)) ∧
  foldr Z.add 0 (omap int_of_value (keep sel vals)) ≤
  foldr Z.add 0 (omap int_of_value vals).
Proof.
  revert sel. induction vals as [|v vals IH]; intros [|b sel] H;
    rewrite ?keep_nil_r; try (split; [constructor|simpl; try lia]).
  - by apply sum_nonneg.
  - rewrite keep_cons.
    assert (Forall (λ n, 0 ≤ n) (omap int_of_value vals)) as H'.
    { destruct v as [n| | |]; csimpl in *; [by apply Forall_cons in H as [_ ?]|done..]. }
    destruct (IH sel H') as [IH1 IH2].
    destruct b; simpl.
    + destruct v as [n| | |]; csimpl in *; try done.
      apply Forall_cons in H as [Hn _]. split; [by constructor|lia].
    + split; [done|].
      destruct v as [n| | |]; csimpl in *; try done.
      apply Forall_cons in H as [Hn _]. lia.
Qed.

(** The int64 sum over some rows of a column of counts is their sum, when
    the sum of the whole column is below 2^63. *)
Lemma sum_over_exact (sel : list bool) (vals : Series) :
  Forall (λ n, 0 ≤ n) (omap int_of_value vals) →
  foldr Z.add 0 (omap int_of_value vals) < 2 ^ 63 →
  sum_over sel vals = foldr Z.add 0 (omap int_of_value (keep sel vals)).
Proof.
  intros Hpos Hlt. unfold sum_over. rewrite total_wrap.
  destruct (sum_keep_le sel vals Hpos) as [H1 H2].
  apply wrap64_small. pose proof (sum_nonneg _ H1). lia.
Qed.

(** The sums of the result, group by group. *)
Lemma sums_by_key (df res : DataFrame) (codes names : Series) c vals :
  compute_referendum_result_by_regions df = Ok res →
  getitem df "code_reg" = Ok codes → getitem df "name_reg" = Ok names →
  c ∈ numeric_columns → getitem df c = Ok vals →
  ∃ names_out sums_out,
    getitem res "name_reg" = Ok names_out ∧ getitem res c = Ok sums_out ∧
    ∀ i o, rows res !! i = Some o →
      ∃ R N, ix o = [VStr R] ∧ names_out !! i = Some (VStr N) ∧
        sums_out !! i =
        Some (VInt (sum_over (in_region_named R N codes names) vals)).
Proof.
  rewrite compute_referendum_result_by_regions_unfold. intros H Hc Hn Hin Hv.
  inv_bind H. injection H as <-.
  rename x into p1, x0 into p2, x1 into vps, x2 into keyed.
  unfold getitem in Hc, Hn. rewrite Hx in Hc. rewrite Hx0 in Hn.
  simpl in Hc, Hn. injection Hc as <-. injection Hn as <-.
  apply list_elem_of_lookup_1 in Hin as [j Hj].
  destruct (traverse_col_pos_numeric _ _ Hx1 j c Hj) as (vj & Hvj & Hcol).
  unfold getitem in Hv. rewrite Hcol in Hv. simpl in Hv. injection Hv as <-.
  eexists _, (cell (S j) <$> (result_row keyed <$> group_keys keyed)).
  split; [reflexivity|]. split.
  { unfold getitem. cbn [columns rows].
    assert (col_pos c ("name_reg" :: numeric_columns) = Ok (S j)) as ->;
      [|done].
    do 5 (destruct j as [|j]; [by injection Hj as <-|]). done. }
  cbn [rows]. intros i o Ho.
  rewrite list_lookup_fmap in Ho.
  destruct (group_keys keyed !! i) as [k|] eqn:Hk; [|done].
  injection Ho as <-.
  destruct (group_keys_pairs _ _ _ _ _ k Hx2) as (R & N & ->).
  { by eapply list_elem_of_lookup_2. }
  exists R, N. rewrite !list_lookup_fmap, Hk. simpl.
  split; [done|]. split; [done|]. do 2 f_equal.
  rewrite <- (members_sum p1 p2 vps (rows df) keyed j vj R N) by done.
  unfold cell. simpl. unfold sums.
  assert (j < 5)%nat as Hlt by (by apply lookup_lt_Some in Hj).
  do 5 (destruct j as [|j]; [done|]). lia.
Qed.

(** X16.  The sums of the result are the sums of the counts, not their
    residues modulo 2^64, when the counts of the column are not negative and
    add up to less than 2^63. *)
Theorem sums_are_exact (df res : DataFrame) (codes names : Series)
    (c : label) (vals : Series) :
  compute_referendum_result_by_regions df = Ok res →
  getitem df "code_reg" = Ok codes → getitem df "name_reg" = Ok names →
  c ∈ numeric_columns → getitem df c = Ok vals →
  Forall (λ n, 0 ≤ n) (omap int_of_value vals) →
  foldr Z.add 0 (omap int_of_value vals) < 2 ^ 63 →
  ∃ names_out sums_out,
    getitem res "name_reg" = Ok names_out ∧ getitem res c = Ok sums_out ∧
    ∀ i o, rows res !! i = Some o →
      ∃ R N, ix o = [VStr R] ∧ names_out !! i = Some (VStr N) ∧
        sums_out !! i =
        Some (VInt (foldr Z.add 0
                      (omap int_of_value
                         (keep (in_region_named R N codes names) vals)))).
Proof.
  intros Hres Hc Hn Hin Hv Hpos Hlt.
  destruct (sums_by_key df res codes names c vals)
    as (names_out & sums_out & H1 & H2 & H3); try done.
  exists names_out, sums_out. split; [done|]. split; [done|].
  intros i o Ho. destruct (H3 i o Ho) as (R & N & Hix & HN & Hs).
  exists R, N. split; [done|]. split; [done|].
  by rewrite Hs, sum_over_exact.
Qed.

Lemma sums_are_exact_witness :
  ∃ names_out sums_out,
    getitem ex_results "name_reg" = Ok names_out ∧
    getitem ex_results "Choice A" = Ok sums_out ∧
    ∀ i o, rows ex_results !! i = Some o →
      ∃ R N, ix o = [VStr R] ∧ names_out !! i = Some (VStr N) ∧
        sums_out !! i =
        Some (VInt (foldr Z.add 0
                      (omap int_of_value
                         (keep (in_region_named R N
                                  [VStr "84"; VStr "84"; VStr "11"]
                                  [VStr "Auvergne-Rhone-Alpes";
                                   VStr "Auvergne-Rhone-Alpes";
                                   VStr "Ile-de-France"])
                            [VInt 60; VInt 10; VInt 0])))).
Proof.
  apply (sums_are_exact ex_joined ex_results).
  - vm_compute. reflexivity.
  - reflexivity.
  - reflexivity.
  - by_compute.
  - reflexivity.
  - repeat constructor; lia.
  - vm_compute. reflexivity.
Defined.

(** An int64 sum that does not fit wraps around. *)
Example total_wraps : total [2 ^ 62; 2 ^ 62] = - 2 ^ 63.
Proof. reflexivity. Qed.

Lemma main_indexes_the_results_by_region_witness :
  ∃ gdf h' r res,
    main (λ q, q) ex_files ex_csv ∅ = (Ok gdf, h') ∧
    (∅ : gmap nat DataFrame) !! r = None ∧ h' !! r = Some res ∧
    NoDup (ix <$> rows res) ∧
    ∀ v, v ∈ ix <$> rows res →
      ∃ R, v = [VStr R] ∧ VStr R ∈ [VStr "84"; VStr "11"].
Proof.
  apply (main_indexes_the_results_by_region (λ q, q) ex_files ex_csv ∅
           ex_referendum ex_regions ex_departments ex_geo
           [VStr "84"; VStr "11"]
           [VStr "Auvergne-Rhone-Alpes"; VStr "Ile-de-France"]
           [VStr "84"; VStr "94"; VStr "11"]
           [VStr "Ain"; VStr "Corse-du-Sud"; VStr "Paris"]
           ["01"; "2A"; "75"] ["01"; "01"; "ZA"; "75"; "971"]).
  - reflexivity.
  - reflexivity.
  - reflexivity.
  - reflexivity.
  - exact ex_regions_table.
  - repeat constructor.
  - exact ex_regions_codes_unique.
  - repeat constructor.
  - exact ex_departments_table.
  - by_compute.
  - repeat constructor.
  - vm_compute. repeat constructor.
  - reflexivity.
  - exact ex_referendum_numeric.
  - exact ex_referendum_labels_free.
  - exact ex_geo_shape.
Defined.
